(** * webscrap3: the multi-platform fetch-aggregate pipeline

    A shallow embedding of [scraper.js] and [skillrack-simple.js] (cache,
    retry, rate limiter, platform adapters, per-student processor, batch
    driver, summary) and the properties the specification states about them.

    Conventions of the embedding.
    - Effectful code is written in a monad [M]: it reads an environment
      [Env] (the remote services, the input file, the disk), updates a
      [World] (the clock read by [Date.now()], the in-memory cache, the rate
      limiters, the trace of timers, remote calls and file writes performed)
      and ends with a value or by throwing.
    - A call of an [async] function is [async body]: it never throws, it
      yields a settled promise, [Fulfilled] or [Rejected], which [await]
      turns back into a value or a throw. A promise is run to completion
      where it is created: the calls that the code starts together and joins
      with [Promise.allSettled] or [Promise.all] (the five adapters of a
      student, the students of a chunk) run one after the other, in array
      order. What is proved of [processStudent] and of the batch driver holds
      for every table of adapters, hence whatever the joined calls settle
      with. The one place where the interleaving decides the outcome, several
      callers inside [RateLimiter.wait()], has a model of its own
      (module [Concurrent]).
    - Counts, instants and durations are integers and are modelled in [Z];
      a quotient computed by the code is kept as the pair of its operands.
    - Logging is left out. *)

From Stdlib Require Import ZArith Ascii String List Bool Lia Sorted.
From stdpp Require Import base gmap strings pretty.
From Equations Require Import Equations.
Import ListNotations.

Local Open Scope string_scope.
Local Open Scope Z_scope.

(* ===================================================================== *)
(** * JavaScript values found in the input file                          *)
(* ===================================================================== *)

(** Scalar JSON values, plus [undefined] for a property that is absent. *)
Inductive JsValue : Type :=
| JsUndefined
| JsNull
| JsBool (b : bool)
| JsNumber (n : Z)
| JsString (s : string).

(** [!v] is [negb (truthy v)]. *)
Definition truthy (v : JsValue) : bool :=
  match v with
  | JsUndefined | JsNull => false
  | JsBool b => b
  | JsNumber n => negb (n =? 0)
  | JsString s => negb (String.eqb s "")
  end.

(** Conversion performed by a template literal [`${v}`]. Numbers are
    integers printed in full, as JavaScript prints them below 1e21. *)
Definition toString (v : JsValue) : string :=
  match v with
  | JsUndefined => "undefined"
  | JsNull => "null"
  | JsBool true => "true"
  | JsBool false => "false"
  | JsNumber n => pretty n
  | JsString s => s
  end.

(** A handle of a student on one platform: a bare value (normally the
    username string) or the SkillRack credential object
    [{ username, id, key }]. *)
Inductive Identity : Type :=
| Bare (v : JsValue)
| Credential (username id key : JsValue).

Definition missing : Identity := Bare JsUndefined.

Definition truthyId (i : Identity) : bool :=
  match i with
  | Bare v => truthy v
  | Credential _ _ _ => true
  end.

(** [typeof i === 'string'] *)
Definition isString (i : Identity) : bool :=
  match i with
  | Bare (JsString _) => true
  | _ => false
  end.

Definition toStringId (i : Identity) : string :=
  match i with
  | Bare v => toString v
  | Credential _ _ _ => "[object Object]"
  end.

(** Property reads [skillrackData.username], [.id], [.key] on a value that
    is not a string (a string is handled before these reads). *)
Definition prop_username (i : Identity) : JsValue :=
  match i with Credential u _ _ => u | Bare _ => JsUndefined end.
Definition prop_id (i : Identity) : JsValue :=
  match i with Credential _ d _ => d | Bare _ => JsUndefined end.
Definition prop_key (i : Identity) : JsValue :=
  match i with Credential _ _ k => k | Bare _ => JsUndefined end.

Record Handles : Type := mkHandles {
  h_leetcode : Identity;
  h_github : Identity;
  h_codeforces : Identity;
  h_atcoder : Identity;
  h_skillrack : Identity
}.

(** An entry of [students_mock.json]. [handles] is [None] when the property
    is absent or null. *)
Record Student : Type := mkStudent {
  id : JsValue;
  name : JsValue;
  handles : option Handles
}.

(** [student.handles?.p] *)
Definition handle (p : Handles -> Identity) (student : Student) : Identity :=
  match handles student with
  | Some h => p h
  | None => missing
  end.

(* ===================================================================== *)
(** * Configuration                                                      *)
(* ===================================================================== *)

Module CONFIG.
Definition BATCH_SIZE : nat := 100.
Definition CONCURRENCY : nat := 10.
Definition RETRY_ATTEMPTS : nat := 3.
Definition RETRY_DELAY : Z := 2000.
Definition CACHE_DURATION : Z := 24 * 60 * 60 * 1000.
Definition REQUEST_TIMEOUT : Z := 15000.
Definition RATE_LIMIT_DELAY : Z := 200.
End CONFIG.

(* ===================================================================== *)
(** * Platform metrics and the aggregate record                          *)
(* ===================================================================== *)

Record LeetcodeMetrics : Type := mkLeetcode {
  total : Z; easy : Z; medium : Z; hard : Z
}.

Record GithubMetrics : Type := mkGithub {
  repos : Z; mergedPRs : Z
}.

(** The shape [{ solved }] of the codeforces and atcoder adapters. *)
Record SolvedMetrics : Type := mkSolved {
  solved : Z
}.

Record UserInfo : Type := mkUserInfo {
  ui_name : JsValue;               (* [name] *)
  profileFound : bool
}.

Record SkillrackMetrics : Type := mkSkillrack {
  sr_solved : Z;
  userInfo : option UserInfo
}.

Definition zeroLeetcode : LeetcodeMetrics := mkLeetcode 0 0 0 0.
Definition zeroGithub : GithubMetrics := mkGithub 0 0.
Definition zeroSolved : SolvedMetrics := mkSolved 0.
Definition zeroSkillrack : SkillrackMetrics := mkSkillrack 0 None.

(** [result.data] *)
Record PlatformData : Type := mkData {
  leetcode : LeetcodeMetrics;
  github : GithubMetrics;
  codeforces : SolvedMetrics;
  atcoder : SolvedMetrics;
  skillrack : SkillrackMetrics;
  totalCP : Z
}.

(** The record returned by [processStudent]. [timestamp] is the instant
    that [new Date().toISOString()] renders; [error] is [None] when the
    property is absent. *)
Record AggregateResult : Type := mkResult {
  r_id : JsValue;
  r_name : JsValue;
  r_handles : option Handles;
  data : PlatformData;
  processingTime : Z;
  timestamp : Z;
  error : option string
}.

(** The JavaScript number [dividend / divisor]. The division is kept as
    written: the code only ever stores or prints these values. *)
Record Quotient : Type := mkQuotient {
  dividend : Z;
  divisor : Z
}.

(** The object returned by [generateSummary]. *)
Record TopSolver : Type := mkTopSolver {
  ts_name : JsValue;               (* [name] *)
  problems : Z
}.

Record LeetcodeSummary : Type := mkLeetcodeSummary {
  lc_totalProblems : Z;
  lc_avgProblems : Quotient;
  topSolver : TopSolver
}.

Record GithubSummary : Type := mkGithubSummary {
  totalRepos : Z;
  totalMergedPRs : Z;
  avgRepos : Quotient;
  avgMergedPRs : Quotient
}.

(** [{ totalProblems, avgProblems }] of codeforces and atcoder. *)
Record SolvedSummary : Type := mkSolvedSummary {
  totalProblems : Z;
  avgProblems : Quotient
}.

Record Platforms : Type := mkPlatforms {
  p_leetcode : LeetcodeSummary;
  p_github : GithubSummary;
  p_codeforces : SolvedSummary;
  p_atcoder : SolvedSummary
}.

Record Performance : Type := mkPerformance {
  avgProcessingTime : Quotient;
  errors : nat
}.

Record Summary : Type := mkSummary {
  totalStudents : nat;
  s_timestamp : Z;
  platforms : Platforms;
  performance : Performance
}.

(** A thrown value; only its [message] is ever read. *)
Record JsError : Type := mkError {
  message : string
}.

(* ===================================================================== *)
(** * Cache                                                              *)
(* ===================================================================== *)

(** [class Cache]: the object [this.cache], a map from keys to
    [{ data, timestamp }]. [now] is the value of [Date.now()] at the call. *)
Module Cache.
Record item (V : Type) : Type := mkItem {
  data : V;
  timestamp : Z
}.
Arguments mkItem {V} _ _.
Arguments data {V} _.
Arguments timestamp {V} _.

(** [get(key)] *)
Definition get {V : Type} (cache : gmap string (item V)) (now : Z)
    (key : string) : option V :=
  match cache !! key with
  | Some it =>
      if now - timestamp it <? CONFIG.CACHE_DURATION
      then Some (data it)
      else None
  | None => None
  end.

(** [set(key, data)] *)
Definition set {V : Type} (cache : gmap string (item V)) (now : Z)
    (key : string) (d : V) : gmap string (item V) :=
  <[key := mkItem d now]> cache.
End Cache.

(* ===================================================================== *)
(** * Remote services, effects and the world                             *)
(* ===================================================================== *)

(** Result of an operation that may throw (or of a promise that may be
    rejected, once awaited). *)
Inductive Outcome (A : Type) : Type :=
| Ok (a : A)
| Throw (e : JsError).
Arguments Ok {A} _.
Arguments Throw {A} _.

(** The object [cache.cache]. Its keys are [`leetcode_${u}`], [`github_${u}`],
    [`codeforces_${u}`] and [`atcoder_${u}`]; an adapter only reads and
    writes keys with its own prefix, so the object is kept as one map per
    prefix and an entry read back has the shape its adapter stored. *)
Record CacheObject : Type := mkCacheObject {
  leetcode_entries : gmap string (Cache.item LeetcodeMetrics);
  github_entries : gmap string (Cache.item GithubMetrics);
  codeforces_entries : gmap string (Cache.item SolvedMetrics);
  atcoder_entries : gmap string (Cache.item SolvedMetrics)
}.

Definition empty_cache : CacheObject := mkCacheObject ∅ ∅ ∅ ∅.

(** The remote calls issued through axios. *)
Inductive Request : Type :=
| PostLeetcodeGraphql (username : Identity)
| GetGithubUser (username : Identity)
| GetGithubMergedPRs (username : Identity)
| GetCodeforcesStatus (handle : Identity)
| GetAtcoderAcRank (user : Identity)
| GetSkillrackResume (profileUrl : string).

Inductive FileContent : Type :=
| ResultsJson (results : list AggregateResult)
| SummaryJson (summary : Summary)
| CacheJson (c : CacheObject).

(** Effects that leave the process, in the order they happen. *)
Inductive Event : Type :=
| EvTimeout (ms : Z)                       (* setTimeout(resolve, ms), awaited *)
| EvRequest (r : Request)                  (* axios.get / axios.post *)
| EvWrite (file : string) (content : FileContent).

(** What the code reads from each response body. *)

(** An element of [acSubmissionNum]. *)
Record AcItem : Type := mkAcItem {
  difficulty : string;
  count : Z
}.

(** [response.data?.data?.matchedUser?.submitStatsGlobal?.acSubmissionNum] *)
Inductive AcSubmissionNum : Type :=
| AcAbsent                         (* absent, or otherwise falsy *)
| AcArray (items : list AcItem)
| AcNotArray.                      (* truthy, without a [find] method *)

(** An element of [response.data.result] of codeforces' [user.status]. *)
Record Submission : Type := mkSubmission {
  verdict : JsValue;
  contestId : JsValue;             (* [problem.contestId] *)
  index : JsValue                  (* [problem.index] *)
}.

Record CodeforcesBody : Type := mkCodeforcesBody {
  status : JsValue;
  result : option (list Submission)  (* [None]: no [result] array *)
}.

(** Observations made on the html of a SkillRack profile page. The regular
    expressions themselves are not modelled: a page is given by what each
    [match] yields on it. *)
Record Html : Type := mkHtml {
  html_length : Z;
  (* includes 'Please login', 'Login required', 'error' or 'Error' *)
  html_marker : bool;
  (* capture 1 of the first h1/h2 heading, when it matches and is non-empty *)
  html_heading : option string;
  (* for each of the four patterns, in order: parseInt of capture 1 with the
     commas removed, when the pattern matches with a non-empty capture and
     the capture parses to a number *)
  html_patterns : list (option Z);
  (* html.match(/\b([0-9]{1,4})\b/g) mapped through parseInt *)
  html_numbers : option (list Z)
}.

Inductive SkillrackBody : Type :=
| EmptyBody                 (* response.data is falsy *)
| NotText                   (* a parsed object: no [includes] method *)
| Text (html : Html).

(** Answer of a remote service: the time the call takes and its outcome. *)
Record Reply (B : Type) : Type := mkReply {
  latency : N;
  outcome : Outcome B
}.
Arguments mkReply {B} _ _.
Arguments latency {B} _.
Arguments outcome {B} _.

(** The environment answers each call from the effects performed so far. *)
Record Env : Type := mkEnv {
  leetcode_graphql : list Event -> Identity -> Reply AcSubmissionNum;
  github_users : list Event -> Identity -> Reply (option Z);   (* public_repos *)
  github_search : list Event -> Identity -> Reply (option Z);  (* total_count *)
  codeforces_status : list Event -> Identity -> Reply CodeforcesBody;
  atcoder_ac_rank : list Event -> Identity -> Reply (option Z); (* count *)
  skillrack_resume : list Event -> string -> Reply SkillrackBody;
  (* fs.readJson of students_mock.json *)
  students_mock : Outcome (list Student);
  (* outcome of the next fs.writeJson *)
  disk : list Event -> Outcome unit
}.

(** [class RateLimiter] *)
Record RateLimiter : Type := mkRateLimiter {
  delay : Z;
  lastRequest : Z
}.

(** [new RateLimiter(delay)] *)
Definition new_RateLimiter (d : Z) : RateLimiter := mkRateLimiter d 0.

(** The limiter instances of [scraper.js]. *)
Inductive Limiter : Type :=
| rateLimiter
| githubUserLimiter
| githubSearchLimiter
| leetcodeLimiter
| codeforcesLimiter
| skillrackLimiter.

#[global] Instance Limiter_eq_dec : EqDecision Limiter.
Proof. solve_decision. Defined.

Definition initial_limiters (l : Limiter) : RateLimiter :=
  match l with
  | rateLimiter => new_RateLimiter 200
  | githubUserLimiter => new_RateLimiter 1200
  | githubSearchLimiter => new_RateLimiter 3000
  | leetcodeLimiter => new_RateLimiter 500
  | codeforcesLimiter => new_RateLimiter 1000
  | skillrackLimiter => new_RateLimiter 800
  end.

(** The state of the process. *)
Record World : Type := mkWorld {
  now : Z;                          (* Date.now() *)
  cache : CacheObject;
  limiters : Limiter -> RateLimiter;
  trace : list Event                (* oldest first *)
}.

Definition set_now (t : Z) (w : World) : World :=
  mkWorld t (cache w) (limiters w) (trace w).
Definition set_cache (c : CacheObject) (w : World) : World :=
  mkWorld (now w) c (limiters w) (trace w).
Definition set_limiter (l : Limiter) (r : RateLimiter) (w : World) : World :=
  mkWorld (now w) (cache w)
          (fun l' => if decide (l' = l) then r else limiters w l')
          (trace w).
Definition log (e : Event) (w : World) : World :=
  mkWorld (now w) (cache w) (limiters w) (trace w ++ [e]).
Definition elapse (ms : Z) (w : World) : World :=
  set_now (now w + ms) w.

(** ** The monad of effectful code *)

(** Code runs in an environment, which it cannot change, and on a world,
    which it updates; it ends with a value or by throwing. *)
Definition M (A : Type) : Type := Env -> World -> Outcome A * World.

Definition ret {A : Type} (a : A) : M A := fun _ w => (Ok a, w).

Definition throw {A : Type} (e : JsError) : M A := fun _ w => (Throw e, w).

Definition bind {A B : Type} (m : M A) (k : A -> M B) : M B :=
  fun env w =>
    match m env w with
    | (Ok a, w') => k a env w'
    | (Throw e, w') => (Throw e, w')
    end.

(** Reading and updating the world. *)
Definition gets {A : Type} (f : World -> A) : M A := fun _ w => (Ok (f w), w).
Definition modify (f : World -> World) : M unit := fun _ w => (Ok tt, f w).

Declare Scope js_scope.
Delimit Scope js_scope with js.
Notation "x <- m ;; k" := (bind m (fun x => k))
  (at level 100, m at next level, right associativity) : js_scope.
Notation "m ;; k" := (bind m (fun _ => k))
  (at level 100, right associativity) : js_scope.
Local Open Scope js_scope.

(** [try { body } catch (error) { handler }] *)
Definition try_catch {A : Type} (body : M A) (handler : JsError -> M A) : M A :=
  fun env w =>
    match body env w with
    | (Ok a, w') => (Ok a, w')
    | (Throw e, w') => handler e env w'
    end.

(** [Date.now()] *)
Definition Date_now : M Z := gets now.

(** [await new Promise(resolve => setTimeout(resolve, ms))]: the timer is
    taken to fire exactly when due. *)
Definition sleep (ms : Z) : M unit :=
  modify (fun w => elapse (Z.max 0 ms) (log (EvTimeout ms) w)).

(** An awaited axios call: the request is logged, the service consulted on
    the effects so far, and the clock moved by the time the call took. *)
Definition http {B : Type} (r : Request) (service : Env -> list Event -> Reply B)
    : M B :=
  fun env w =>
    let reply := service env (trace w) in
    (outcome reply, elapse (Z.of_N (latency reply)) (log (EvRequest r) w)).

(** [await fs.writeJson(file, content)] *)
Definition writeJson (file : string) (content : FileContent) : M unit :=
  fun env w =>
    match disk env (trace w) with
    | Ok _ => (Ok tt, log (EvWrite file content) w)
    | Throw e => (Throw e, w)
    end.

(** The state of a promise once settled. *)
Inductive Settled (A : Type) : Type :=
| Fulfilled (value : A)
| Rejected (reason : JsError).
Arguments Fulfilled {A} _.
Arguments Rejected {A} _.

(** An [async] function never throws to its caller: it returns a promise
    that its body's result settles. Promises are run to completion where
    they are created. *)
Definition async {A : Type} (body : M A) : M (Settled A) :=
  fun env w =>
    match body env w with
    | (Ok a, w') => (Ok (Fulfilled a), w')
    | (Throw e, w') => (Ok (Rejected e), w')
    end.

(** [await p] *)
Definition await {A : Type} (p : M (Settled A)) : M A :=
  s <- p ;;
  match s with
  | Fulfilled a => ret a
  | Rejected e => throw e
  end.

(** [v || 0] for a number or [undefined]. *)
Definition orZero (v : option Z) : Z :=
  match v with
  | Some n => if n =? 0 then 0 else n
  | None => 0
  end.

(* ===================================================================== *)
(** * The shared cache, retry and rate limiting                          *)
(* ===================================================================== *)

(** Access to the part of [cache.cache] that holds one adapter's keys. *)
Record Slot (V : Type) : Type := mkSlot {
  entries : CacheObject -> gmap string (Cache.item V);
  with_entries : gmap string (Cache.item V) -> CacheObject -> CacheObject
}.
Arguments entries {V} _ _.
Arguments with_entries {V} _ _ _.

Definition leetcode_slot : Slot LeetcodeMetrics :=
  mkSlot _ leetcode_entries
    (fun m c => mkCacheObject m (github_entries c) (codeforces_entries c)
                              (atcoder_entries c)).
Definition github_slot : Slot GithubMetrics :=
  mkSlot _ github_entries
    (fun m c => mkCacheObject (leetcode_entries c) m (codeforces_entries c)
                              (atcoder_entries c)).
Definition codeforces_slot : Slot SolvedMetrics :=
  mkSlot _ codeforces_entries
    (fun m c => mkCacheObject (leetcode_entries c) (github_entries c) m
                              (atcoder_entries c)).
Definition atcoder_slot : Slot SolvedMetrics :=
  mkSlot _ atcoder_entries
    (fun m c => mkCacheObject (leetcode_entries c) (github_entries c)
                              (codeforces_entries c) m).

(** [cache.get(key)] on the global [cache] *)
Definition cache_get {V : Type} (slot : Slot V) (key : string) : M (option V) :=
  gets (fun w => Cache.get (entries slot (cache w)) (now w) key).

(** [cache.set(key, data)] on the global [cache] *)
Definition cache_set {V : Type} (slot : Slot V) (key : string) (d : V) : M unit :=
  modify (fun w =>
    set_cache (with_entries slot
                 (Cache.set (entries slot (cache w)) (now w) key d)
                 (cache w)) w).

(** [retryRequest(fn, attempts)].  [retry_loop] is the [for] loop entered
    with counter [i] and [remaining = attempts - i] iterations ahead; when
    none is left ([i < attempts] fails) the function ends without a value. *)
Fixpoint retry_loop {A : Type} (fn : M (Settled A)) (attempts i remaining : nat)
    : M (option A) :=
  match remaining with
  | O => ret None
  | S remaining' =>
      try_catch
        (a <- await fn ;; ret (Some a))
        (fun error =>
           if (i =? attempts - 1)%nat then throw error
           else
             let delay := CONFIG.RETRY_DELAY * 2 ^ Z.of_nat i in
             sleep delay ;;
             retry_loop fn attempts (S i) remaining')
  end.

Definition retryRequest {A : Type} (fn : M (Settled A)) (attempts : nat)
    : M (option A) :=
  retry_loop fn attempts 0 attempts.

(** The value of [retryRequest(...)] where the code uses it as a metrics
    object. Called with the default [attempts] (3), [retryRequest] returns a
    value or throws, never [undefined]: the [None] branch is not taken
    (lemma [retry_loop_defined]). *)
Definition defined {A : Type} (m : M (option A)) : M A :=
  v <- m ;;
  match v with
  | Some a => ret a
  | None => throw (mkError "undefined")
  end.

(** [RateLimiter.wait()] on the instance [l], run without interleaving. *)
Definition RateLimiter_wait (l : Limiter) : M (Settled unit) :=
  async (
    now0 <- Date_now ;;
    this <- gets (fun w => limiters w l) ;;
    let timeSinceLastRequest := now0 - lastRequest this in
    (if timeSinceLastRequest <? delay this
     then sleep (delay this - timeSinceLastRequest)
     else ret tt) ;;
    now1 <- Date_now ;;
    modify (set_limiter l (mkRateLimiter (delay this) now1))).

(* ===================================================================== *)
(** * The rate limiter under concurrent callers                          *)
(* ===================================================================== *)

(** [wait()] has one suspension point, the awaited timer. A caller runs from
    its call to that point, or to the end when it does not sleep, without
    interruption; the rest runs when its timer has fired. Between these two
    steps other callers may run. *)
Module Concurrent.

Inductive Caller : Type :=
| NotCalled
| Sleeping (due : Z)        (* the instant at which its timer is due *)
| Returned (at_ : Z).       (* the instant at which [wait()] completed *)

Record State : Type := mkState {
  clock : Z;
  limiter : RateLimiter;
  callers : list Caller;
  completions : list Z      (* instants of completion, oldest first *)
}.

Inductive Action : Type :=
| Call (c : nat)            (* caller [c] invokes [wait()] *)
| Fire (c : nat)            (* the timer of caller [c] fires, [wait()] resumes *)
| Tick (ms : N).            (* time passes *)

Definition complete (c : nat) (s : State) : State :=
  mkState (clock s)
          (mkRateLimiter (delay (limiter s)) (clock s))
          (<[c := Returned (clock s)]> (callers s))
          (completions s ++ [clock s]).

Definition step (a : Action) (s : State) : option State :=
  match a with
  | Call c =>
      match callers s !! c with
      | Some NotCalled =>
          let timeSinceLastRequest := clock s - lastRequest (limiter s) in
          if timeSinceLastRequest <? delay (limiter s)
          then Some (mkState (clock s) (limiter s)
                       (<[c := Sleeping (clock s + (delay (limiter s)
                                                    - timeSinceLastRequest))]>
                          (callers s))
                       (completions s))
          else Some (complete c s)
      | _ => None
      end
  | Fire c =>
      match callers s !! c with
      | Some (Sleeping due) =>
          if due <=? clock s then Some (complete c s) else None
      | _ => None
      end
  | Tick ms =>
      Some (mkState (clock s + Z.of_N ms) (limiter s) (callers s)
                    (completions s))
  end.

Fixpoint run (schedule : list Action) (s : State) : option State :=
  match schedule with
  | [] => Some s
  | a :: rest =>
      match step a s with
      | Some s' => run rest s'
      | None => None
      end
  end.

(** Every pair of consecutive completions is at least [d] apart. *)
Fixpoint spaced (d : Z) (instants : list Z) : bool :=
  match instants with
  | t1 :: ((t2 :: _) as rest) => (d <=? t2 - t1) && spaced d rest
  | _ => true
  end.

(** Three callers of the leetcode limiter (500ms) in a process that has
    just started: the students of one chunk reach [leetcodeLimiter.wait()]
    in the same turn of the event loop. *)
Definition chunk_of_three : State :=
  mkState 1700000000000 (new_RateLimiter 500)
          [NotCalled; NotCalled; NotCalled] [].

Definition same_turn : list Action :=
  [Call 0%nat; Call 1%nat; Call 2%nat; Tick 500; Fire 1%nat; Fire 2%nat].

End Concurrent.

(* ===================================================================== *)
(** * The SkillRack scraper ([skillrack-simple.js])                      *)
(* ===================================================================== *)

(** [s.includes(sub)] *)
Definition includes (s sub : string) : bool :=
  match String.index 0 sub s with
  | Some _ => true
  | None => false
  end.

Fixpoint trimStart (s : string) : string :=
  match s with
  | String a s' => if Ascii.is_space a then trimStart s' else s
  | EmptyString => EmptyString
  end.

(** [s.trim()], for the ASCII white space *)
Definition trim (s : string) : string :=
  String.rev (trimStart (String.rev (trimStart s))).

(** The [for (const pattern of patterns)] loop: the first parsed count that
    passes the plausibility test, else 0. *)
Fixpoint first_plausible (matches : list (option Z)) : Z :=
  match matches with
  | [] => 0
  | Some num :: rest =>
      if (0 <? num) && (num <? 3000) && negb (num =? 2024) && negb (num =? 2023)
      then num
      else first_plausible rest
  | None :: rest => first_plausible rest
  end.

(** Insertion into a list sorted by [(a, b) => b - a]. *)
Fixpoint insert_desc (n : Z) (l : list Z) : list Z :=
  match l with
  | [] => [n]
  | m :: rest => if m <? n then n :: l else m :: insert_desc n rest
  end.

(** [l.sort((a, b) => b - a)] *)
Definition sort_desc (l : list Z) : list Z :=
  fold_right insert_desc [] l.

Definition contextual (n : Z) : bool :=
  (0 <? n) && (n <? 2000) && negb (n =? 2024) && negb (n =? 2023)
  && negb (n =? 100) && negb (n =? 200).

Definition scrapeSkillRack (skillrackData : Identity) (rateLimiter : Limiter)
    : M (Settled SkillrackMetrics) :=
  async (
    if negb (truthyId skillrackData) then ret zeroSkillrack else
    (* Handle both old format (string) and new format (object) *)
    let '(username, id, key) :=
      match skillrackData with
      | Bare (JsString s) => (JsString s, JsString s, JsNull)
      | _ => (prop_username skillrackData, prop_id skillrackData,
              prop_key skillrackData)
      end in
    if negb (truthy username) then ret zeroSkillrack else
    await (RateLimiter_wait rateLimiter) ;;
    try_catch (
      let profileUrl :=
        if truthy id && truthy key
        then "https://www.skillrack.com/faces/resume.xhtml?id=" +:+ toString id
             +:+ "&key=" +:+ toString key
        else "https://www.skillrack.com/faces/resume.xhtml?id="
             +:+ toString username in
      (* Method 1: Try direct profile access *)
      response <-
        try_catch
          (body <- http (GetSkillrackResume profileUrl)
                        (fun e h => skillrack_resume e h profileUrl) ;;
           ret (Some body))
          (fun _ => ret None) ;;
      match response with
      | None => ret zeroSkillrack
      | Some EmptyBody => ret zeroSkillrack
      | Some NotText => throw (mkError "html.includes is not a function")
      | Some (Text html) =>
          if (html_length html <? 1000) || html_marker html
          then ret zeroSkillrack
          else
            (* Extract user info *)
            let userInfo :=
              match html_heading html with
              | Some heading =>
                  if negb (includes heading "SkillRack")
                  then Some (mkUserInfo (JsString (trim heading)) true)
                  else None
              | None => None
              end in
            let solved := first_plausible (html_patterns html) in
            let solved :=
              match userInfo, html_numbers html with
              | Some _, Some numbers =>
                  if solved =? 0 then
                    match sort_desc (List.filter (fun n => contextual n) numbers) with
                    | n :: _ => n
                    | [] => solved
                    end
                  else solved
              | _, _ => solved
              end in
            ret (mkSkillrack solved
                   (Some (match userInfo with
                          | Some u => u
                          | None => mkUserInfo username false
                          end)))
      end)
      (fun _ => ret zeroSkillrack)).

(* ===================================================================== *)
(** * Loading of the .env file                                           *)
(* ===================================================================== *)

(** [s.split(c)] for a separator [c] of one character *)
Fixpoint split (c : Ascii.ascii) (s : string) : list string :=
  match s with
  | EmptyString => [EmptyString]
  | String a s' =>
      if Ascii.eqb a c then EmptyString :: split c s'
      else match split c s' with
           | piece :: pieces => String a piece :: pieces
           | [] => [String a EmptyString]
           end
  end.

(** The body of the [forEach] over the lines: the assignment to
    [process.env] it performs, if any. [value] is [undefined] on a line
    without ['=']. *)
Definition load_line (line : string) : list (string * string) :=
  match split "="%char line with
  | key :: value :: _ =>
      if negb (String.eqb key "") && negb (String.eqb value "")
      then [(trim key, trim value)]
      else []
  | _ => []
  end.

(** Load environment variables from .env file: the assignments
    [process.env[name] = value] performed for the content of the file, in
    order. *)
Definition load_env (envContent : string) : list (string * string) :=
  flat_map load_line (split "010"%char envContent).

(* ===================================================================== *)
(** * Platform adapters                                                  *)
(* ===================================================================== *)

(** [data.find(item => item.difficulty === d)?.count || 0] *)
Definition count_of (d : string) (items : list AcItem) : Z :=
  orZero (option_map count
            (List.find (fun item => String.eqb (difficulty item) d) items)).

(** [v === 'OK'] *)
Definition isOK (v : JsValue) : bool :=
  match v with
  | JsString s => String.eqb s "OK"
  | _ => false
  end.

(** The keys added to [solvedProblems]. *)
Definition solved_keys (submissions : list Submission) : gset string :=
  list_to_set
    (map (fun s => toString (contestId s) +:+ "-" +:+ toString (index s))
         (List.filter (fun s => isOK (verdict s)) submissions)).

Module Adapters.

(** The function handed to [retryRequest] by the leetcode adapter. *)
Definition leetcode_fn (username : Identity) (cacheKey : string)
    : M (Settled LeetcodeMetrics) :=
  async (
    data <- http (PostLeetcodeGraphql username)
                 (fun e h => leetcode_graphql e h username) ;;
    match data with
    | AcAbsent => ret zeroLeetcode
    | AcNotArray => throw (mkError "data.find is not a function")
    | AcArray items =>
        let result := mkLeetcode (count_of "All" items)
                                 (count_of "Easy" items)
                                 (count_of "Medium" items)
                                 (count_of "Hard" items) in
        cache_set leetcode_slot cacheKey result ;;
        ret result
    end).

Definition leetcode (username : Identity) : M (Settled LeetcodeMetrics) :=
  async (
    if negb (truthyId username) then ret zeroLeetcode else
    let cacheKey := "leetcode_" +:+ toStringId username in
    cached <- cache_get leetcode_slot cacheKey ;;
    match cached with
    | Some c => ret c
    | None =>
        await (RateLimiter_wait leetcodeLimiter) ;;
        defined (retryRequest (leetcode_fn username cacheKey)
                              CONFIG.RETRY_ATTEMPTS)
    end).

(** The function handed to [retryRequest] by the github adapter. *)
Definition github_fn (username : Identity) (cacheKey : string)
    : M (Settled GithubMetrics) :=
  async (
    try_catch (
      (* Get user info for repo count *)
      public_repos <- http (GetGithubUser username)
                           (fun e h => github_users e h username) ;;
      mergedPRs <-
        try_catch (
          (* Wait for GitHub Search API rate limit *)
          await (RateLimiter_wait githubSearchLimiter) ;;
          (* Get merged PRs count *)
          total_count <- http (GetGithubMergedPRs username)
                              (fun e h => github_search e h username) ;;
          ret (orZero total_count))
          (fun prError => ret 0) ;;
      let result := mkGithub (orZero public_repos) mergedPRs in
      cache_set github_slot cacheKey result ;;
      ret result)
      (fun error => throw error)).

Definition github (username : Identity) : M (Settled GithubMetrics) :=
  async (
    if negb (truthyId username) then ret zeroGithub else
    let cacheKey := "github_" +:+ toStringId username in
    cached <- cache_get github_slot cacheKey ;;
    match cached with
    | Some c => ret c
    | None =>
        await (RateLimiter_wait githubUserLimiter) ;;
        defined (retryRequest (github_fn username cacheKey)
                              CONFIG.RETRY_ATTEMPTS)
    end).

(** The function handed to [retryRequest] by the codeforces adapter. *)
Definition codeforces_fn (username : Identity) (cacheKey : string)
    : M (Settled SolvedMetrics) :=
  async (
    response <- http (GetCodeforcesStatus username)
                     (fun e h => codeforces_status e h username) ;;
    if negb (isOK (status response)) then ret zeroSolved else
    match result response with
    | None =>
        throw (mkError "Cannot read properties of undefined (reading 'forEach')")
    | Some submissions =>
        let solvedProblems := solved_keys submissions in
        let result := mkSolved (Z.of_nat (size solvedProblems)) in
        cache_set codeforces_slot cacheKey result ;;
        ret result
    end).

Definition codeforces (username : Identity) : M (Settled SolvedMetrics) :=
  async (
    if negb (truthyId username) then ret zeroSolved else
    let cacheKey := "codeforces_" +:+ toStringId username in
    cached <- cache_get codeforces_slot cacheKey ;;
    match cached with
    | Some c => ret c
    | None =>
        await (RateLimiter_wait codeforcesLimiter) ;;
        defined (retryRequest (codeforces_fn username cacheKey)
                              CONFIG.RETRY_ATTEMPTS)
    end).

(** The function handed to [retryRequest] by the atcoder adapter. *)
Definition atcoder_fn (username : Identity) (cacheKey : string)
    : M (Settled SolvedMetrics) :=
  async (
    count <- http (GetAtcoderAcRank username)
                  (fun e h => atcoder_ac_rank e h username) ;;
    let result := mkSolved (orZero count) in
    cache_set atcoder_slot cacheKey result ;;
    ret result).

Definition atcoder (username : Identity) : M (Settled SolvedMetrics) :=
  async (
    if negb (truthyId username) then ret zeroSolved else
    let cacheKey := "atcoder_" +:+ toStringId username in
    cached <- cache_get atcoder_slot cacheKey ;;
    match cached with
    | Some c => ret c
    | None =>
        await (RateLimiter_wait rateLimiter) ;;
        defined (retryRequest (atcoder_fn username cacheKey)
                              CONFIG.RETRY_ATTEMPTS)
    end).

Definition skillrack (skillrackData : Identity) : M (Settled SkillrackMetrics) :=
  async (
    if negb (truthyId skillrackData) then ret zeroSkillrack else
    (* Handle both string and object formats *)
    if isString skillrackData then ret zeroSkillrack (* No ID/key available *) else
    if negb (truthy (prop_id skillrackData)) || negb (truthy (prop_key skillrackData))
    then ret zeroSkillrack (* No ID/key available *) else
    await (scrapeSkillRack skillrackData skillrackLimiter)).

End Adapters.

(** The object [Adapters]: the functions looked up as [Adapters.leetcode],
    ... at each call. An entry may be any function: called, it either
    throws or returns a promise. *)
Record AdapterTable : Type := mkAdapters {
  call_leetcode : Identity -> M (Settled LeetcodeMetrics);
  call_github : Identity -> M (Settled GithubMetrics);
  call_codeforces : Identity -> M (Settled SolvedMetrics);
  call_atcoder : Identity -> M (Settled SolvedMetrics);
  call_skillrack : Identity -> M (Settled SkillrackMetrics)
}.

(** [Adapters] as [scraper.js] defines and exports it. *)
Definition exported_Adapters : AdapterTable :=
  mkAdapters Adapters.leetcode Adapters.github Adapters.codeforces
             Adapters.atcoder Adapters.skillrack.

(* ===================================================================== *)
(** * Summary statistics                                                 *)
(* ===================================================================== *)

(** [array.reduce(f)] without an initial value *)
Definition reduce1 {A : Type} (f : A -> A -> A) (l : list A) : M A :=
  match l with
  | [] => throw (mkError "Reduce of empty array with no initial value")
  | x :: rest => ret (fold_left f rest x)
  end.

(** [array.reduce((sum, r) => sum + g(r), 0)] *)
Definition sum_of (g : AggregateResult -> Z) (results : list AggregateResult) : Z :=
  fold_left (fun sum r => sum + g r) results 0.

(** Truth value of [r.error]. *)
Definition has_error (r : AggregateResult) : bool :=
  match error r with
  | Some msg => negb (String.eqb msg "")
  | None => false
  end.

(** [(max, r) => r.data.leetcode.total > max.data.leetcode.total ? r : max] *)
Definition higher (max r : AggregateResult) : AggregateResult :=
  if total (leetcode (data max)) <? total (leetcode (data r)) then r else max.

(** Generate summary statistics *)
Definition generateSummary (results : list AggregateResult) : M Summary :=
  let length := Z.of_nat (length results) in
  timestamp <- Date_now ;;
  let lc_total := sum_of (fun r => total (leetcode (data r))) results in
  let gh_repos := sum_of (fun r => repos (github (data r))) results in
  let gh_prs := sum_of (fun r => mergedPRs (github (data r))) results in
  let cf_total := sum_of (fun r => solved (codeforces (data r))) results in
  let ac_total := sum_of (fun r => solved (atcoder (data r))) results in
  let performance :=
    mkPerformance
      (mkQuotient (sum_of processingTime results) length)
      (List.length (List.filter (fun r => has_error r) results)) in
  (* Find top solver *)
  topLeetcodeSolver <- reduce1 higher results ;;
  ret (mkSummary
         (List.length results)
         timestamp
         (mkPlatforms
            (mkLeetcodeSummary lc_total (mkQuotient lc_total length)
               (mkTopSolver (r_name topLeetcodeSolver)
                            (total (leetcode (data topLeetcodeSolver)))))
            (mkGithubSummary gh_repos gh_prs
               (mkQuotient gh_repos length) (mkQuotient gh_prs length))
            (mkSolvedSummary cf_total (mkQuotient cf_total length))
            (mkSolvedSummary ac_total (mkQuotient ac_total length)))
         performance).

(** [array.sort((a, b) => key(b) - key(a))]: the array in descending order
    of [key]; the sort is stable, records with equal keys keep their order.
    [insert_by] puts a record in front of the first one whose key is not
    larger. *)
Fixpoint insert_by {A : Type} (key : A -> Z) (x : A) (l : list A) : list A :=
  match l with
  | [] => [x]
  | y :: rest => if key y <=? key x then x :: l else y :: insert_by key x rest
  end.

Definition sort_by {A : Type} (key : A -> Z) (l : list A) : list A :=
  fold_right (insert_by key) [] l.

(** The three listings printed by [displayTopPerformers]. *)
Record TopPerformers : Type := mkTopPerformers {
  topLeetCode : list AggregateResult;
  topGitHub : list AggregateResult;
  topCP : list AggregateResult
}.

(** Display top performers. Each listing is printed one line per record, in
    order, numbered from 1. [sort] works in place: each listing is cut from
    the array as the sorts before it left it, and the array ends in the
    order of the last one. *)
Definition displayTopPerformers (results : list AggregateResult)
    : TopPerformers * list AggregateResult :=
  (* Top LeetCode solvers *)
  let results := sort_by (fun r => total (leetcode (data r))) results in
  let topLeetCode := firstn 5 results in
  (* Top GitHub contributors *)
  let results :=
    sort_by (fun r => repos (github (data r)) + mergedPRs (github (data r)))
            results in
  let topGitHub := firstn 5 results in
  (* Top overall competitive programmers *)
  let results := sort_by (fun r => totalCP (data r)) results in
  let topCP := firstn 5 results in
  (mkTopPerformers topLeetCode topGitHub topCP, results).

(* ===================================================================== *)
(** * The per-student processor and the batch driver                     *)
(* ===================================================================== *)

(** [array.slice(start, end)] for [start <= end] *)
Definition slice {A : Type} (l : list A) (start end_ : nat) : list A :=
  firstn (end_ - start) (skipn start l).

(** [array.map(f)] for an effectful [f], in index order *)
Fixpoint mapM {A B : Type} (f : A -> M B) (l : list A) : M (list B) :=
  match l with
  | [] => ret []
  | x :: rest =>
      y <- f x ;;
      ys <- mapM f rest ;;
      ret (y :: ys)
  end.

(** [Promise.all(promises)] *)
Fixpoint Promise_all {A : Type} (promises : list (Settled A)) : Settled (list A) :=
  match promises with
  | [] => Fulfilled []
  | Fulfilled v :: rest =>
      match Promise_all rest with
      | Fulfilled vs => Fulfilled (v :: vs)
      | Rejected e => Rejected e
      end
  | Rejected e :: _ => Rejected e
  end.

(** The value a slot of [Promise.allSettled] contributes to [result.data]. *)
Definition value_or {A : Type} (s : Settled A) (zero : A) : A :=
  match s with
  | Fulfilled v => v
  | Rejected _ => zero
  end.

Definition zeroData : PlatformData :=
  mkData zeroLeetcode zeroGithub zeroSolved zeroSolved zeroSkillrack 0.

(** The five promises handed to [Promise.allSettled], once settled. *)
Record Joined : Type := mkJoined {
  leetcodeData : Settled LeetcodeMetrics;
  githubData : Settled GithubMetrics;
  codeforcesData : Settled SolvedMetrics;
  atcoderData : Settled SolvedMetrics;
  skillrackData : Settled SkillrackMetrics
}.

Section Pipeline.

Variable Adapters : AdapterTable.

(** [await Promise.allSettled([Adapters.leetcode(...), ...])]: the five
    adapters are called in array order; [allSettled] itself never rejects,
    so the join throws only if one of the calls throws instead of returning
    a promise. Each call is run to its end where it is made: of the
    schedules of the five promises this is the one in which they do not
    overlap. What a record holds, what is requested, cached and written do
    not depend on that choice; the time that passes and the order of the
    timers of different calls do, and nothing is stated about them. *)
Definition join (student : Student) : M Joined :=
  leetcodeData <- call_leetcode Adapters (handle h_leetcode student) ;;
  githubData <- call_github Adapters (handle h_github student) ;;
  codeforcesData <- call_codeforces Adapters (handle h_codeforces student) ;;
  atcoderData <- call_atcoder Adapters (handle h_atcoder student) ;;
  skillrackData <- call_skillrack Adapters (handle h_skillrack student) ;;
  ret (mkJoined leetcodeData githubData codeforcesData atcoderData
                skillrackData).

(** Worker function for processing students *)
Definition processStudent (student : Student) : M (Settled AggregateResult) :=
  async (
    startTime <- Date_now ;;
    try_catch (
      joined <- join student ;;
      finished <- Date_now ;;
      let leetcode := value_or (leetcodeData joined) zeroLeetcode in
      let github := value_or (githubData joined) zeroGithub in
      let codeforces := value_or (codeforcesData joined) zeroSolved in
      let atcoder := value_or (atcoderData joined) zeroSolved in
      let skillrack := value_or (skillrackData joined) zeroSkillrack in
      (* Calculate total competitive programming problems *)
      let totalCP :=
        total leetcode + solved codeforces + solved atcoder
        + orZero (Some (sr_solved skillrack)) in
      ret (mkResult (id student) (name student) (handles student)
             (mkData leetcode github codeforces atcoder skillrack totalCP)
             (finished - startTime) finished None))
      (fun error =>
         finished <- Date_now ;;
         ret (mkResult (id student) (name student) (handles student)
                zeroData (finished - startTime) finished
                (Some (message error))))).

(** The [for] loop of [processBatch], entered with counter [i] and the
    results pushed so far. *)
Equations? processBatch_loop (students : list Student) (i : nat)
    (results : list AggregateResult) (env : Env) (w : World)
    : Outcome (list AggregateResult) * World
    by wf (length students - i)%nat lt :=
  processBatch_loop students i results env w
    with decide (i < length students)%nat := {
    | left _ =>
        let chunk := slice students i (i + CONFIG.CONCURRENCY) in
        match (chunkPromises <- mapM processStudent chunk ;;
               await (ret (Promise_all chunkPromises))) env w with
        | (Ok chunkResults, w') =>
            processBatch_loop students (i + CONFIG.CONCURRENCY)
                              (results ++ chunkResults) env w'
        | (Throw e, w') => (Throw e, w')
        end
    | right _ => (Ok results, w) }.
Proof. unfold CONFIG.CONCURRENCY. lia. Qed.

(** Concurrent batch processor *)
Definition processBatch (students : list Student) (batchNumber : nat)
    : M (Settled (list AggregateResult)) :=
  async (processBatch_loop students 0 []).

(** The batch loop of [runScraper], entered with counter [i] and
    [allResults]. *)
Equations? runScraper_loop (students : list Student) (i : nat)
    (allResults : list AggregateResult) (env : Env) (w : World)
    : Outcome (list AggregateResult) * World
    by wf (length students - i)%nat lt :=
  runScraper_loop students i allResults env w
    with decide (i < length students)%nat := {
    | left _ =>
        let batch := slice students i (i + CONFIG.BATCH_SIZE) in
        let batchNumber := (i / CONFIG.BATCH_SIZE + 1)%nat in
        match (batchResults <- await (processBatch batch batchNumber) ;;
               let allResults := (allResults ++ batchResults)%list in
               (* Save incremental results *)
               writeJson "results.json" (ResultsJson allResults) ;;
               (* Brief pause between batches *)
               (if (i + CONFIG.BATCH_SIZE <? length students)%nat
                then sleep 1000 else ret tt) ;;
               ret allResults) env w with
        | (Ok allResults, w') =>
            runScraper_loop students (i + CONFIG.BATCH_SIZE) allResults env w'
        | (Throw e, w') => (Throw e, w')
        end
    | right _ => (Ok allResults, w) }.
Proof. unfold CONFIG.BATCH_SIZE. lia. Qed.

(** [cache.saveCache()]: a failed write is logged and swallowed. *)
Definition saveCache : M unit :=
  try_catch
    (c <- gets cache ;; writeJson "cache.json" (CacheJson c))
    (fun _ => ret tt).

(** How a run ends: normally, or through [process.exit(1)]. *)
Inductive Run : Type :=
| Completed (allResults : list AggregateResult) (summary : Summary)
| Exit (code : Z).

(** Main scraper function. The console report and [displayTopPerformers]
    that follow the last write are left out. *)
Definition runScraper : M Run :=
  try_catch (
    (* Load students data *)
    students <- (fun env w => (students_mock env, w)) ;;
    allResults <- runScraper_loop students 0 [] ;;
    (* Save cache *)
    saveCache ;;
    (* Generate summary statistics *)
    summary <- generateSummary allResults ;;
    writeJson "summary.json" (SummaryJson summary) ;;
    ret (Completed allResults summary))
    (fun error => ret (Exit 1)).

End Pipeline.

(* ===================================================================== *)
(** * Notions used to state the properties                               *)
(* ===================================================================== *)

(** The world in which [wait()] on [l], called in [w], returns. *)
Definition waited (l : Limiter) (w : World) : World :=
  let this := limiters w l in
  let timeSinceLastRequest := now w - lastRequest this in
  let w1 :=
    if timeSinceLastRequest <? delay this
    then elapse (Z.max 0 (delay this - timeSinceLastRequest))
                (log (EvTimeout (delay this - timeSinceLastRequest)) w)
    else w in
  set_limiter l (mkRateLimiter (delay this) (now w1)) w1.

(** The profile URL the scraper requests. *)
Definition profileUrl_of (username id key : JsValue) : string :=
  if truthy id && truthy key
  then "https://www.skillrack.com/faces/resume.xhtml?id=" +:+ toString id
       +:+ "&key=" +:+ toString key
  else "https://www.skillrack.com/faces/resume.xhtml?id=" +:+ toString username.

(** The record built when the join returns. *)
Definition joined_result (student : Student) (joined : Joined)
    (startTime finished : Z) : AggregateResult :=
  let leetcode := value_or (leetcodeData joined) zeroLeetcode in
  let codeforces := value_or (codeforcesData joined) zeroSolved in
  let atcoder := value_or (atcoderData joined) zeroSolved in
  let skillrack := value_or (skillrackData joined) zeroSkillrack in
  mkResult (id student) (name student) (handles student)
    (mkData leetcode (value_or (githubData joined) zeroGithub) codeforces
            atcoder skillrack
            (total leetcode + solved codeforces + solved atcoder
             + sr_solved skillrack))
    (finished - startTime) finished None.

(** The record built by the [catch] block. *)
Definition failed_result (student : Student) (e : JsError)
    (startTime finished : Z) : AggregateResult :=
  mkResult (id student) (name student) (handles student) zeroData
           (finished - startTime) finished (Some (message e)).

(** [r] is a record emitted for [student]. *)
Definition record_of (student : Student) (r : AggregateResult) : Prop :=
  r_id r = id student /\ r_name r = name student
  /\ r_handles r = handles student.

(** The shape the leetcode, github, codeforces and atcoder adapters share:
    guard on the identity, cache lookup, limiter, retried call of [fn]. *)
Definition fetch_through_cache {V : Type} (slot : Slot V) (cacheKey : string)
    (limiter : Limiter) (zero : V) (fn : M (Settled V)) (username : Identity)
    : M (Settled V) :=
  async (
    if negb (truthyId username) then ret zero else
    cached <- cache_get slot cacheKey ;;
    match cached with
    | Some c => ret c
    | None =>
        await (RateLimiter_wait limiter) ;;
        defined (retryRequest fn CONFIG.RETRY_ATTEMPTS)
    end).


(** In [w] the cache holds [v] under [key], stamped with the current time. *)
Definition stored {V : Type} (slot : Slot V) (key : string) (v : V)
    (w : World) : Prop :=
  entries slot (cache w) !! key = Some (Cache.mkItem v (now w)).

(** What an adapter makes of a response body. *)
Inductive Reading (V : Type) : Type :=
| Builds (metrics : V -> Prop)  (* it builds metrics from it, as described *)
| NoData                        (* it finds no data in it *)
| Malformed.                    (* reading it throws *)
Arguments Builds {V} _.
Arguments NoData {V}.
Arguments Malformed {V}.

Definition leetcode_reading (data : AcSubmissionNum) : Reading LeetcodeMetrics :=
  match data with
  | AcAbsent => NoData
  | AcArray items =>
      Builds (fun v => v = mkLeetcode (count_of "All" items)
                                      (count_of "Easy" items)
                                      (count_of "Medium" items)
                                      (count_of "Hard" items))
  | AcNotArray => Malformed
  end.

Definition github_reading (public_repos : option Z) : Reading GithubMetrics :=
  Builds (fun v => repos v = orZero public_repos).

Definition codeforces_reading (response : CodeforcesBody) : Reading SolvedMetrics :=
  if negb (isOK (status response)) then NoData else
  match result response with
  | Some submissions =>
      Builds (fun v => v = mkSolved (Z.of_nat (size (solved_keys submissions))))
  | None => Malformed
  end.

Definition atcoder_reading (count : option Z) : Reading SolvedMetrics :=
  Builds (fun v => v = mkSolved (orZero count)).

(** What a call has done with the response it read: written the metrics it
    built from it under [key], stamped with the time of return, and returned
    them; or, finding no data, returned [zero] and left the cache as it was
    in [w]. *)
Definition follows {V : Type} (slot : Slot V) (key : string) (zero : V)
    (reading : Reading V) (w : World) (v : V) (w' : World) : Prop :=
  match reading with
  | Builds metrics => metrics v /\ stored slot key v w'
  | NoData => v = zero /\ cache w' = cache w
  | Malformed => False
  end.

(** What one attempt does with the answer of its service. *)
Definition attempt_follows {V B : Type} (slot : Slot V) (zero : V)
    (fn : Identity -> string -> M (Settled V))
    (service : Env -> list Event -> Identity -> Reply B)
    (reading : B -> Reading V) : Prop :=
  forall username key env w,
    match outcome (service env (trace w) username) with
    | Ok response =>
        match reading response with
        | Malformed =>
            exists e w', await (fn username key) env w = (Throw e, w')
                         /\ cache w' = cache w
        | _ =>
            exists v w', await (fn username key) env w = (Ok v, w')
                         /\ follows slot key zero (reading response) w v w'
        end
    | Throw _ =>
        exists e w', await (fn username key) env w = (Throw e, w')
                     /\ cache w' = cache w
    end.

(** The cache protocol of an adapter whose keys are [prefix] followed by the
    identity, and which reads the responses of [service] as [reading] tells.
    A fresh entry short-circuits the call, leaving the world as it is (no
    wait, no remote call). On a miss, a call that resolves has read a
    response of the service and done with it what [follows] says; and when
    the service answers the first attempt, made once the limiter has been
    waited for, the call resolves, and has done so with that response. *)
Definition cache_protocol {V B : Type} (adapter : Identity -> M (Settled V))
    (slot : Slot V) (prefix : string) (limiter : Limiter) (zero : V)
    (service : Env -> list Event -> Identity -> Reply B)
    (reading : B -> Reading V) : Prop :=
  forall username env w,
    truthyId username = true ->
    let key := prefix +:+ toStringId username in
    (forall it,
        entries slot (cache w) !! key = Some it ->
        now w - Cache.timestamp it < CONFIG.CACHE_DURATION ->
        adapter username env w = (Ok (Fulfilled (Cache.data it)), w))
    /\ (Cache.get (entries slot (cache w)) (now w) key = None ->
        (forall v w',
            adapter username env w = (Ok (Fulfilled v), w') ->
            exists h response,
              outcome (service env h username) = Ok response
              /\ follows slot key zero (reading response) w v w')
        /\ (forall response,
              outcome (service env (trace (waited limiter w)) username)
              = Ok response ->
              reading response <> Malformed ->
              exists v w',
                adapter username env w = (Ok (Fulfilled v), w')
                /\ follows slot key zero (reading response) w v w')).

(** A number that a template literal prints in full, digit by digit: one
    below 1e21 in absolute value. Larger ones are printed with an exponent,
    which [toString] does not render. *)
Definition prints_in_full (v : JsValue) : Prop :=
  match v with
  | JsNumber n => Z.abs n < 10 ^ 21
  | _ => True
  end.


(** The remote calls in a trace. *)
Definition requests (tr : list Event) : list Request :=
  flat_map (fun ev => match ev with EvRequest r => [r] | _ => [] end) tr.

(** [r] has an [error] property. *)
Definition carries_error_field (r : AggregateResult) : bool :=
  match error r with
  | Some _ => true
  | None => false
  end.

(** [r] has an [error] property holding a non-empty message. *)
Definition carries_error_message (r : AggregateResult) : bool :=
  match error r with
  | Some (String _ _) => true
  | _ => false
  end.

(** ** Sample inputs *)

Definition ETIMEDOUT : JsError := mkError "timeout of 15000ms exceeded".

(** No service can be reached; the disk is writable. *)
Definition offline : Env :=
  mkEnv (fun _ _ => mkReply 15000 (Throw ETIMEDOUT))
        (fun _ _ => mkReply 15000 (Throw ETIMEDOUT))
        (fun _ _ => mkReply 15000 (Throw ETIMEDOUT))
        (fun _ _ => mkReply 15000 (Throw ETIMEDOUT))
        (fun _ _ => mkReply 15000 (Throw ETIMEDOUT))
        (fun _ _ => mkReply 15000 (Throw ETIMEDOUT))
        (Ok [])
        (fun _ => Ok tt).

(** A SkillRack profile page announcing 120 solved programs. *)
Definition profile_page : Html :=
  mkHtml 5000 false (Some "  ALICE ") [Some 120; None; None; None] None.

(** SkillRack serves [profile_page]; nothing else can be reached. *)
Definition skillrack_online : Env :=
  mkEnv (leetcode_graphql offline) (github_users offline)
        (github_search offline) (codeforces_status offline)
        (atcoder_ac_rank offline)
        (fun _ _ => mkReply 300 (Ok (Text profile_page)))
        (Ok [])
        (fun _ => Ok tt).

(** The process as it starts: empty cache, fresh limiters, nothing done. *)
Definition start : World :=
  mkWorld 1700000000000 empty_cache initial_limiters [].

(** The process with alice's leetcode metrics cached 1000s earlier. *)
Definition warm : World :=
  set_cache
    (mkCacheObject
       {[ "leetcode_alice" := Cache.mkItem (mkLeetcode 120 80 30 10) 1699999000000 ]}
       ∅ ∅ ∅)
    start.

Definition alice_skillrack : Identity :=
  Credential (JsString "alice") (JsNumber 4242) (JsString "k3y").

Definition alice : Student :=
  mkStudent (JsNumber 1) (JsString "ALICE")
    (Some (mkHandles (Bare (JsString "alice")) (Bare (JsString "alice"))
                     (Bare (JsString "alice")) (Bare (JsString "alice"))
                     alice_skillrack)).

Definition bob : Student :=
  mkStudent (JsNumber 2) (JsString "BOB") None.

(** The record [processStudent] builds for [bob] when the join throws
    [new Error()], whose message is empty. *)
Definition silent_failure : AggregateResult :=
  failed_result bob (mkError "") 1700000000000 1700000000000.

(** An [Adapters] object whose leetcode entry was replaced by a function
    that throws when called. *)
Definition stubbed_Adapters : AdapterTable :=
  mkAdapters (fun _ => throw (mkError "boom"))
             Adapters.github Adapters.codeforces Adapters.atcoder
             Adapters.skillrack.

(** ** Notions used for the properties of the whole run *)

(** Whatever the environment, [m] takes a world to one related to it by
    [R]. *)
Definition keeps {A : Type} (R : World -> World -> Prop) (m : M A) : Prop :=
  forall env w, R w (snd (m env w)).

(** The number of remote calls performed so far. *)
Definition calls (w : World) : nat := length (requests (trace w)).

(** [m] performs at most [k] remote calls. *)
Definition within {A : Type} (k : nat) (m : M A) : Prop :=
  forall env w, (calls (snd (m env w)) <= calls w + k)%nat.

(** The files written in a trace, with their contents. *)
Definition writes (tr : list Event) : list (string * FileContent) :=
  flat_map (fun ev => match ev with EvWrite f c => [(f, c)] | _ => [] end) tr.

(** No file is written. *)
Definition no_write (w w' : World) : Prop :=
  writes (trace w') = writes (trace w).

(** No key leaves the cache. *)
Definition cache_grows (w w' : World) : Prop :=
  dom (leetcode_entries (cache w)) ⊆ dom (leetcode_entries (cache w'))
  /\ dom (github_entries (cache w)) ⊆ dom (github_entries (cache w'))
  /\ dom (codeforces_entries (cache w)) ⊆ dom (codeforces_entries (cache w'))
  /\ dom (atcoder_entries (cache w)) ⊆ dom (atcoder_entries (cache w')).

(** No limiter is ahead of the clock. *)
Definition limiters_behind_clock (w : World) : Prop :=
  forall l, lastRequest (limiters w l) <= now w.

(** From a world where no limiter is ahead of the clock: the clock does not
    go back, every limiter keeps its delay, no [lastRequest] decreases, and
    again no limiter is ahead of the clock. *)
Definition limiters_advance (w w' : World) : Prop :=
  limiters_behind_clock w ->
  now w <= now w'
  /\ limiters_behind_clock w'
  /\ forall l, delay (limiters w' l) = delay (limiters w l)
               /\ lastRequest (limiters w l) <= lastRequest (limiters w' l).

(** ** More sample inputs *)

(** Every service answers; the students file lists [alice] and [bob]. *)
Definition classroom : Env :=
  mkEnv (fun _ _ => mkReply 400
                      (Ok (AcArray [mkAcItem "All" 120; mkAcItem "Easy" 80;
                                    mkAcItem "Medium" 30; mkAcItem "Hard" 10])))
        (fun _ _ => mkReply 250 (Ok (Some 12)))
        (fun _ _ => mkReply 600 (Ok (Some 4)))
        (fun _ _ => mkReply 900
                      (Ok (mkCodeforcesBody (JsString "OK")
                             (Some [mkSubmission (JsString "OK") (JsNumber 1500)
                                                 (JsString "A")]))))
        (fun _ _ => mkReply 350 (Ok (Some 25)))
        (fun _ _ => mkReply 300 (Ok (Text profile_page)))
        (Ok [alice; bob])
        (fun _ => Ok tt).

(** The github user lookup fails twice and then answers; the search answers;
    nothing else can be reached. *)
Definition github_third_time : Env :=
  mkEnv (leetcode_graphql offline)
        (fun h _ =>
           if (length (List.filter
                         (fun ev => match ev with
                                    | EvRequest (GetGithubUser _) => true
                                    | _ => false
                                    end) h) <? 2)%nat
           then mkReply 15000 (Throw ETIMEDOUT)
           else mkReply 250 (Ok (Some 12)))
        (fun _ _ => mkReply 600 (Ok (Some 4)))
        (codeforces_status offline)
        (atcoder_ac_rank offline)
        (skillrack_resume offline)
        (Ok [alice])
        (fun _ => Ok tt).

(** The students file cannot be read. *)
Definition no_students_file : Env :=
  mkEnv (leetcode_graphql classroom) (github_users classroom)
        (github_search classroom) (codeforces_status classroom)
        (atcoder_ac_rank classroom) (skillrack_resume classroom)
        (Throw (mkError "ENOENT: no such file or directory, open 'students_mock.json'"))
        (fun _ => Ok tt).

(** Nothing can be written. *)
Definition read_only_disk : Env :=
  mkEnv (leetcode_graphql classroom) (github_users classroom)
        (github_search classroom) (codeforces_status classroom)
        (atcoder_ac_rank classroom) (skillrack_resume classroom)
        (Ok [alice; bob])
        (fun _ => Throw (mkError "EROFS: read-only file system")).

(** The timers set in a trace, in order. *)
Definition timeouts (tr : list Event) : list Z :=
  flat_map (fun ev => match ev with EvTimeout ms => [ms] | _ => [] end) tr.

(** The delays [retryRequest] sleeps after its first [k] failed attempts. *)
Definition backoff (k : nat) : list Z :=
  map (fun i => CONFIG.RETRY_DELAY * 2 ^ Z.of_nat i) (seq 0 k).

(** As [classroom], with the github search out of order. *)
Definition github_search_down : Env :=
  mkEnv (leetcode_graphql classroom) (github_users classroom)
        (fun _ _ => mkReply 15000 (Throw ETIMEDOUT))
        (codeforces_status classroom) (atcoder_ac_rank classroom)
        (skillrack_resume classroom) (students_mock classroom) (disk classroom).

(** The metrics the scraper builds from a page that passes its basic
    validation: the part of [scrapeSkillRack] from "Extract user info" to
    its [return] (lemma [scrapeSkillRack_value]). *)
Definition page_metrics (username : JsValue) (html : Html) : SkillrackMetrics :=
  let userInfo :=
    match html_heading html with
    | Some heading =>
        if negb (includes heading "SkillRack")
        then Some (mkUserInfo (JsString (trim heading)) true)
        else None
    | None => None
    end in
  let solved := first_plausible (html_patterns html) in
  let solved :=
    match userInfo, html_numbers html with
    | Some _, Some numbers =>
        if solved =? 0 then
          match sort_desc (List.filter (fun n => contextual n) numbers) with
          | n :: _ => n
          | [] => solved
          end
        else solved
    | _, _ => solved
    end in
  mkSkillrack solved
    (Some (match userInfo with
           | Some u => u
           | None => mkUserInfo username false
           end)).

(** A count the SkillRack-specific patterns accept. *)
Definition plausible (num : Z) : bool :=
  (0 <? num) && (num <? 3000) && negb (num =? 2024) && negb (num =? 2023).

(** A profile page, headed by a name, on which none of the patterns for the
    solved count matches. *)
Definition bare_page : Html :=
  mkHtml 5000 false (Some "ALICE") [None; None; None; None]
         (Some [2024; 100; 57; 312; 5000; 0]).

(** SkillRack serves [bare_page]; nothing else can be reached. *)
Definition skillrack_bare : Env :=
  mkEnv (leetcode_graphql offline) (github_users offline)
        (github_search offline) (codeforces_status offline)
        (atcoder_ac_rank offline)
        (fun _ _ => mkReply 300 (Ok (Text bare_page)))
        (Ok [])
        (fun _ => Ok tt).

(** The key under which the codeforces adapter records a solved problem. *)
Definition problem_key (s : Submission) : string :=
  toString (contestId s) +:+ "-" +:+ toString (index s).

(** In [w] the cache holds, under the key of identity [i], a fresh entry
    with data [v]. *)
Definition fresh {V : Type} (slot : Slot V) (prefix : string) (i : Identity)
    (v : V) (w : World) : Prop :=
  truthyId i = true
  /\ exists it,
       entries slot (cache w) !! (prefix +:+ toStringId i) = Some it
       /\ now w - Cache.timestamp it < CONFIG.CACHE_DURATION
       /\ Cache.data it = v.

(** The process with all four API records of alice cached 1000s earlier. *)
Definition warm_all : World :=
  set_cache
    (mkCacheObject
       {[ "leetcode_alice" := Cache.mkItem (mkLeetcode 120 80 30 10) 1699999000000 ]}
       {[ "github_alice" := Cache.mkItem (mkGithub 12 4) 1699999000000 ]}
       {[ "codeforces_alice" := Cache.mkItem (mkSolved 1) 1699999000000 ]}
       {[ "atcoder_alice" := Cache.mkItem (mkSolved 25) 1699999000000 ]})
    start.

(** [listing] holds the [n] best records of [results] by [key] (all of them
    when there are fewer), best first: no record left out has a larger key
    than a listed one. *)
Definition best_of {A : Type} (key : A -> Z) (n : nat)
    (results listing : list A) : Prop :=
  length listing = Nat.min n (length results)
  /\ StronglySorted (fun a b => key b <= key a) listing
  /\ exists rest,
       Permutation results (listing ++ rest)
       /\ forall x y, In x listing -> In y rest -> key y <= key x.

(** [c] does not occur in [s]. *)
Fixpoint free_of (c : Ascii.ascii) (s : string) : bool :=
  match s with
  | EmptyString => true
  | String a s' => negb (Ascii.eqb a c) && free_of c s'
  end.

(** The limiters are left as they are. *)
Definition same_limiters (w w' : World) : Prop := limiters w' = limiters w.

(** Unfolding of the monad's operations. *)
Ltac unfold_monad :=
  unfold async, await, bind, try_catch, ret, throw, gets, modify, Date_now,
         http, sleep, cache_get, cache_set, defined in *.

(* ===================================================================== *)
(** * Properties of the cache                                            *)
(* ===================================================================== *)

Section CacheFacts.

Context {V : Type}.
Implicit Types (c : gmap string (Cache.item V)) (key : string) (t : Z).



Lemma Cache_set_lookup c t key d :
  Cache.set c t key d !! key = Some (Cache.mkItem d t).
Proof. unfold Cache.set. apply lookup_insert_eq. Qed.


Lemma Cache_get_set c t key d t' :
  Cache.get (Cache.set c t key d) t' key =
  if t' - t <? CONFIG.CACHE_DURATION then Some d else None.
Proof. unfold Cache.get. rewrite Cache_set_lookup. reflexivity. Qed.


End CacheFacts.


(* ===================================================================== *)
(** * Properties of retryRequest                                         *)
(* ===================================================================== *)

Section RetryFacts.

Context {A : Type}.
Implicit Types (fn : M (Settled A)) (env : Env) (w : World).

Lemma retry_loop_success fn attempts i remaining env w a w' :
  await fn env w = (Ok a, w') ->
  retry_loop fn attempts i (S remaining) env w = (Ok (Some a), w').
Proof.
  intros H. simpl. unfold try_catch, bind at 1. rewrite H. reflexivity.
Qed.

Lemma retry_loop_last_failure fn attempts i remaining env w e w' :
  await fn env w = (Throw e, w') ->
  i = (attempts - 1)%nat ->
  retry_loop fn attempts i (S remaining) env w = (Throw e, w').
Proof.
  intros H ->. simpl. unfold try_catch, bind at 1. rewrite H.
  rewrite Nat.eqb_refl. reflexivity.
Qed.

Lemma retry_loop_failure fn attempts i remaining env w e w' :
  await fn env w = (Throw e, w') ->
  i <> (attempts - 1)%nat ->
  retry_loop fn attempts i (S remaining) env w =
  retry_loop fn attempts (S i) remaining env
    (snd (sleep (CONFIG.RETRY_DELAY * 2 ^ Z.of_nat i) env w')).
Proof.
  intros H Hi. simpl. unfold try_catch, bind at 1. rewrite H.
  apply Nat.eqb_neq in Hi. rewrite Hi. reflexivity.
Qed.

(** With at least one attempt the call evaluates to a value or throws. *)
Lemma retry_loop_defined fn attempts i remaining env w :
  (i + remaining = attempts)%nat -> remaining <> O ->
  fst (retry_loop fn attempts i remaining env w) <> Ok None.
Proof.
  revert i w. induction remaining as [|r IH]; intros i w Hsum Hr; [done|].
  destruct (await fn env w) as [[a|e] w'] eqn:E.
  - erewrite retry_loop_success by eassumption. discriminate.
  - destruct (decide (i = (attempts - 1)%nat)) as [Hi|Hi].
    + erewrite retry_loop_last_failure by eassumption. discriminate.
    + erewrite retry_loop_failure by eassumption.
      apply IH; lia.
Qed.

End RetryFacts.

(** C6. With 3 attempts and the 2000ms base delay: when the operation fails
    at each of its invocations, [retryRequest] invokes it three times,
    sleeping 2000ms after the first failure and 4000ms after the second
    (2000 * 2^i after the failure of attempt i), and throws the third
    failure from the world the third invocation left (no fourth invocation,
    no third sleep); on a remote call this shows in the trace as request,
    2000ms timer, request, 4000ms timer, request. When an invocation
    succeeds, its value is returned from the world that invocation left,
    with nothing further performed. *)
Theorem retryRequest_three_attempts :
  forall (A : Type) (fn : M (Settled A)) (env : Env) (w : World),
    let after ms w' := elapse ms (log (EvTimeout ms) w') in
    (forall e1 w1 e2 w2 e3 w3,
        await fn env w = (Throw e1, w1) ->
        await fn env (after (2000 * 2 ^ 0) w1) = (Throw e2, w2) ->
        await fn env (after (2000 * 2 ^ 1) w2) = (Throw e3, w3) ->
        retryRequest fn 3 env w = (Throw e3, w3))
    /\ (forall a w1,
        await fn env w = (Ok a, w1) ->
        retryRequest fn 3 env w = (Ok (Some a), w1))
    /\ (forall e1 w1 a w2,
        await fn env w = (Throw e1, w1) ->
        await fn env (after 2000 w1) = (Ok a, w2) ->
        retryRequest fn 3 env w = (Ok (Some a), w2))
    /\ (forall e1 w1 e2 w2 a w3,
        await fn env w = (Throw e1, w1) ->
        await fn env (after 2000 w1) = (Throw e2, w2) ->
        await fn env (after 4000 w2) = (Ok a, w3) ->
        retryRequest fn 3 env w = (Ok (Some a), w3))
    /\ (forall (r : Request) (service : Env -> list Event -> Reply A),
        (forall h, exists e, outcome (service env h) = Throw e) ->
        fn = async (http r service) ->
        exists e3 w3,
          retryRequest fn 3 env w = (Throw e3, w3)
          /\ trace w3 = (trace w ++ [EvRequest r; EvTimeout 2000; EvRequest r;
                                     EvTimeout 4000; EvRequest r])%list
          /\ outcome (service env
                        (trace w ++ [EvRequest r; EvTimeout 2000; EvRequest r;
                                     EvTimeout 4000])%list) = Throw e3).
Proof.
  intros A fn env w after. unfold retryRequest.
  assert (Hafter : forall ms w', 0 <= ms -> after ms w' = snd (sleep ms env w')).
  { intros ms w' Hms. unfold after, sleep, modify. simpl. by rewrite Z.max_r. }
  repeat split.
  - intros e1 w1 e2 w2 e3 w3 H1 H2 H3.
    erewrite retry_loop_failure by (eassumption || discriminate).
    rewrite Hafter in H2 by done.
    erewrite retry_loop_failure by (eassumption || discriminate).
    rewrite Hafter in H3 by done.
    by erewrite retry_loop_last_failure by (eassumption || reflexivity).
  - intros a w1 H1. by erewrite retry_loop_success by eassumption.
  - intros e1 w1 a w2 H1 H2.
    erewrite retry_loop_failure by (eassumption || discriminate).
    rewrite Hafter in H2 by done.
    by erewrite retry_loop_success by eassumption.
  - intros e1 w1 e2 w2 a w3 H1 H2 H3.
    erewrite retry_loop_failure by (eassumption || discriminate).
    rewrite Hafter in H2 by done.
    erewrite retry_loop_failure by (eassumption || discriminate).
    rewrite Hafter in H3 by done.
    by erewrite retry_loop_success by eassumption.
  - intros r service Hfail ->.
    assert (Hcall : forall w0,
              exists e, outcome (service env (trace w0)) = Throw e
                /\ await (async (http r service)) env w0
                   = (Throw e, elapse (Z.of_N (latency (service env (trace w0))))
                                      (log (EvRequest r) w0))).
    { intros w0. destruct (Hfail (trace w0)) as [e He]. exists e.
      split; [done|].
      unfold await, bind, async, http. rewrite He. reflexivity. }
    destruct (Hcall w) as (e1 & _ & H1).
    erewrite retry_loop_failure by (eassumption || discriminate).
    match goal with |- context [retry_loop _ _ _ _ _ ?w1] =>
      destruct (Hcall w1) as (e2 & _ & H2) end.
    erewrite retry_loop_failure by (eassumption || discriminate).
    match goal with |- context [retry_loop _ _ _ _ _ ?w2] =>
      destruct (Hcall w2) as (e3 & He3 & H3) end.
    erewrite retry_loop_last_failure by (eassumption || reflexivity).
    eexists _, _. split; [reflexivity|]. split.
    + simpl. rewrite <- !app_assoc. reflexivity.
    + rewrite <- He3. simpl. rewrite <- !app_assoc. reflexivity.
Qed.

(* ===================================================================== *)
(** * Properties of processStudent                                       *)
(* ===================================================================== *)

Lemma orZero_Some n : orZero (Some n) = n.
Proof. simpl. destruct (Z.eqb_spec n 0); congruence. Qed.

Section ProcessorFacts.

Variable Adapters : AdapterTable.
Implicit Types (student : Student) (env : Env) (w : World).

Lemma processStudent_joined student env w joined w' :
  join Adapters student env w = (Ok joined, w') ->
  processStudent Adapters student env w
  = (Ok (Fulfilled (joined_result student joined (now w) (now w'))), w').
Proof.
  intros H. unfold processStudent, async, bind, try_catch, Date_now, gets.
  rewrite H. unfold ret, joined_result. rewrite orZero_Some. reflexivity.
Qed.

Lemma processStudent_caught student env w e w' :
  join Adapters student env w = (Throw e, w') ->
  processStudent Adapters student env w
  = (Ok (Fulfilled (failed_result student e (now w) (now w'))), w').
Proof.
  intros H. unfold processStudent, async, bind, try_catch, Date_now, gets.
  rewrite H. reflexivity.
Qed.

(** [processStudent] always resolves, to a record for its student whose
    [totalCP] is the sum of the four problem counts. *)
Lemma processStudent_resolves student env w :
  exists r w',
    processStudent Adapters student env w = (Ok (Fulfilled r), w')
    /\ r_id r = id student /\ r_name r = name student
    /\ r_handles r = handles student
    /\ totalCP (data r)
       = total (leetcode (data r)) + solved (codeforces (data r))
         + solved (atcoder (data r)) + sr_solved (skillrack (data r)).
Proof.
  destruct (join Adapters student env w) as [[joined|e] w'] eqn:E.
  - eexists _, _. split; [by apply processStudent_joined|]. by cbn.
  - eexists _, _. split; [by apply processStudent_caught|]. by cbn.
Qed.

End ProcessorFacts.

(** C3. Whatever the adapters do, the record [processStudent] resolves to
    has [totalCP] equal to the sum, over that same record, of
    [leetcode.total], [codeforces.solved], [atcoder.solved] and
    [skillrack.solved]; the github counts [repos] and [mergedPRs] are no
    part of it: the record with its github metrics replaced by any others
    and the same [totalCP] satisfies the same equation. *)
Theorem totalCP_is_sum_of_problem_counts :
  forall (Adapters : AdapterTable) (student : Student) (env : Env) (w : World),
  exists r w',
    processStudent Adapters student env w = (Ok (Fulfilled r), w')
    /\ totalCP (data r)
       = total (leetcode (data r)) + solved (codeforces (data r))
         + solved (atcoder (data r)) + sr_solved (skillrack (data r))
    /\ forall g : GithubMetrics,
        let d := mkData (leetcode (data r)) g (codeforces (data r))
                        (atcoder (data r)) (skillrack (data r))
                        (totalCP (data r)) in
        totalCP d
        = total (leetcode d) + solved (codeforces d) + solved (atcoder d)
          + sr_solved (skillrack d).
Proof.
  intros Adapters student env w.
  destruct (processStudent_resolves Adapters student env w)
    as (r & w' & Hrun & _ & _ & _ & Hsum).
  exists r, w'. split; [done|]. split; [done|]. intros g. by cbn.
Qed.

(** C8. [processStudent] never rejects: it always resolves to a record; and
    when the join throws [err], the record has the student's id, name and
    handles, zero metrics for every platform, [totalCP] 0 and
    [err.message] in its [error] field. *)
Theorem processStudent_absorbs_join_failure :
  forall (Adapters : AdapterTable) (student : Student) (env : Env) (w : World),
    (exists r w', processStudent Adapters student env w = (Ok (Fulfilled r), w'))
    /\ forall err w',
        join Adapters student env w = (Throw err, w') ->
        exists r,
          processStudent Adapters student env w = (Ok (Fulfilled r), w')
          /\ r_id r = id student /\ r_name r = name student
          /\ r_handles r = handles student
          /\ leetcode (data r) = mkLeetcode 0 0 0 0
          /\ github (data r) = mkGithub 0 0
          /\ codeforces (data r) = mkSolved 0
          /\ atcoder (data r) = mkSolved 0
          /\ skillrack (data r) = mkSkillrack 0 None
          /\ totalCP (data r) = 0
          /\ error r = Some (message err).
Proof.
  intros Adapters student env w. split.
  - destruct (processStudent_resolves Adapters student env w)
      as (r & w' & Hrun & _). by exists r, w'.
  - intros err w' Hjoin. eexists. split; [by apply processStudent_caught|].
    by cbn.
Qed.

(* ===================================================================== *)
(** * Properties of the batch driver                                     *)
(* ===================================================================== *)

Lemma Promise_all_fulfilled {A : Type} (values : list A) :
  Promise_all (map Fulfilled values) = Fulfilled values.
Proof. induction values as [|v vs IH]; simpl; [done|]. by rewrite IH. Qed.

Lemma slice_chunk {A : Type} (l : list A) (i width : nat) :
  slice l i (i + width) = firstn width (skipn i l).
Proof. unfold slice. f_equal. lia. Qed.

Section DriverFacts.

Variable Adapters : AdapterTable.
Implicit Types (students : list Student) (env : Env) (w : World).

(** The promises of a chunk all resolve, each to a record of its student. *)
Lemma chunk_promises students env w :
  exists rs w',
    mapM (processStudent Adapters) students env w = (Ok (map Fulfilled rs), w')
    /\ Forall2 record_of students rs.
Proof.
  revert w. induction students as [|s rest IH]; intros w.
  - exists [], w. by split; [|constructor].
  - destruct (processStudent_resolves Adapters s env w)
      as (r & w1 & Hrun & Hid & Hname & Hhandles & _).
    destruct (IH w1) as (rs & w2 & Hrest & Hall).
    exists (r :: rs), w2. split.
    + simpl. unfold bind at 1. rewrite Hrun.
      unfold bind at 1. rewrite Hrest. reflexivity.
    + by constructor.
Qed.

Lemma chunk_results students env w :
  exists rs w',
    (chunkPromises <- mapM (processStudent Adapters) students ;;
     await (ret (Promise_all chunkPromises))) env w = (Ok rs, w')
    /\ Forall2 record_of students rs.
Proof.
  destruct (chunk_promises students env w) as (rs & w' & Hrun & Hall).
  exists rs, w'. split; [|done].
  unfold bind at 1. rewrite Hrun. unfold await, bind, ret.
  by rewrite Promise_all_fulfilled.
Qed.

(** The chunk loop returns: from counter [i] it pushes one record for each
    student from position [i] on, in order. *)
Lemma processBatch_loop_spec students i results env w :
  exists rs w',
    processBatch_loop Adapters students i results env w
    = (Ok (results ++ rs)%list, w')
    /\ Forall2 record_of (skipn i students) rs.
Proof.
  apply (processBatch_loop_elim Adapters
           (fun students i results env w out =>
              exists rs w', out = (Ok (results ++ rs)%list, w')
                            /\ Forall2 record_of (skipn i students) rs));
    clear students i results env w.
  - intros students i Hi results env w IH _.
    cbv zeta. rewrite slice_chunk.
    destruct (chunk_results (firstn CONFIG.CONCURRENCY (skipn i students)) env w)
      as (crs & w1 & -> & Hchunk).
    destruct (IH (Ok crs) w1 crs) as (rs & w2 & -> & Hrest).
    exists (crs ++ rs)%list, w2. split; [by rewrite app_assoc|].
    rewrite <- (firstn_skipn CONFIG.CONCURRENCY (skipn i students)).
    apply Forall2_app; [done|].
    by rewrite skipn_skipn, Nat.add_comm.
  - intros students i Hi results env w _.
    exists [], w. split; [by rewrite app_nil_r|].
    rewrite skipn_all2 by lia. constructor.
Qed.

Lemma processBatch_spec students batchNumber env w :
  exists rs w',
    processBatch Adapters students batchNumber env w = (Ok (Fulfilled rs), w')
    /\ Forall2 record_of students rs.
Proof.
  destruct (processBatch_loop_spec students 0 [] env w) as (rs & w' & H & Hall).
  exists rs, w'. split; [|done].
  unfold processBatch, async. by rewrite H.
Qed.

(** The batch loop returns when every snapshot can be written; the last
    thing it does, if it runs at all, is to write all the records. *)
Lemma runScraper_loop_spec students i allResults env w :
  (forall h, disk env h = Ok tt) ->
  exists rs w',
    runScraper_loop Adapters students i allResults env w
    = (Ok (allResults ++ rs)%list, w')
    /\ Forall2 record_of (skipn i students) rs
    /\ ((i < length students)%nat ->
        exists tr, trace w' = (tr ++ [EvWrite "results.json"
                                       (ResultsJson (allResults ++ rs))])%list)
    /\ (~ (i < length students)%nat -> rs = [] /\ w' = w).
Proof.
  intros Hdisk.
  apply (runScraper_loop_elim Adapters
           (fun students i allResults env' w out =>
              env' = env ->
              exists rs w',
                out = (Ok (allResults ++ rs)%list, w')
                /\ Forall2 record_of (skipn i students) rs
                /\ ((i < length students)%nat ->
                    exists tr,
                      trace w' = (tr ++ [EvWrite "results.json"
                                           (ResultsJson (allResults ++ rs))])%list)
                /\ (~ (i < length students)%nat -> rs = [] /\ w' = w)));
    clear students i allResults w; [| |reflexivity].
  - intros students i Hi allResults env' w IH _ ->.
    cbv zeta. rewrite slice_chunk.
    destruct (processBatch_spec (firstn CONFIG.BATCH_SIZE (skipn i students))
                (i / CONFIG.BATCH_SIZE + 1) env w)
      as (brs & w1 & Hbatch & Hall).
    unfold bind at 1, await at 1, bind at 1. rewrite Hbatch.
    unfold ret at 1, bind at 1, writeJson. rewrite Hdisk.
    unfold bind at 1.
    set (w2 := log (EvWrite "results.json" (ResultsJson (allResults ++ brs))) w1).
    destruct (Nat.ltb_spec (i + CONFIG.BATCH_SIZE) (length students)) as [Hmore|Hlast].
    + unfold sleep, modify, ret at 1.
      match goal with |- context [runScraper_loop _ _ _ _ _ ?w0] =>
        destruct (IH (Ok (allResults ++ brs)%list) w0 (allResults ++ brs)%list
                     eq_refl)
          as (rs & w3 & -> & Hrest & Htrace & _)
      end.
      exists (brs ++ rs)%list, w3. split; [by rewrite app_assoc|]. split.
      * rewrite <- (firstn_skipn CONFIG.BATCH_SIZE (skipn i students)).
        apply Forall2_app; [done|].
        by rewrite skipn_skipn, Nat.add_comm.
      * split; [|done]. intros _. rewrite app_assoc. by apply Htrace.
    + unfold ret at 1 2.
      destruct (IH (Ok (allResults ++ brs)%list) w2 (allResults ++ brs)%list eq_refl)
        as (rs & w3 & -> & Hrest & _ & Hstop).
      destruct Hstop as [-> ->]; [lia|].
      exists (brs ++ [])%list, w2. split; [by rewrite app_assoc|]. split.
      * rewrite <- (firstn_skipn CONFIG.BATCH_SIZE (skipn i students)).
        apply Forall2_app; [done|].
        by rewrite skipn_skipn, Nat.add_comm.
      * split; [|done]. intros _. exists (trace w1).
        by rewrite !app_nil_r.
  - intros students i Hi allResults env' w _ _.
    exists [], w. split; [by rewrite app_nil_r|]. split.
    + rewrite skipn_all2 by lia. constructor.
    + done.
Qed.

End DriverFacts.

(** C1. Whatever the adapters do and whatever the remote services answer,
    a batch, and (when the snapshots can be written) the batch loop over the
    whole cohort, return a list with one record per student, the record at
    each position carrying the id, name and handles of the student at that
    position; and that list is what the loop last wrote to results.json. *)
Theorem one_result_per_student_in_order :
  forall (Adapters : AdapterTable) (students : list Student)
         (env : Env) (w : World),
    (forall h, disk env h = Ok tt) ->
    (forall batchNumber, exists results w',
        processBatch Adapters students batchNumber env w
        = (Ok (Fulfilled results), w')
        /\ length results = length students
        /\ Forall2 record_of students results)
    /\ exists allResults w',
        runScraper_loop Adapters students 0 [] env w = (Ok allResults, w')
        /\ length allResults = length students
        /\ Forall2 record_of students allResults
        /\ (students <> [] ->
            exists tr, trace w' = (tr ++ [EvWrite "results.json"
                                           (ResultsJson allResults)])%list).
Proof.
  intros Adapters students env w Hdisk. split.
  - intros batchNumber.
    destruct (processBatch_spec Adapters students batchNumber env w)
      as (rs & w' & H & Hall).
    exists rs, w'. split; [done|]. split; [|done].
    symmetry. by eapply Forall2_length.
  - destruct (runScraper_loop_spec Adapters students 0 [] env w Hdisk)
      as (rs & w' & H & Hall & Htrace & _).
    exists rs, w'. split; [done|]. split; [|split; [done|]].
    + symmetry. by eapply Forall2_length.
    + intros Hne. apply Htrace. destruct students; [done|cbn; lia].
Qed.

(* ===================================================================== *)
(** * Properties of the monad and of the sequential rate limiter         *)
(* ===================================================================== *)

Lemma bind_Ok {A B : Type} (m : M A) (k : A -> M B) env w a w' :
  m env w = (Ok a, w') -> bind m k env w = k a env w'.
Proof. intros H. unfold bind. by rewrite H. Qed.

Lemma bind_Throw {A B : Type} (m : M A) (k : A -> M B) env w e w' :
  m env w = (Throw e, w') -> bind m k env w = (Throw e, w').
Proof. intros H. unfold bind. by rewrite H. Qed.

Lemma await_async {A : Type} (body : M A) env w :
  await (async body) env w = body env w.
Proof.
  unfold await, async, bind. by destruct (body env w) as [[a|e] w'].
Qed.

Lemma RateLimiter_wait_returns l env w :
  RateLimiter_wait l env w = (Ok (Fulfilled tt), waited l w).
Proof.
  unfold RateLimiter_wait, async, bind, Date_now, gets, modify, waited.
  cbn. by destruct (_ <? _).
Qed.

Lemma await_wait l env w :
  await (RateLimiter_wait l) env w = (Ok tt, waited l w).
Proof. unfold await, bind. by rewrite RateLimiter_wait_returns. Qed.

Lemma waited_cache l w : cache (waited l w) = cache w.
Proof. unfold waited. by destruct (_ <? _). Qed.

(** Called one after the other, with no other caller in between, two
    [wait()]s return at least [delay] apart, and [lastRequest] is the
    instant of the latest return. *)
Lemma wait_twice_spaced l w w' :
  now (waited l w) <= now w' ->
  limiters w' l = limiters (waited l w) l ->
  delay (limiters w l) <= now (waited l w') - now (waited l w)
  /\ lastRequest (limiters (waited l w') l) = now (waited l w').
Proof.
  intros Hclock Hlim.
  assert (Hlast : forall w0, limiters (waited l w0) l
                 = mkRateLimiter (delay (limiters w0 l)) (now (waited l w0))).
  { intros w0. unfold waited. cbn. by rewrite decide_True. }
  split.
  - rewrite Hlast in Hlim. revert Hclock Hlim.
    generalize (now (waited l w)) (delay (limiters w l)). intros T d Hclock Hlim.
    unfold waited. rewrite Hlim. cbn.
    destruct (Z.ltb_spec (now w' - T) d); cbn; lia.
  - by rewrite Hlast.
Qed.

(* ===================================================================== *)
(** * Properties of the SkillRack scraper and adapter                    *)
(* ===================================================================== *)

(** Past its two guards the scraper waits for its limiter, performs exactly
    one request, and resolves; it never touches the cache. *)
Lemma scrapeSkillRack_fetches username id key l env w :
  truthy username = true ->
  let run d :=
    exists m,
      scrapeSkillRack d l env w
      = (Ok (Fulfilled m),
         let w1 := waited l w in
         let url := profileUrl_of username id key in
         elapse (Z.of_N (latency (skillrack_resume env (trace w1) url)))
                (log (EvRequest (GetSkillrackResume url)) w1)) in
  (forall s, username = JsString s -> id = JsString s -> key = JsNull ->
             run (Bare (JsString s)))
  /\ run (Credential username id key).
Proof.
  intros Hu run.
  assert (Hrun : forall d,
             truthyId d = true ->
             (match d with
              | Bare (JsString s) => (JsString s, JsString s, JsNull)
              | _ => (prop_username d, prop_id d, prop_key d)
              end) = (username, id, key) ->
             run d).
  { intros d Hd Hfields. unfold run, scrapeSkillRack.
    rewrite Hd, Hfields. cbn [negb]. rewrite Hu. cbn [negb].
    unfold async at 1, bind at 1. rewrite await_wait.
    fold (profileUrl_of username id key).
    generalize (profileUrl_of username id key). intros url.
    unfold_monad.
    destruct (outcome (skillrack_resume env (trace (waited l w)) url))
      as [[| |html]|e]; try by eexists.
    destruct (_ || _); by eexists. }
  split.
  - intros s -> -> ->. apply Hrun; [done|reflexivity].
  - apply Hrun; reflexivity.
Qed.

Lemma scrapeSkillRack_resolves d l env w :
  exists m w',
    scrapeSkillRack d l env w = (Ok (Fulfilled m), w') /\ cache w' = cache w.
Proof.
  destruct (truthyId d) eqn:Hd.
  2:{ exists zeroSkillrack, w. unfold scrapeSkillRack. by rewrite Hd. }
  set (fields := match d with
                 | Bare (JsString s) => (JsString s, JsString s, JsNull)
                 | _ => (prop_username d, prop_id d, prop_key d)
                 end).
  destruct fields as [[username id] key] eqn:Hfields.
  destruct (truthy username) eqn:Hu.
  2:{ exists zeroSkillrack, w. unfold scrapeSkillRack.
      fold fields. rewrite Hd, Hfields. cbn [negb]. by rewrite Hu. }
  destruct (scrapeSkillRack_fetches username id key l env w Hu) as [Hs Hc].
  destruct d as [v|u i k].
  - destruct v as [| | | |s]; try (cbn in Hfields; inversion Hfields; by subst).
    cbn in Hfields. inversion Hfields; subst.
    destruct (Hs s eq_refl eq_refl eq_refl) as [m Hm].
    eexists _, _. split; [exact Hm|]. cbn. apply waited_cache.
  - cbn in Hfields. inversion Hfields; subst.
    destruct Hc as [m Hm].
    eexists _, _. split; [exact Hm|]. cbn. apply waited_cache.
Qed.

(** The adapter returns zero, leaving the world untouched, unless it is
    given an object with truthy [id] and [key]; then it is the scraper. *)
Lemma skillrack_adapter_cases d env w :
  match d with
  | Credential username id key =>
      if truthy id && truthy key
      then Adapters.skillrack d env w
           = async (await (scrapeSkillRack d skillrackLimiter)) env w
      else Adapters.skillrack d env w = (Ok (Fulfilled zeroSkillrack), w)
  | Bare _ => Adapters.skillrack d env w = (Ok (Fulfilled zeroSkillrack), w)
  end.
Proof.
  unfold Adapters.skillrack. destruct d as [v|username id key].
  - destruct v as [| |[]|n|s]; cbn; try done.
    + by destruct (n =? 0).
    + by destruct (String.eqb s "").
  - cbn. by destruct (truthy id), (truthy key).
Qed.

Lemma skillrack_adapter_resolves d env w :
  exists m w',
    Adapters.skillrack d env w = (Ok (Fulfilled m), w') /\ cache w' = cache w.
Proof.
  pose proof (skillrack_adapter_cases d env w) as H.
  destruct d as [v|username id key]; [by eexists _, _|].
  destruct (truthy id && truthy key); [|by eexists _, _].
  rewrite H.
  destruct (scrapeSkillRack_resolves (Credential username id key)
              skillrackLimiter env w) as (m & w' & Hm & Hc).
  exists m, w'. split; [|done].
  unfold async, await, bind. by rewrite Hm.
Qed.

(** C9. Given a bare string, or an object whose [id] or [key] is missing
    (or otherwise falsy), the skillrack adapter resolves to
    [{ solved: 0, userInfo: null }] and leaves the world as it was: nothing
    is appended to the trace (no request, no timer), no limiter and no cache
    entry changes. The scraper itself, handed a non-empty bare string, does
    perform a request, to the fallback URL built from that string. Only for
    an object with both [id] and [key] is the adapter the scraper. *)
Theorem skillrack_adapter_needs_id_and_key :
  forall (env : Env) (w : World),
    (forall s,
        Adapters.skillrack (Bare (JsString s)) env w
        = (Ok (Fulfilled (mkSkillrack 0 None)), w))
    /\ (forall username id key,
        truthy id = false \/ truthy key = false ->
        Adapters.skillrack (Credential username id key) env w
        = (Ok (Fulfilled (mkSkillrack 0 None)), w))
    /\ (forall s,
        s <> "" ->
        exists m w',
          scrapeSkillRack (Bare (JsString s)) skillrackLimiter env w
          = (Ok (Fulfilled m), w')
          /\ trace w'
             = (trace (waited skillrackLimiter w)
                ++ [EvRequest (GetSkillrackResume
                      ("https://www.skillrack.com/faces/resume.xhtml?id=" +:+ s))])%list)
    /\ (forall d,
        Adapters.skillrack d env w <> (Ok (Fulfilled (mkSkillrack 0 None)), w) ->
        exists username id key,
          d = Credential username id key
          /\ truthy id = true /\ truthy key = true
          /\ Adapters.skillrack d env w
             = async (await (scrapeSkillRack d skillrackLimiter)) env w).
Proof.
  intros env w. repeat split.
  - intros s. apply (skillrack_adapter_cases (Bare (JsString s))).
  - intros username id key Hmissing.
    pose proof (skillrack_adapter_cases (Credential username id key) env w) as H.
    cbv beta iota in H.
    destruct Hmissing as [Hm | Hm]; rewrite Hm in H;
      [|rewrite andb_false_r in H]; exact H.
  - intros s Hs.
    assert (Hu : truthy (JsString s) = true).
    { cbn. by destruct s. }
    destruct (scrapeSkillRack_fetches (JsString s) (JsString s) JsNull
                skillrackLimiter env w Hu) as [H _].
    destruct (H s eq_refl eq_refl eq_refl) as [m Hm].
    eexists _, _. split; [exact Hm|].
    unfold profileUrl_of. cbn. by rewrite andb_false_r.
  - intros d Hreach.
    pose proof (skillrack_adapter_cases d env w) as H.
    destruct d as [v|username id key]; [done|].
    destruct (truthy id) eqn:Hid, (truthy key) eqn:Hkey; cbn in H; try done.
    by exists username, id, key.
Qed.

(* ===================================================================== *)
(** * Properties of the adapters that go through the cache               *)
(* ===================================================================== *)

Section FetchFacts.

Context {V : Type}.
Implicit Types (fn : M (Settled V)) (env : Env) (w : World).

(** Partial correctness of the retry loop: [I] holds between attempts, a
    successful attempt establishes [Q], a failed one [R]. *)
Lemma retry_loop_post fn env (I : World -> Prop) (Q : V -> World -> Prop)
    (R : JsError -> World -> Prop) :
  (forall w, I w ->
     match await fn env w with
     | (Ok a, w') => Q a w'
     | (Throw e, w') => I w' /\ R e w'
     end) ->
  (forall ms w, I w -> I (snd (sleep ms env w))) ->
  forall attempts i remaining w,
    I w -> remaining <> O -> (i + remaining = attempts)%nat ->
    match retry_loop fn attempts i remaining env w with
    | (Ok (Some a), w') => Q a w'
    | (Ok None, _) => False
    | (Throw e, w') => R e w'
    end.
Proof.
  intros Hfn Hsleep attempts i remaining. revert i.
  induction remaining as [|r IH]; intros i w HI Hr Hsum; [done|].
  specialize (Hfn w HI).
  destruct (await fn env w) as [[a|e] w'] eqn:E.
  - by erewrite retry_loop_success by eassumption.
  - destruct Hfn as [HI' HR].
    destruct (decide (i = (attempts - 1)%nat)) as [Hi|Hi].
    + by erewrite retry_loop_last_failure by eassumption.
    + erewrite retry_loop_failure by eassumption.
      apply IH; [by apply Hsleep | lia | lia].
Qed.

Variables (slot : Slot V) (cacheKey : string) (limiter : Limiter) (zero : V).


Lemma fetch_hit fn username env w it :
  truthyId username = true ->
  entries slot (cache w) !! cacheKey = Some it ->
  now w - Cache.timestamp it < CONFIG.CACHE_DURATION ->
  fetch_through_cache slot cacheKey limiter zero fn username env w
  = (Ok (Fulfilled (Cache.data it)), w).
Proof.
  intros Hu Hit Hage. unfold fetch_through_cache. rewrite Hu. cbn [negb].
  unfold async, bind, cache_get, gets, Cache.get. rewrite Hit.
  destruct (Z.ltb_spec (now w - Cache.timestamp it) CONFIG.CACHE_DURATION);
    [reflexivity | lia].
Qed.

(** On a miss the adapter waits for its limiter and settles as the retried
    call does. *)
Lemma fetch_miss fn username env w (I : World -> Prop)
    (Q : V -> World -> Prop) (R : JsError -> World -> Prop) :
  truthyId username = true ->
  Cache.get (entries slot (cache w)) (now w) cacheKey = None ->
  (forall w, I w ->
     match await fn env w with
     | (Ok a, w') => Q a w'
     | (Throw e, w') => I w' /\ R e w'
     end) ->
  (forall ms w, I w -> I (snd (sleep ms env w))) ->
  I (waited limiter w) ->
  match fetch_through_cache slot cacheKey limiter zero fn username env w with
  | (Ok (Fulfilled v), w') => Q v w'
  | (Ok (Rejected e), w') => R e w'
  | (Throw _, _) => False
  end.
Proof.
  intros Hu Hmiss Hfn Hsleep HI. unfold fetch_through_cache.
  rewrite Hu. cbn [negb].
  unfold async, bind at 1, cache_get, gets. rewrite Hmiss.
  unfold bind at 1. rewrite await_wait.
  pose proof (retry_loop_post fn env I Q R Hfn Hsleep CONFIG.RETRY_ATTEMPTS 0
                CONFIG.RETRY_ATTEMPTS (waited limiter w) HI) as Hloop.
  unfold defined, bind, retryRequest.
  destruct (retry_loop fn CONFIG.RETRY_ATTEMPTS 0 CONFIG.RETRY_ATTEMPTS env
              (waited limiter w)) as [[[a|]|e] w'];
    cbn; [by apply Hloop | | by apply Hloop].
  by destruct Hloop.
Qed.


End FetchFacts.

(** What one attempt of each adapter does, by the answer of its service. *)





Lemma sleep_cache ms env w : cache (snd (sleep ms env w)) = cache w.
Proof. reflexivity. Qed.

Lemma follows_same_cache {V : Type} (slot : Slot V) key zero
    (reading : Reading V) w0 w v w' :
  cache w0 = cache w ->
  follows slot key zero reading w0 v w' -> follows slot key zero reading w v w'.
Proof.
  intros Hc. destruct reading as [metrics| |]; cbn; [done| |done].
  intros [-> Hw']. split; [done|congruence].
Qed.

Lemma fetch_first_attempt {V : Type} (slot : Slot V) key limiter zero
    (fn : M (Settled V)) username env w v w' :
  truthyId username = true ->
  Cache.get (entries slot (cache w)) (now w) key = None ->
  await fn env (waited limiter w) = (Ok v, w') ->
  fetch_through_cache slot key limiter zero fn username env w
  = (Ok (Fulfilled v), w').
Proof.
  intros Hu Hmiss Hattempt. unfold fetch_through_cache. rewrite Hu. cbn [negb].
  unfold async, bind at 1, cache_get, gets. rewrite Hmiss.
  unfold bind at 1. rewrite await_wait.
  unfold defined, bind, retryRequest, CONFIG.RETRY_ATTEMPTS.
  by rewrite (retry_loop_success _ 3 0 2 env _ v w' Hattempt).
Qed.

Lemma cache_protocol_of_fetch {V B : Type} (adapter : Identity -> M (Settled V))
    (slot : Slot V) (prefix : string) (limiter : Limiter) (zero : V)
    (fn : Identity -> string -> M (Settled V))
    (service : Env -> list Event -> Identity -> Reply B)
    (reading : B -> Reading V) :
  (forall username,
      adapter username
      = fetch_through_cache slot (prefix +:+ toStringId username) limiter zero
          (fn username (prefix +:+ toStringId username)) username) ->
  attempt_follows slot zero fn service reading ->
  cache_protocol adapter slot prefix limiter zero service reading.
Proof.
  intros Hshape Hfn username env w Hu key. rewrite Hshape. fold key. split.
  - intros it Hit Hage. by apply fetch_hit.
  - intros Hmiss. split.
    + intros v w' Hrun.
      pose proof (fetch_miss slot key limiter zero (fn username key) username env w
                    (fun w0 => cache w0 = cache w)
                    (fun v w' =>
                       exists h response,
                         outcome (service env h username) = Ok response
                         /\ follows slot key zero (reading response) w v w')
                    (fun _ _ => True) Hu Hmiss) as H.
      rewrite Hrun in H. apply H.
      * intros w0 Hw0. specialize (Hfn username key env w0).
        destruct (outcome (service env (trace w0) username))
          as [response|e0] eqn:Hanswer.
        -- destruct (reading response) as [metrics| |] eqn:Hreading.
           ++ destruct Hfn as (v1 & w1 & -> & Hfollows).
              exists (trace w0), response. split; [done|].
              rewrite Hreading. by apply (follows_same_cache _ _ _ _ w0).
           ++ destruct Hfn as (v1 & w1 & -> & Hfollows).
              exists (trace w0), response. split; [done|].
              rewrite Hreading. by apply (follows_same_cache _ _ _ _ w0).
           ++ destruct Hfn as (e1 & w1 & -> & Hc). split; [congruence|done].
        -- destruct Hfn as (e1 & w1 & -> & Hc). split; [congruence|done].
      * intros ms w0 Hw0. by rewrite sleep_cache.
      * apply waited_cache.
    + intros response Hanswer Hreading.
      specialize (Hfn username key env (waited limiter w)).
      rewrite Hanswer in Hfn.
      assert (Hattempt : exists v w',
                 await (fn username key) env (waited limiter w) = (Ok v, w')
                 /\ follows slot key zero (reading response)
                            (waited limiter w) v w')
        by (by destruct (reading response)).
      destruct Hattempt as (v & w' & Hattempt & Hfollows).
      exists v, w'. split.
      * by apply fetch_first_attempt.
      * apply (follows_same_cache _ _ _ _ (waited limiter w)); [|done].
        apply waited_cache.
Qed.

Lemma leetcode_attempt_follows :
  attempt_follows leetcode_slot zeroLeetcode Adapters.leetcode_fn
                  leetcode_graphql leetcode_reading.
Proof.
  intros username key env w.
  unfold Adapters.leetcode_fn. rewrite await_async. unfold bind, http.
  destruct (outcome _) as [[|items|]|e]; cbn.
  - by eexists _, _.
  - eexists _, _. split; [reflexivity|]. split; [reflexivity|].
    unfold stored. cbn. apply lookup_insert_eq.
  - by eexists _, _.
  - by eexists _, _.
Qed.

Lemma github_attempt_follows :
  attempt_follows github_slot zeroGithub Adapters.github_fn
                  github_users github_reading.
Proof.
  intros username key env w.
  destruct (outcome (github_users env (trace w) username))
    as [public_repos|e] eqn:Hanswer; cbn [github_reading];
    unfold Adapters.github_fn; rewrite await_async;
    unfold try_catch at 1, bind at 1, http at 1; rewrite Hanswer.
  - unfold bind at 1, try_catch, bind at 1. rewrite await_wait.
    unfold bind, http.
    destruct (outcome (github_search env _ username)) as [total_count|e]; cbn;
      (eexists _, _; split; [reflexivity|]; split; [reflexivity|];
       unfold stored; cbn; apply lookup_insert_eq).
  - by eexists _, _.
Qed.

Lemma codeforces_attempt_follows :
  attempt_follows codeforces_slot zeroSolved Adapters.codeforces_fn
                  codeforces_status codeforces_reading.
Proof.
  intros username key env w.
  unfold Adapters.codeforces_fn, codeforces_reading. rewrite await_async.
  unfold bind, http.
  destruct (outcome _) as [response|e]; cbn; [|by eexists _, _].
  destruct (isOK (status response)); cbn; [|by eexists _, _].
  destruct (result response) as [submissions|]; cbn; [|by eexists _, _].
  eexists _, _. split; [reflexivity|]. split; [reflexivity|].
  unfold stored. cbn. apply lookup_insert_eq.
Qed.

Lemma atcoder_attempt_follows :
  attempt_follows atcoder_slot zeroSolved Adapters.atcoder_fn
                  atcoder_ac_rank atcoder_reading.
Proof.
  intros username key env w.
  unfold Adapters.atcoder_fn. rewrite await_async. unfold bind, http.
  destruct (outcome _) as [count|e]; cbn; [|by eexists _, _].
  eexists _, _. split; [reflexivity|]. split; [reflexivity|].
  unfold stored. cbn. apply lookup_insert_eq.
Qed.


(** C4, as the code has it. The leetcode, github, codeforces and atcoder
    adapters follow the cache protocol under the key made of the platform
    prefix and the identity. An entry younger than 24h is returned at once,
    with no wait and no remote call, so a second fetch within the TTL of a
    stored result is answered from the cache. On a miss, what a fetch does
    is decided by the response it reads: from a response that holds data it
    builds the normalized metrics, writes them into the cache and returns
    them; from a leetcode response without submission data and from a
    codeforces response with a status other than OK it returns the zero
    metrics and writes nothing. This holds of every fetch that resolves, and
    a fetch whose first attempt is answered does resolve in this way. The
    skillrack adapter never reads or writes the cache: given username, id and
    key it performs a remote call at every fetch. *)
Theorem api_adapters_follow_cache_protocol :
  cache_protocol Adapters.leetcode leetcode_slot "leetcode_" leetcodeLimiter
                 zeroLeetcode leetcode_graphql leetcode_reading
  /\ cache_protocol Adapters.github github_slot "github_" githubUserLimiter
                    zeroGithub github_users github_reading
  /\ cache_protocol Adapters.codeforces codeforces_slot "codeforces_"
                    codeforcesLimiter zeroSolved codeforces_status
                    codeforces_reading
  /\ cache_protocol Adapters.atcoder atcoder_slot "atcoder_" rateLimiter
                    zeroSolved atcoder_ac_rank atcoder_reading
  /\ (forall d env w, cache (snd (Adapters.skillrack d env w)) = cache w)
  /\ (forall username id key env w,
        truthy username = true -> truthy id = true -> truthy key = true ->
        exists m w' url,
          Adapters.skillrack (Credential username id key) env w
          = (Ok (Fulfilled m), w')
          /\ trace w'
             = (trace (waited skillrackLimiter w)
                ++ [EvRequest (GetSkillrackResume url)])%list
          /\ (prints_in_full id -> prints_in_full key ->
              url = profileUrl_of username id key)).
Proof.
  repeat apply conj.
  - apply (cache_protocol_of_fetch _ _ _ _ _ Adapters.leetcode_fn);
      [reflexivity|apply leetcode_attempt_follows].
  - apply (cache_protocol_of_fetch _ _ _ _ _ Adapters.github_fn);
      [reflexivity|apply github_attempt_follows].
  - apply (cache_protocol_of_fetch _ _ _ _ _ Adapters.codeforces_fn);
      [reflexivity|apply codeforces_attempt_follows].
  - apply (cache_protocol_of_fetch _ _ _ _ _ Adapters.atcoder_fn);
      [reflexivity|apply atcoder_attempt_follows].
  - intros d env w.
    destruct (skillrack_adapter_resolves d env w) as (m & w' & -> & Hc). exact Hc.
  - intros username id key env w Hu Hid Hkey.
    pose proof (skillrack_adapter_cases (Credential username id key) env w) as H.
    cbv beta iota in H. rewrite Hid, Hkey in H. cbn [andb] in H. rewrite H.
    destruct (scrapeSkillRack_fetches username id key skillrackLimiter env w Hu)
      as [_ [m Hm]].
    eexists m, _, (profileUrl_of username id key). split; [|split].
    + unfold async, await, bind. rewrite Hm. reflexivity.
    + reflexivity.
    + done.
Qed.

(** C4 fails as stated: fetched twice in a row for the same identity, the
    skillrack adapter resolves twice to the same metrics, performs the remote
    call twice, and leaves the cache empty. *)
Lemma skillrack_second_fetch_calls_again :
  let '(first, w1) := Adapters.skillrack alice_skillrack skillrack_online start in
  let '(second, w2) := Adapters.skillrack alice_skillrack skillrack_online w1 in
  let url := "https://www.skillrack.com/faces/resume.xhtml?id=4242&key=k3y" in
  first = Ok (Fulfilled (mkSkillrack 120 (Some (mkUserInfo (JsString "ALICE") true))))
  /\ second = first
  /\ now w2 - now start < CONFIG.CACHE_DURATION
  /\ requests (trace w1) = [GetSkillrackResume url]
  /\ requests (trace w2) = [GetSkillrackResume url; GetSkillrackResume url]
  /\ cache w2 = empty_cache.
Proof. vm_compute. repeat split; congruence. Qed.





(* ===================================================================== *)
(** * Properties of generateSummary                                      *)
(* ===================================================================== *)

(** The reduction that finds the top solver keeps a record of the list
    whose leetcode total is at least every total seen. *)
Lemma fold_higher_spec rest x :
  let top := fold_left higher rest x in
  total (leetcode (data x)) <= total (leetcode (data top))
  /\ (forall y, In y rest ->
        total (leetcode (data y)) <= total (leetcode (data top)))
  /\ In top (x :: rest).
Proof.
  revert x. induction rest as [|r rest IH]; intros x; cbn.
  - split; [lia|]. split; [done|]. by left.
  - destruct (IH (higher x r)) as (Hx & Hrest & Hin).
    assert (Hhigher : total (leetcode (data x)) <= total (leetcode (data (higher x r)))
                      /\ total (leetcode (data r)) <= total (leetcode (data (higher x r)))
                      /\ (higher x r = x \/ higher x r = r)).
    { unfold higher.
      destruct (Z.ltb_spec (total (leetcode (data x))) (total (leetcode (data r))));
        repeat split; auto; lia. }
    destruct Hhigher as (H1 & H2 & H3).
    split; [lia|]. split.
    + intros y [<-|Hy]; [lia | by apply Hrest].
    + destruct Hin as [Heq|Hin]; [|by right; right].
      rewrite <- Heq. destruct H3 as [->| ->]; [by left | by right; left].
Qed.

Lemma has_error_message r : has_error r = carries_error_message r.
Proof.
  unfold has_error, carries_error_message.
  by destruct (error r) as [[|a msg]|].
Qed.

(** C10, as the code has it. [generateSummary] throws on the empty list.
    On a non-empty list it returns a summary in which each average is the
    platform total (or the total processing time) divided by the length of
    the list, the error count is the number of records whose [error] is a
    non-empty message, and the top LeetCode solver is a record of the list
    whose leetcode total is at least that of every record. *)
Theorem generateSummary_on_results :
  (forall env w, exists e, generateSummary [] env w = (Throw e, w))
  /\ forall r rest env w,
      let results := r :: rest in
      let n := Z.of_nat (length results) in
      exists s,
        generateSummary results env w = (Ok s, w)
        /\ totalStudents s = length results
        /\ lc_avgProblems (p_leetcode (platforms s))
           = mkQuotient (lc_totalProblems (p_leetcode (platforms s))) n
        /\ avgRepos (p_github (platforms s))
           = mkQuotient (totalRepos (p_github (platforms s))) n
        /\ avgMergedPRs (p_github (platforms s))
           = mkQuotient (totalMergedPRs (p_github (platforms s))) n
        /\ avgProblems (p_codeforces (platforms s))
           = mkQuotient (totalProblems (p_codeforces (platforms s))) n
        /\ avgProblems (p_atcoder (platforms s))
           = mkQuotient (totalProblems (p_atcoder (platforms s))) n
        /\ avgProcessingTime (performance s)
           = mkQuotient (sum_of processingTime results) n
        /\ errors (performance s)
           = length (List.filter (fun x => carries_error_message x) results)
        /\ (forall x, In x results ->
              total (leetcode (data x))
              <= problems (topSolver (p_leetcode (platforms s))))
        /\ exists top,
            In top results
            /\ topSolver (p_leetcode (platforms s))
               = mkTopSolver (r_name top) (total (leetcode (data top))).
Proof.
  split.
  - intros env w. eexists. by cbv.
  - intros r rest env w results n.
    eexists. split; [by cbv [generateSummary bind Date_now gets reduce1 ret]|].
    cbn -[List.filter Z.of_nat length].
    destruct (fold_higher_spec rest r) as (Hr & Hrest & Hin).
    repeat split.
    + f_equal. apply filter_ext. intros x. apply has_error_message.
    + intros x [<-|Hx]; [done | by apply Hrest].
    + by eexists.
Qed.

(** C10 fails as stated: a record whose [error] is the empty message carries
    an error field, yet the summary of the list made of it counts 0
    errors. *)
Lemma empty_error_message_is_not_counted :
  exists s,
    generateSummary [silent_failure] offline start = (Ok s, start)
    /\ error silent_failure = Some ""
    /\ length (List.filter (fun r => carries_error_field r) [silent_failure]) = 1%nat
    /\ errors (performance s) = 0%nat.
Proof. eexists. split; [by cbv|]. by cbv. Qed.

(** With an empty cohort the run ends through [process.exit(1)]: the batch
    loop does nothing and [generateSummary] throws on the empty list. *)
Lemma runScraper_empty_cohort (Adapters : AdapterTable) env w :
  students_mock env = Ok [] ->
  exists w', runScraper Adapters env w = (Ok (Exit 1), w').
Proof.
  intros Hfile.
  assert (Hloop : runScraper_loop Adapters [] 0 [] env w = (Ok [], w))
    by (by rewrite runScraper_loop_equation_1).
  unfold runScraper, try_catch, bind at 1. rewrite Hfile.
  unfold bind at 1. rewrite Hloop.
  unfold saveCache, try_catch, bind, gets, writeJson.
  destruct (disk env (trace w)); cbn; by eexists.
Qed.

(* ===================================================================== *)
(** * Properties of the rate limiter under concurrent callers            *)
(* ===================================================================== *)

(** Whatever the interleaving, [lastRequest] never decreases and never runs
    ahead of the clock, and [delay] is fixed. *)
Lemma Concurrent_step_monotone a s s' :
  Concurrent.step a s = Some s' ->
  lastRequest (Concurrent.limiter s) <= Concurrent.clock s ->
  lastRequest (Concurrent.limiter s) <= lastRequest (Concurrent.limiter s')
  /\ lastRequest (Concurrent.limiter s') <= Concurrent.clock s'
  /\ delay (Concurrent.limiter s') = delay (Concurrent.limiter s).
Proof.
  intros Hstep Hinv. destruct a as [c|c|ms]; cbn in Hstep.
  - destruct (Concurrent.callers s !! c) as [[| |]|]; try discriminate.
    destruct (_ <? _); inversion Hstep; subst; cbn; lia.
  - destruct (Concurrent.callers s !! c) as [[|due|]|]; try discriminate.
    destruct (due <=? _); inversion Hstep; subst; cbn; lia.
  - inversion Hstep; subst; cbn. lia.
Qed.

Lemma Concurrent_run_monotone schedule s s' :
  Concurrent.run schedule s = Some s' ->
  lastRequest (Concurrent.limiter s) <= Concurrent.clock s ->
  lastRequest (Concurrent.limiter s) <= lastRequest (Concurrent.limiter s')
  /\ lastRequest (Concurrent.limiter s') <= Concurrent.clock s'.
Proof.
  revert s. induction schedule as [|a rest IH]; intros s Hrun Hinv; cbn in Hrun.
  - inversion Hrun; subst. lia.
  - destruct (Concurrent.step a s) as [s1|] eqn:Hstep; [|discriminate].
    destruct (Concurrent_step_monotone a s s1 Hstep Hinv) as (H1 & H2 & _).
    destruct (IH s1 Hrun H2) as (H3 & H4). lia.
Qed.

(** Any two callers that enter [wait()] while the window is closed read the
    same [lastRequest], are due at the same instant and, when their timers
    fire then, complete together. *)
Lemma Concurrent_overlapping_callers s c1 c2 :
  c1 <> c2 ->
  Concurrent.callers s !! c1 = Some Concurrent.NotCalled ->
  Concurrent.callers s !! c2 = Some Concurrent.NotCalled ->
  let remaining :=
    delay (Concurrent.limiter s)
    - (Concurrent.clock s - lastRequest (Concurrent.limiter s)) in
  0 < remaining ->
  exists s',
    Concurrent.run [Concurrent.Call c1; Concurrent.Call c2;
                    Concurrent.Tick (Z.to_N remaining);
                    Concurrent.Fire c1; Concurrent.Fire c2] s = Some s'
    /\ Concurrent.completions s'
       = (Concurrent.completions s
          ++ [Concurrent.clock s + remaining; Concurrent.clock s + remaining])%list.
Proof.
  intros Hne H1 H2 remaining Hremaining.
  pose proof (lookup_lt_Some _ _ _ H1) as Hlt1.
  pose proof (lookup_lt_Some _ _ _ H2) as Hlt2.
  assert (Hclosed : (Concurrent.clock s - lastRequest (Concurrent.limiter s)
                     <? delay (Concurrent.limiter s)) = true)
    by (apply Z.ltb_lt; unfold remaining in Hremaining; lia).
  eexists. split.
  - cbn [Concurrent.run Concurrent.step]. rewrite H1, Hclosed.
    cbn [Concurrent.callers Concurrent.clock Concurrent.limiter
         Concurrent.completions].
    rewrite list_lookup_insert_ne, H2, Hclosed by done.
    cbn [Concurrent.callers Concurrent.clock Concurrent.limiter
         Concurrent.completions].
    rewrite list_lookup_insert_ne by done.
    rewrite list_lookup_insert_eq by done.
    fold remaining. rewrite Z2N.id by lia.
    rewrite (proj2 (Z.leb_le _ _)) by lia.
    cbn [Concurrent.complete Concurrent.callers Concurrent.clock
         Concurrent.limiter Concurrent.completions].
    rewrite list_lookup_insert_ne by done.
    rewrite list_lookup_insert_eq by (by rewrite length_insert).
    rewrite (proj2 (Z.leb_le _ _)) by lia.
    reflexivity.
  - cbn. by rewrite <- app_assoc.
Qed.

(** Alone, a caller in this model returns when and as [RateLimiter_wait]
    does. *)
Lemma Concurrent_alone_agrees l w :
  let s := Concurrent.mkState (now w) (limiters w l) [Concurrent.NotCalled] [] in
  let remaining := delay (limiters w l) - (now w - lastRequest (limiters w l)) in
  exists s',
    Concurrent.run (if 0 <? remaining
                    then [Concurrent.Call 0%nat;
                          Concurrent.Tick (Z.to_N remaining);
                          Concurrent.Fire 0%nat]
                    else [Concurrent.Call 0%nat]) s = Some s'
    /\ Concurrent.clock s' = now (waited l w)
    /\ Concurrent.limiter s' = limiters (waited l w) l
    /\ Concurrent.completions s' = [now (waited l w)].
Proof.
  intros s remaining. unfold waited. fold remaining.
  destruct (Z.ltb_spec 0 remaining) as [Hclosed|Hopen].
  - assert (Hlt : (now w - lastRequest (limiters w l) <? delay (limiters w l))
                  = true)
      by (apply Z.ltb_lt; unfold remaining in Hclosed; lia).
    rewrite Hlt. eexists. split.
    + cbn. rewrite Hlt. cbn. fold remaining. rewrite Z2N.id by lia.
      rewrite (proj2 (Z.leb_le _ _)) by lia. reflexivity.
    + cbn. rewrite decide_True by done. rewrite Z.max_r by lia. done.
  - assert (Hge : (now w - lastRequest (limiters w l) <? delay (limiters w l))
                  = false)
      by (apply Z.ltb_ge; unfold remaining in Hopen; lia).
    rewrite Hge. eexists. split.
    + cbn. rewrite Hge. reflexivity.
    + cbn. by rewrite decide_True.
Qed.

(** C7, at the failing input. Three students of one chunk call
    [leetcodeLimiter.wait()] (500ms) in the same turn. The first finds the
    window open and returns at once; the second and the third each read
    [lastRequest] before the other has written it, sleep the same 500ms and
    return at the same instant: two consecutive completions 0ms apart. *)
Theorem wait_concurrent_callers_return_together :
  exists s,
    Concurrent.run Concurrent.same_turn Concurrent.chunk_of_three = Some s
    /\ Concurrent.callers s
       = [Concurrent.Returned 1700000000000; Concurrent.Returned 1700000000500;
          Concurrent.Returned 1700000000500]
    /\ Concurrent.completions s
       = [1700000000000; 1700000000500; 1700000000500]
    /\ Concurrent.spaced 500 (Concurrent.completions s) = false
    /\ lastRequest (Concurrent.limiter s) = 1700000000500.
Proof. eexists. split; [by vm_compute|]. by vm_compute. Qed.

(* ===================================================================== *)
(** * The properties on sample inputs                                    *)
(* ===================================================================== *)

(** C1 on a cohort of two, with every platform unreachable. *)
Lemma one_result_per_student_in_order_witness :
  (forall h, disk offline h = Ok tt)
  /\ exists allResults w',
      runScraper_loop exported_Adapters [alice; bob] 0 [] offline start
      = (Ok allResults, w')
      /\ length allResults = length [alice; bob]
      /\ Forall2 record_of [alice; bob] allResults
      /\ ([alice; bob] <> [] ->
          exists tr, trace w' = (tr ++ [EvWrite "results.json"
                                         (ResultsJson allResults)])%list).
Proof.
  split; [reflexivity|].
  apply (one_result_per_student_in_order exported_Adapters [alice; bob]
           offline start).
  reflexivity.
Defined.

(** C6 on the leetcode call, with leetcode unreachable. *)
Lemma retryRequest_three_attempts_witness :
  let r := PostLeetcodeGraphql (Bare (JsString "alice")) in
  let service := fun e h => leetcode_graphql e h (Bare (JsString "alice")) in
  (forall h, exists e, outcome (service offline h) = Throw e)
  /\ exists e3 w3,
      retryRequest (async (http r service)) 3 offline start = (Throw e3, w3)
      /\ trace w3 = (trace start ++ [EvRequest r; EvTimeout 2000; EvRequest r;
                                     EvTimeout 4000; EvRequest r])%list
      /\ outcome (service offline
                    (trace start ++ [EvRequest r; EvTimeout 2000; EvRequest r;
                                     EvTimeout 4000])%list) = Throw e3.
Proof.
  intros r service.
  assert (Hfails : forall h, exists e, outcome (service offline h) = Throw e)
    by (intros h; exists ETIMEDOUT; reflexivity).
  split; [exact Hfails|].
  exact (proj2 (proj2 (proj2 (proj2
           (retryRequest_three_attempts _ (async (http r service)) offline start))))
           r service Hfails eq_refl).
Defined.

(** C8 on an [Adapters] object whose leetcode entry throws when called. *)
Lemma processStudent_absorbs_join_failure_witness :
  join stubbed_Adapters alice offline start = (Throw (mkError "boom"), start)
  /\ exists r,
      processStudent stubbed_Adapters alice offline start
      = (Ok (Fulfilled r), start)
      /\ r_id r = id alice /\ r_name r = name alice
      /\ r_handles r = handles alice
      /\ leetcode (data r) = mkLeetcode 0 0 0 0
      /\ github (data r) = mkGithub 0 0
      /\ codeforces (data r) = mkSolved 0
      /\ atcoder (data r) = mkSolved 0
      /\ skillrack (data r) = mkSkillrack 0 None
      /\ totalCP (data r) = 0
      /\ error r = Some "boom".
Proof.
  split; [reflexivity|].
  exact (proj2 (processStudent_absorbs_join_failure stubbed_Adapters alice
                  offline start) (mkError "boom") start eq_refl).
Defined.

(** C9 on an object without [id]. *)
Lemma skillrack_adapter_needs_id_and_key_witness :
  (truthy JsUndefined = false \/ truthy (JsString "k3y") = false)
  /\ Adapters.skillrack (Credential (JsString "alice") JsUndefined (JsString "k3y"))
                        skillrack_online start
     = (Ok (Fulfilled (mkSkillrack 0 None)), start).
Proof.
  split; [left; reflexivity|].
  exact (proj1 (proj2 (skillrack_adapter_needs_id_and_key skillrack_online start))
           (JsString "alice") JsUndefined (JsString "k3y")
           (or_introl eq_refl)).
Defined.


(** C4 on alice: with her leetcode metrics cached 1000s earlier the adapter
    answers from the cache, whatever the network; at the start of the
    process, with nothing cached and leetcode answering, it builds her
    metrics from the response and writes them. *)
Lemma api_adapters_follow_cache_protocol_witness :
  let it := Cache.mkItem (mkLeetcode 120 80 30 10) 1699999000000 in
  let username := Bare (JsString "alice") in
  let response := AcArray [mkAcItem "All" 120; mkAcItem "Easy" 80;
                           mkAcItem "Medium" 30; mkAcItem "Hard" 10] in
  truthyId username = true
  /\ entries leetcode_slot (cache warm)
       !! ("leetcode_" +:+ toStringId username) = Some it
  /\ now warm - Cache.timestamp it < CONFIG.CACHE_DURATION
  /\ Adapters.leetcode username offline warm
     = (Ok (Fulfilled (mkLeetcode 120 80 30 10)), warm)
  /\ Cache.get (entries leetcode_slot (cache start)) (now start)
               ("leetcode_" +:+ toStringId username) = None
  /\ outcome (leetcode_graphql classroom (trace (waited leetcodeLimiter start))
                               username) = Ok response
  /\ leetcode_reading response <> Malformed
  /\ exists v w',
      Adapters.leetcode username classroom start = (Ok (Fulfilled v), w')
      /\ follows leetcode_slot ("leetcode_" +:+ toStringId username) zeroLeetcode
                 (leetcode_reading response) start v w'.
Proof.
  intros it username response.
  assert (Hit : entries leetcode_slot (cache warm)
                  !! ("leetcode_" +:+ toStringId username)
                = Some it) by (by vm_compute).
  assert (Hage : now warm - Cache.timestamp it < CONFIG.CACHE_DURATION)
    by (by vm_compute).
  assert (Hmiss : Cache.get (entries leetcode_slot (cache start)) (now start)
                            ("leetcode_" +:+ toStringId username) = None)
    by reflexivity.
  assert (Hanswer : outcome (leetcode_graphql classroom
                               (trace (waited leetcodeLimiter start)) username)
                    = Ok response) by reflexivity.
  assert (Hreading : leetcode_reading response <> Malformed) by discriminate.
  split; [reflexivity|]. split; [exact Hit|]. split; [exact Hage|].
  split.
  { exact (proj1 (proj1 api_adapters_follow_cache_protocol
                    username offline warm eq_refl)
             it Hit Hage). }
  split; [exact Hmiss|]. split; [exact Hanswer|]. split; [exact Hreading|].
  exact (proj2 (proj2 (proj1 api_adapters_follow_cache_protocol
                         username classroom start eq_refl) Hmiss)
           response Hanswer Hreading).
Defined.

(* ===================================================================== *)
(** * What a run keeps                                                   *)
(* ===================================================================== *)

(** Relations kept by the operations of the monad. *)
Section Frame.

Variable R : World -> World -> Prop.
Context `{!PreOrder R}.

Lemma keeps_ret {A : Type} (a : A) : keeps R (ret a).
Proof. intros env w. cbn. reflexivity. Qed.

Lemma keeps_throw {A : Type} (e : JsError) : keeps R (@throw A e).
Proof. intros env w. cbn. reflexivity. Qed.

Lemma keeps_gets {A : Type} (f : World -> A) : keeps R (gets f).
Proof. intros env w. cbn. reflexivity. Qed.

Lemma keeps_bind {A B : Type} (m : M A) (k : A -> M B) :
  keeps R m -> (forall a, keeps R (k a)) -> keeps R (bind m k).
Proof.
  intros Hm Hk env w. specialize (Hm env w). unfold bind.
  destruct (m env w) as [[a|e] w1]; cbn in *; [|done].
  etrans; [exact Hm|]. apply Hk.
Qed.

Lemma keeps_try_catch {A : Type} (body : M A) (handler : JsError -> M A) :
  keeps R body -> (forall e, keeps R (handler e)) ->
  keeps R (try_catch body handler).
Proof.
  intros Hm Hk env w. specialize (Hm env w). unfold try_catch.
  destruct (body env w) as [[a|e] w1]; cbn in *; [done|].
  etrans; [exact Hm|]. apply Hk.
Qed.

Lemma keeps_async {A : Type} (body : M A) : keeps R body -> keeps R (async body).
Proof.
  intros Hm env w. specialize (Hm env w). unfold async.
  by destruct (body env w) as [[a|e] w1].
Qed.

Lemma keeps_await {A : Type} (p : M (Settled A)) : keeps R p -> keeps R (await p).
Proof.
  intros Hp. apply keeps_bind; [done|].
  intros [a|e]; [apply keeps_ret | apply keeps_throw].
Qed.

Lemma keeps_defined {A : Type} (m : M (option A)) :
  keeps R m -> keeps R (defined m).
Proof.
  intros Hm. apply keeps_bind; [done|].
  intros [a|]; [apply keeps_ret | apply keeps_throw].
Qed.

Lemma keeps_mapM {A B : Type} (f : A -> M B) (l : list A) :
  (forall x, keeps R (f x)) -> keeps R (mapM f l).
Proof.
  intros Hf. induction l as [|x rest IH]; cbn [mapM]; [apply keeps_ret|].
  apply keeps_bind; [apply Hf|]. intros y.
  apply keeps_bind; [apply IH|]. intros ys. apply keeps_ret.
Qed.

Hypothesis R_sleep : forall ms, keeps R (sleep ms).

Lemma keeps_retry_loop {A : Type} (fn : M (Settled A)) attempts i remaining :
  keeps R fn -> keeps R (retry_loop fn attempts i remaining).
Proof.
  intros Hfn. revert i. induction remaining as [|r IH]; intros i; cbn [retry_loop].
  - apply keeps_ret.
  - apply keeps_try_catch.
    + apply keeps_bind; [by apply keeps_await|]. intros a. apply keeps_ret.
    + intros e. destruct (_ =? _)%nat; [apply keeps_throw|].
      apply keeps_bind; [apply R_sleep|]. intros _. apply IH.
Qed.

Hypothesis R_http :
  forall (B : Type) r (service : Env -> list Event -> Reply B),
    keeps R (http r service).
Hypothesis R_wait : forall l, keeps R (RateLimiter_wait l).
Hypothesis R_set_leetcode : forall key d, keeps R (cache_set leetcode_slot key d).
Hypothesis R_set_github : forall key d, keeps R (cache_set github_slot key d).
Hypothesis R_set_codeforces :
  forall key d, keeps R (cache_set codeforces_slot key d).
Hypothesis R_set_atcoder : forall key d, keeps R (cache_set atcoder_slot key d).

Ltac keeps_step :=
  first
    [ apply keeps_ret | apply keeps_throw | apply keeps_gets
    | apply R_sleep | apply R_http | apply R_wait
    | apply R_set_leetcode | apply R_set_github | apply R_set_codeforces
    | apply R_set_atcoder
    | apply keeps_async | apply keeps_await | apply keeps_defined
    | apply keeps_retry_loop
    | apply keeps_try_catch | apply keeps_bind
    | match goal with
      | |- keeps _ (if ?c then _ else _) => destruct c
      | |- keeps _ (match ?x with _ => _ end) => destruct x
      | |- keeps _ (let '(_, _) := ?x in _) => destruct x
      | |- forall _, _ => intro
      end ].

Lemma keeps_scrapeSkillRack d l : keeps R (scrapeSkillRack d l).
Proof. unfold scrapeSkillRack. repeat keeps_step. Qed.

Lemma keeps_leetcode u : keeps R (Adapters.leetcode u).
Proof.
  unfold Adapters.leetcode, Adapters.leetcode_fn, retryRequest, cache_get.
  repeat keeps_step.
Qed.

Lemma keeps_github u : keeps R (Adapters.github u).
Proof.
  unfold Adapters.github, Adapters.github_fn, retryRequest, cache_get.
  repeat keeps_step.
Qed.

Lemma keeps_codeforces u : keeps R (Adapters.codeforces u).
Proof.
  unfold Adapters.codeforces, Adapters.codeforces_fn, retryRequest, cache_get.
  repeat keeps_step.
Qed.

Lemma keeps_atcoder u : keeps R (Adapters.atcoder u).
Proof.
  unfold Adapters.atcoder, Adapters.atcoder_fn, retryRequest, cache_get.
  repeat keeps_step.
Qed.

Lemma keeps_skillrack d : keeps R (Adapters.skillrack d).
Proof.
  unfold Adapters.skillrack.
  repeat first [apply keeps_scrapeSkillRack | keeps_step].
Qed.

Lemma keeps_processStudent student :
  keeps R (processStudent exported_Adapters student).
Proof.
  unfold processStudent, join, exported_Adapters, Date_now.
  cbn [call_leetcode call_github call_codeforces call_atcoder call_skillrack].
  repeat first [ apply keeps_leetcode | apply keeps_github
               | apply keeps_codeforces | apply keeps_atcoder
               | apply keeps_skillrack | keeps_step ].
Qed.

Lemma keeps_processBatch_loop students i results :
  keeps R (processBatch_loop exported_Adapters students i results).
Proof.
  intros env w.
  apply (processBatch_loop_elim exported_Adapters
           (fun students i results env w out => R w (snd out)));
    clear students i results env w.
  - intros students i Hi results env w IH _. cbv zeta.
    pose proof (keeps_bind
                  (mapM (processStudent exported_Adapters)
                        (slice students i (i + CONFIG.CONCURRENCY)))
                  (fun chunkPromises => await (ret (Promise_all chunkPromises)))
                  (keeps_mapM _ _ keeps_processStudent)
                  (fun ps => keeps_await _ (keeps_ret _)) env w) as Hchunk.
    destruct (bind _ _ env w) as [[crs|e] w1]; cbn in Hchunk; [|done].
    etrans; [exact Hchunk|]. apply (IH (Ok crs)).
  - intros students i Hi results env w _. cbn. reflexivity.
Qed.

Lemma keeps_processBatch students batchNumber :
  keeps R (processBatch exported_Adapters students batchNumber).
Proof. apply keeps_async, keeps_processBatch_loop. Qed.

Hypothesis R_write : forall file content, keeps R (writeJson file content).

Lemma keeps_runScraper_loop students i allResults :
  keeps R (runScraper_loop exported_Adapters students i allResults).
Proof.
  intros env w.
  apply (runScraper_loop_elim exported_Adapters
           (fun students i allResults env w out => R w (snd out)));
    clear students i allResults env w.
  - intros students i Hi allResults env w IH _. cbv zeta.
    match goal with |- context [bind ?m ?k env w] =>
      assert (Hbody : keeps R (bind m k))
    end.
    { apply keeps_bind; [apply keeps_await, keeps_processBatch|]. intros brs.
      apply keeps_bind; [apply R_write|]. intros _.
      apply keeps_bind; [destruct (_ <? _)%nat; [apply R_sleep|apply keeps_ret]|].
      intros _. apply keeps_ret. }
    specialize (Hbody env w).
    destruct (bind _ _ env w) as [[rs|e] w1]; cbn in Hbody; [|done].
    etrans; [exact Hbody|]. apply (IH (Ok rs)).
  - intros students i Hi allResults env w _. cbn. reflexivity.
Qed.

Lemma keeps_runScraper : keeps R (runScraper exported_Adapters).
Proof.
  unfold runScraper, saveCache, generateSummary, reduce1, Date_now.
  repeat first [ apply keeps_runScraper_loop | apply R_write | keeps_step
               | (intros env w; cbn; reflexivity) ].
Qed.

End Frame.

(** ** The clock *)

Lemma waited_now l w : now w <= now (waited l w).
Proof. unfold waited. destruct (_ <? _); cbn; lia. Qed.

(** ** The cache *)

#[local] Instance cache_grows_preorder : PreOrder cache_grows.
Proof.
  split.
  - intros w. by repeat split.
  - intros w1 w2 w3 (?&?&?&?) (?&?&?&?). repeat split; set_solver.
Qed.

Lemma cache_grows_same w w' : cache w' = cache w -> cache_grows w w'.
Proof. intros H. unfold cache_grows. rewrite H. by repeat split. Qed.

Lemma grows_sleep ms : keeps cache_grows (sleep ms).
Proof. intros env w. by apply cache_grows_same. Qed.

Lemma grows_http (B : Type) r (service : Env -> list Event -> Reply B) :
  keeps cache_grows (http r service).
Proof. intros env w. by apply cache_grows_same. Qed.

Lemma grows_wait l : keeps cache_grows (RateLimiter_wait l).
Proof.
  intros env w. rewrite RateLimiter_wait_returns.
  apply cache_grows_same, waited_cache.
Qed.

Lemma grows_write file content : keeps cache_grows (writeJson file content).
Proof.
  intros env w. apply cache_grows_same. unfold writeJson.
  by destruct (disk env (trace w)).
Qed.

Lemma grows_set_leetcode key d : keeps cache_grows (cache_set leetcode_slot key d).
Proof.
  intros env w. unfold cache_grows. cbn.
  repeat split; try done. unfold Cache.set. rewrite dom_insert_L. set_solver.
Qed.

Lemma grows_set_github key d : keeps cache_grows (cache_set github_slot key d).
Proof.
  intros env w. unfold cache_grows. cbn.
  repeat split; try done. unfold Cache.set. rewrite dom_insert_L. set_solver.
Qed.

Lemma grows_set_codeforces key d :
  keeps cache_grows (cache_set codeforces_slot key d).
Proof.
  intros env w. unfold cache_grows. cbn.
  repeat split; try done. unfold Cache.set. rewrite dom_insert_L. set_solver.
Qed.

Lemma grows_set_atcoder key d : keeps cache_grows (cache_set atcoder_slot key d).
Proof.
  intros env w. unfold cache_grows. cbn.
  repeat split; try done. unfold Cache.set. rewrite dom_insert_L. set_solver.
Qed.

(** ** The limiters *)

#[local] Instance limiters_advance_preorder : PreOrder limiters_advance.
Proof.
  split.
  - intros w Hw. split; [lia|]. split; [done|]. intros l. split; [done|lia].
  - intros w1 w2 w3 H12 H23 Hw1.
    destruct (H12 Hw1) as (Hc12 & Hw2 & Hl12).
    destruct (H23 Hw2) as (Hc23 & Hw3 & Hl23).
    split; [lia|]. split; [done|]. intros l.
    destruct (Hl12 l), (Hl23 l). split; [congruence|lia].
Qed.

Lemma limiters_advance_later w w' :
  limiters w' = limiters w -> now w <= now w' -> limiters_advance w w'.
Proof.
  intros Hl Hc Hw. split; [done|]. split.
  - intros l. rewrite Hl. specialize (Hw l). lia.
  - intros l. rewrite Hl. split; [done|lia].
Qed.

Lemma advance_sleep ms : keeps limiters_advance (sleep ms).
Proof. intros env w. apply limiters_advance_later; cbn; [done|lia]. Qed.

Lemma advance_http (B : Type) r (service : Env -> list Event -> Reply B) :
  keeps limiters_advance (http r service).
Proof. intros env w. apply limiters_advance_later; cbn; [done|lia]. Qed.

Lemma advance_cache_set {V : Type} (slot : Slot V) key d :
  keeps limiters_advance (cache_set slot key d).
Proof. intros env w. apply limiters_advance_later; cbn; [done|lia]. Qed.

Lemma advance_write file content : keeps limiters_advance (writeJson file content).
Proof.
  intros env w. unfold writeJson.
  destruct (disk env (trace w)); apply limiters_advance_later; cbn; done || lia.
Qed.

Lemma advance_wait l : keeps limiters_advance (RateLimiter_wait l).
Proof.
  intros env w Hw. rewrite RateLimiter_wait_returns. cbn [snd].
  pose proof (waited_now l w) as Hnow.
  assert (Hlim : forall l', limiters (waited l w) l'
                 = if decide (l' = l)
                   then mkRateLimiter (delay (limiters w l)) (now (waited l w))
                   else limiters w l').
  { intros l'. unfold waited. cbn. destruct (decide (l' = l)); [done|].
    by destruct (_ <? _). }
  split; [done|]. split.
  - intros l'. rewrite Hlim.
    destruct (decide (l' = l)); cbn [lastRequest delay]; [lia|].
    specialize (Hw l'). lia.
  - intros l'. rewrite Hlim.
    destruct (decide (l' = l)) as [->|]; cbn [lastRequest delay].
    + split; [done|]. specialize (Hw l). lia.
    + split; [done|lia].
Qed.

(** ** Files *)

Lemma writes_app tr1 tr2 : writes (tr1 ++ tr2) = (writes tr1 ++ writes tr2)%list.
Proof. unfold writes. apply flat_map_app. Qed.

#[local] Instance no_write_preorder : PreOrder no_write.
Proof.
  split; [by intros w|]. intros w1 w2 w3. unfold no_write. congruence.
Qed.

Lemma no_write_sleep ms : keeps no_write (sleep ms).
Proof. intros env w. unfold no_write. cbn. rewrite writes_app. cbn. apply app_nil_r. Qed.

Lemma no_write_http (B : Type) r (service : Env -> list Event -> Reply B) :
  keeps no_write (http r service).
Proof. intros env w. unfold no_write. cbn. rewrite writes_app. cbn. apply app_nil_r. Qed.

Lemma no_write_wait l : keeps no_write (RateLimiter_wait l).
Proof.
  intros env w. rewrite RateLimiter_wait_returns. unfold no_write, waited. cbn.
  destruct (_ <? _); cbn; [|done]. rewrite writes_app. cbn. apply app_nil_r.
Qed.

Lemma no_write_cache_set {V : Type} (slot : Slot V) key d :
  keeps no_write (cache_set slot key d).
Proof. by intros env w. Qed.

(** X2. A run never removes a key from the cache: every key present when
    [runScraper] starts is still present when it ends, expired or not. *)
Theorem run_never_evicts :
  forall (env : Env) (w : World),
    let w' := snd (runScraper exported_Adapters env w) in
    dom (leetcode_entries (cache w)) ⊆ dom (leetcode_entries (cache w'))
    /\ dom (github_entries (cache w)) ⊆ dom (github_entries (cache w'))
    /\ dom (codeforces_entries (cache w)) ⊆ dom (codeforces_entries (cache w'))
    /\ dom (atcoder_entries (cache w)) ⊆ dom (atcoder_entries (cache w')).
Proof.
  intros env w.
  exact (keeps_runScraper cache_grows grows_sleep grows_http grows_wait
           grows_set_leetcode grows_set_github grows_set_codeforces
           grows_set_atcoder grows_write env w).
Qed.

(** X3. Through a whole run, started with no limiter ahead of the clock, the
    clock does not go back, every limiter keeps the delay it was built with,
    no [lastRequest] decreases and none is ever ahead of the clock. *)
Theorem run_advances_limiters :
  forall (env : Env) (w : World),
    (forall l, lastRequest (limiters w l) <= now w) ->
    let w' := snd (runScraper exported_Adapters env w) in
    now w <= now w'
    /\ (forall l, lastRequest (limiters w' l) <= now w')
    /\ forall l, delay (limiters w' l) = delay (limiters w l)
                 /\ lastRequest (limiters w l) <= lastRequest (limiters w' l).
Proof.
  intros env w Hw.
  exact (keeps_runScraper limiters_advance advance_sleep advance_http
           advance_wait (advance_cache_set _) (advance_cache_set _)
           (advance_cache_set _) (advance_cache_set _) advance_write env w Hw).
Qed.

(* ===================================================================== *)
(** * How many remote calls a run performs                               *)
(* ===================================================================== *)

Lemma requests_app tr1 tr2 :
  requests (tr1 ++ tr2) = (requests tr1 ++ requests tr2)%list.
Proof. unfold requests. apply flat_map_app. Qed.

Lemma calls_log_request r w ms :
  calls (elapse ms (log (EvRequest r) w)) = S (calls w).
Proof. unfold calls. cbn. rewrite requests_app, length_app. cbn. lia. Qed.

Lemma calls_log_timeout t w ms :
  calls (elapse ms (log (EvTimeout t) w)) = calls w.
Proof. unfold calls. cbn. rewrite requests_app, length_app. cbn. lia. Qed.

Lemma calls_waited l w : calls (waited l w) = calls w.
Proof.
  unfold waited. destruct (_ <? _); [|done].
  by rewrite <- (calls_log_timeout (delay (limiters w l)
                                      - (now w - lastRequest (limiters w l))) w
                   (Z.max 0 (delay (limiters w l)
                             - (now w - lastRequest (limiters w l))))).
Qed.

Section Calls.

Lemma within_mono {A : Type} (k k' : nat) (m : M A) :
  (k <= k')%nat -> within k m -> within k' m.
Proof. intros Hk Hm env w. specialize (Hm env w). lia. Qed.

Lemma within_ret {A : Type} (k : nat) (a : A) : within k (ret a).
Proof. intros env w. cbn. lia. Qed.

Lemma within_throw {A : Type} (k : nat) (e : JsError) : within k (@throw A e).
Proof. intros env w. cbn. lia. Qed.

Lemma within_gets {A : Type} (k : nat) (f : World -> A) : within k (gets f).
Proof. intros env w. cbn. lia. Qed.

Lemma within_cache_set {V : Type} (k : nat) (slot : Slot V) key d :
  within k (cache_set slot key d).
Proof.
  intros env w. change (calls w <= calls w + k)%nat. lia.
Qed.

Lemma within_sleep (k : nat) ms : within k (sleep ms).
Proof. intros env w. cbn [sleep modify snd]. rewrite calls_log_timeout. lia. Qed.

Lemma within_wait (k : nat) l : within k (RateLimiter_wait l).
Proof.
  intros env w. rewrite RateLimiter_wait_returns. cbn [snd].
  rewrite calls_waited. lia.
Qed.

Lemma within_http {B : Type} (k : nat) r
    (service : Env -> list Event -> Reply B) :
  within (S k) (http r service).
Proof. intros env w. cbn [http snd]. rewrite calls_log_request. lia. Qed.

Lemma within_bind {A B : Type} (k1 k2 : nat) (m : M A) (f : A -> M B) :
  within k1 m -> (forall a, within k2 (f a)) -> within (k1 + k2) (bind m f).
Proof.
  intros Hm Hf env w. specialize (Hm env w). unfold bind.
  destruct (m env w) as [[a|e] w1]; cbn in *; [|lia].
  specialize (Hf a env w1). lia.
Qed.

Lemma within_try_catch {A : Type} (k1 k2 : nat) (body : M A)
    (handler : JsError -> M A) :
  within k1 body -> (forall e, within k2 (handler e)) ->
  within (k1 + k2) (try_catch body handler).
Proof.
  intros Hm Hf env w. specialize (Hm env w). unfold try_catch.
  destruct (body env w) as [[a|e] w1]; cbn in *; [lia|].
  specialize (Hf e env w1). lia.
Qed.

Lemma within_async {A : Type} (k : nat) (body : M A) :
  within k body -> within k (async body).
Proof.
  intros Hm env w. specialize (Hm env w). unfold async.
  by destruct (body env w) as [[a|e] w1].
Qed.

Lemma within_await {A : Type} (k : nat) (p : M (Settled A)) :
  within k p -> within k (await p).
Proof.
  intros Hp. apply (within_mono (k + 0)); [lia|].
  apply within_bind; [done|]. intros [a|e]; [apply within_ret|apply within_throw].
Qed.

Lemma within_defined {A : Type} (k : nat) (m : M (option A)) :
  within k m -> within k (defined m).
Proof.
  intros Hp. apply (within_mono (k + 0)); [lia|].
  apply within_bind; [done|]. intros [a|]; [apply within_ret|apply within_throw].
Qed.

Lemma within_mapM {A B : Type} (k : nat) (f : A -> M B) (l : list A) :
  (forall x, within k (f x)) -> within (length l * k) (mapM f l).
Proof.
  intros Hf. induction l as [|x rest IH]; cbn [mapM length]; [apply within_ret|].
  apply (within_mono (k + (length rest * k + 0))); [lia|].
  apply within_bind; [apply Hf|]. intros y.
  apply within_bind; [apply IH|]. intros ys. apply within_ret.
Qed.

(** A retried call whose failed attempts cost at most [kf] remote calls and
    whose successful attempt costs at most [ks]. *)
Lemma retry_loop_calls {A : Type} (fn : M (Settled A)) env (ks kf : nat) attempts :
  (forall w,
      match await fn env w with
      | (Ok _, w') => (calls w' <= calls w + ks)%nat
      | (Throw _, w') => (calls w' <= calls w + kf)%nat
      end) ->
  forall remaining i w,
    (calls (snd (retry_loop fn attempts i remaining env w))
     <= calls w + (remaining - 1) * kf + Nat.max ks kf)%nat.
Proof.
  intros Hfn remaining. induction remaining as [|r IH]; intros i w.
  - cbn. lia.
  - specialize (Hfn w).
    destruct (await fn env w) as [[a|e] w'] eqn:E.
    + erewrite retry_loop_success by eassumption. cbn [snd]. lia.
    + destruct (decide (i = (attempts - 1)%nat)) as [Hi|Hi].
      * erewrite retry_loop_last_failure by eassumption. cbn [snd]. lia.
      * erewrite retry_loop_failure by eassumption.
        cbn [sleep modify snd].
        destruct r as [|r'].
        { cbn [retry_loop ret snd]. rewrite calls_log_timeout. lia. }
        etrans; [apply IH|]. rewrite calls_log_timeout.
        replace (S (S r') - 1)%nat with (S r') by lia.
        replace (S r' - 1)%nat with r' by lia. lia.
Qed.

Lemma fetch_calls {V : Type} (slot : Slot V) key limiter zero
    (fn : M (Settled V)) username (ks kf : nat) :
  (forall env w,
      match await fn env w with
      | (Ok _, w') => (calls w' <= calls w + ks)%nat
      | (Throw _, w') => (calls w' <= calls w + kf)%nat
      end) ->
  within (2 * kf + Nat.max ks kf)
         (fetch_through_cache slot key limiter zero fn username).
Proof.
  intros Hfn. unfold fetch_through_cache. apply within_async.
  destruct (negb _); [apply within_ret|].
  apply (within_bind 0); [apply within_gets|]. intros [c|]; [apply within_ret|].
  apply (within_bind 0); [apply within_await, within_wait|]. intros _.
  apply within_defined. intros env w.
  unfold retryRequest, CONFIG.RETRY_ATTEMPTS.
  pose proof (retry_loop_calls fn env ks kf 3 (Hfn env) 3%nat 0%nat w) as H.
  change (3 - 1)%nat with 2%nat in H.
  change (calls (snd (retry_loop fn 3 0 3 env w))
          <= calls w + (2 * kf + Nat.max ks kf))%nat. lia.
Qed.

Lemma within_leetcode u : within 3 (Adapters.leetcode u).
Proof.
  apply (fetch_calls leetcode_slot _ leetcodeLimiter zeroLeetcode
           (Adapters.leetcode_fn u _) u 1 1).
  intros env w. unfold Adapters.leetcode_fn. rewrite await_async.
  assert (H : within 1 (data <- http (PostLeetcodeGraphql u)
                           (fun e h => leetcode_graphql e h u) ;;
                        match data with
                        | AcAbsent => ret zeroLeetcode
                        | AcNotArray => throw (mkError "data.find is not a function")
                        | AcArray items =>
                            cache_set leetcode_slot ("leetcode_" +:+ toStringId u)
                              (mkLeetcode (count_of "All" items) (count_of "Easy" items)
                                 (count_of "Medium" items) (count_of "Hard" items)) ;;
                            ret (mkLeetcode (count_of "All" items) (count_of "Easy" items)
                                   (count_of "Medium" items) (count_of "Hard" items))
                        end)).
  { apply (within_bind 1 0); [apply within_http|]. intros [|items|].
    - apply within_ret.
    - apply (within_bind 0 0); [apply within_cache_set|]. intros _. apply within_ret.
    - apply within_throw. }
  specialize (H env w).
  destruct (bind _ _ env w) as [[v|e] w']; cbn in H; lia.
Qed.

Lemma within_codeforces u : within 3 (Adapters.codeforces u).
Proof.
  apply (fetch_calls codeforces_slot _ codeforcesLimiter zeroSolved
           (Adapters.codeforces_fn u _) u 1 1).
  intros env w. unfold Adapters.codeforces_fn. rewrite await_async.
  assert (H : within 1 (response <- http (GetCodeforcesStatus u)
                           (fun e h => codeforces_status e h u) ;;
                        if negb (isOK (status response)) then ret zeroSolved else
                        match result response with
                        | None => throw (mkError "Cannot read properties of undefined (reading 'forEach')")
                        | Some submissions =>
                            cache_set codeforces_slot
                              ("codeforces_" +:+ toStringId u)
                              (mkSolved (Z.of_nat (size (solved_keys submissions)))) ;;
                            ret (mkSolved (Z.of_nat (size (solved_keys submissions))))
                        end)).
  { apply (within_bind 1 0); [apply within_http|]. intros response.
    destruct (negb _); [apply within_ret|].
    destruct (result response); [|apply within_throw].
    apply (within_bind 0 0); [apply within_cache_set|]. intros _. apply within_ret. }
  specialize (H env w).
  destruct (bind _ _ env w) as [[v|e] w']; cbn in H; lia.
Qed.

Lemma within_atcoder u : within 3 (Adapters.atcoder u).
Proof.
  apply (fetch_calls atcoder_slot _ rateLimiter zeroSolved
           (Adapters.atcoder_fn u _) u 1 1).
  intros env w. unfold Adapters.atcoder_fn. rewrite await_async.
  assert (H : within 1 (count <- http (GetAtcoderAcRank u)
                           (fun e h => atcoder_ac_rank e h u) ;;
                        cache_set atcoder_slot ("atcoder_" +:+ toStringId u)
                                  (mkSolved (orZero count)) ;;
                        ret (mkSolved (orZero count)))).
  { apply (within_bind 1 0); [apply within_http|]. intros count.
    apply (within_bind 0 0); [apply within_cache_set|]. intros _. apply within_ret. }
  specialize (H env w).
  destruct (bind _ _ env w) as [[v|e] w']; cbn in H; lia.
Qed.

(** An attempt of the github adapter that fails has made one call, the user
    lookup; one that succeeds has made two. *)
Lemma github_fn_calls u key env w :
  match await (Adapters.github_fn u key) env w with
  | (Ok _, w') => (calls w' <= calls w + 2)%nat
  | (Throw _, w') => (calls w' <= calls w + 1)%nat
  end.
Proof.
  unfold Adapters.github_fn. rewrite await_async.
  unfold try_catch at 1, bind at 1, http at 1.
  destruct (outcome _) as [public_repos|e]; cbn [throw].
  2:{ rewrite calls_log_request. lia. }
  unfold bind at 1, try_catch, bind at 1. rewrite await_wait.
  unfold bind, http.
  destruct (outcome _) as [total_count|e]; cbn [ret cache_set modify];
    change (calls (set_cache ?c ?w)) with (calls w);
    rewrite ?calls_log_request, ?calls_waited, ?calls_log_request; lia.
Qed.

Lemma within_github u : within 4 (Adapters.github u).
Proof.
  apply (fetch_calls github_slot _ githubUserLimiter zeroGithub
           (Adapters.github_fn u _) u 2 1).
  intros env w. apply github_fn_calls.
Qed.

End Calls.

Section CallsOfARun.

Lemma within_scrapeSkillRack d l : within 1 (scrapeSkillRack d l).
Proof.
  intros env w.
  destruct (truthyId d) eqn:Hd.
  2:{ unfold scrapeSkillRack. rewrite Hd. cbn. lia. }
  set (fields := match d with
                 | Bare (JsString s) => (JsString s, JsString s, JsNull)
                 | _ => (prop_username d, prop_id d, prop_key d)
                 end).
  destruct fields as [[username id] key] eqn:Hfields.
  destruct (truthy username) eqn:Hu.
  2:{ unfold scrapeSkillRack. fold fields. rewrite Hd, Hfields. cbn [negb].
      rewrite Hu. cbn. lia. }
  destruct (scrapeSkillRack_fetches username id key l env w Hu) as [Hs Hc].
  assert (Hrun : exists m,
             scrapeSkillRack d l env w
             = (Ok (Fulfilled m),
                let w1 := waited l w in
                let url := profileUrl_of username id key in
                elapse (Z.of_N (latency (skillrack_resume env (trace w1) url)))
                       (log (EvRequest (GetSkillrackResume url)) w1))).
  { destruct d as [v|u i k].
    - destruct v as [| | | |s]; try (cbn in Hfields; inversion Hfields; by subst).
      cbn in Hfields. inversion Hfields; subst. by apply Hs.
    - cbn in Hfields. inversion Hfields; subst. exact Hc. }
  destruct Hrun as [m ->]. cbn [snd].
  rewrite calls_log_request, calls_waited. lia.
Qed.

Lemma within_skillrack d : within 1 (Adapters.skillrack d).
Proof.
  unfold Adapters.skillrack. apply within_async.
  destruct (negb (truthyId d)); [apply within_ret|].
  destruct (isString d); [apply within_ret|].
  destruct (_ || _); [apply within_ret|].
  apply within_await, within_scrapeSkillRack.
Qed.

Lemma within_processStudent student :
  within 14 (processStudent exported_Adapters student).
Proof.
  unfold processStudent. apply within_async.
  apply (within_bind 0 14); [apply within_gets|]. intros startTime.
  apply (within_try_catch 14 0).
  2:{ intros e. apply (within_bind 0 0); [apply within_gets|].
      intros; apply within_ret. }
  apply (within_bind 14 0).
  - unfold join. cbn [exported_Adapters call_leetcode call_github
                      call_codeforces call_atcoder call_skillrack].
    apply (within_bind 3 11); [apply within_leetcode|]. intros ?.
    apply (within_bind 4 7); [apply within_github|]. intros ?.
    apply (within_bind 3 4); [apply within_codeforces|]. intros ?.
    apply (within_bind 3 1); [apply within_atcoder|]. intros ?.
    apply (within_bind 1 0); [apply within_skillrack|]. intros ?.
    apply within_ret.
  - intros joined. apply (within_bind 0 0); [apply within_gets|].
    intros; apply within_ret.
Qed.

Lemma length_slice {A : Type} (l : list A) (i width : nat) :
  length (slice l i (i + width)) = Nat.min width (length l - i).
Proof. rewrite slice_chunk, length_firstn, length_skipn. done. Qed.

Lemma calls_processBatch_loop students i results env w :
  (calls (snd (processBatch_loop exported_Adapters students i results env w))
   <= calls w + (length students - i) * 14)%nat.
Proof.
  apply (processBatch_loop_elim exported_Adapters
           (fun students i results env w out =>
              (calls (snd out) <= calls w + (length students - i) * 14)%nat));
    clear students i results env w.
  - intros students i Hi results env w IH _. cbv zeta.
    pose proof (within_bind _ 0
                  (mapM (processStudent exported_Adapters)
                        (slice students i (i + CONFIG.CONCURRENCY)))
                  (fun chunkPromises => await (ret (Promise_all chunkPromises)))
                  (within_mapM 14 _ _ within_processStudent)
                  (fun ps => within_await 0 _ (within_ret 0 _)) env w) as Hchunk.
    rewrite length_slice in Hchunk.
    destruct (bind _ _ env w) as [[crs|e] w1]; cbn [snd] in Hchunk.
    + etrans; [apply (IH (Ok crs))|]. unfold CONFIG.CONCURRENCY in *. nia.
    + cbn [snd]. nia.
  - intros students i Hi results env w _. cbn. lia.
Qed.

Lemma within_processBatch students batchNumber :
  within (length students * 14)
         (processBatch exported_Adapters students batchNumber).
Proof.
  apply within_async. intros env w.
  etrans; [apply calls_processBatch_loop|]. lia.
Qed.

Lemma within_writeJson (k : nat) file content : within k (writeJson file content).
Proof.
  intros env w. unfold writeJson. destruct (disk env (trace w)); cbn [snd]; [|lia].
  unfold calls, log. cbn [trace]. rewrite requests_app, length_app. cbn. lia.
Qed.

Lemma calls_runScraper_loop students i allResults env w :
  (calls (snd (runScraper_loop exported_Adapters students i allResults env w))
   <= calls w + (length students - i) * 14)%nat.
Proof.
  apply (runScraper_loop_elim exported_Adapters
           (fun students i allResults env w out =>
              (calls (snd out) <= calls w + (length students - i) * 14)%nat));
    clear students i allResults env w.
  - intros students i Hi allResults env w IH _. cbv zeta.
    match goal with |- context [bind ?m ?k env w] =>
      assert (Hbody : within (Nat.min CONFIG.BATCH_SIZE (length students - i) * 14)
                             (bind m k))
    end.
    { rewrite <- length_slice.
      eapply within_mono; [|apply within_bind with (k2 := 0%nat);
                             [apply within_await, within_processBatch|]];
        [lia|].
      intros brs.
      apply (within_bind 0 0); [apply within_writeJson|]. intros _.
      apply (within_bind 0 0);
        [destruct (_ <? _)%nat; [apply within_sleep|apply within_ret]|].
      intros _. apply within_ret. }
    specialize (Hbody env w).
    destruct (bind _ _ env w) as [[rs|e] w1]; cbn [snd] in Hbody.
    + etrans; [apply (IH (Ok rs))|]. unfold CONFIG.BATCH_SIZE in *. nia.
    + cbn [snd]. nia.
  - intros students i Hi allResults env w _. cbn. lia.
Qed.

End CallsOfARun.

Lemma within_runScraper env w :
  (calls (snd (runScraper exported_Adapters env w))
   <= calls w + match students_mock env with
                | Ok students => length students * 14
                | Throw _ => 0
                end)%nat.
Proof.
  unfold runScraper, try_catch, bind at 1.
  destruct (students_mock env) as [students|e]; [|cbn; lia].
  pose proof (calls_runScraper_loop students 0 [] env w) as Hloop.
  rewrite Nat.sub_0_r in Hloop. unfold bind at 1.
  destruct (runScraper_loop _ _ _ _ _ _) as [[allResults|e] w1];
    cbn [snd] in Hloop; [|cbn; lia].
  assert (Hrest : within 0
            (saveCache ;;
             summary <- generateSummary allResults ;;
             writeJson "summary.json" (SummaryJson summary) ;;
             ret (Completed allResults summary))).
  { apply (within_bind 0 0).
    - apply (within_try_catch 0 0); [|intros; apply within_ret].
      apply (within_bind 0 0); [apply within_gets|].
      intros; apply within_writeJson.
    - intros _. apply (within_bind 0 0).
      + unfold generateSummary. apply (within_bind 0 0); [apply within_gets|].
        intros t. apply (within_bind 0 0); [|intros; apply within_ret].
        destruct allResults; [apply within_throw|apply within_ret].
      + intros summary. apply (within_bind 0 0); [apply within_writeJson|].
        intros; apply within_ret. }
  specialize (Hrest env w1).
  destruct (bind _ _ env w1) as [[run|e] w2]; cbn [snd ret] in *; lia.
Qed.

(** X4. Processing one student performs at most 14 remote calls: three for
    leetcode, codeforces and atcoder each (the retried call), four for
    github (a failed attempt stops at the user lookup, only a successful one
    goes on to the search), one for skillrack. A run over [n] students
    performs at most [14 * n], none when the students file cannot be read.
    The bound of 14 is reached. *)
Theorem at_most_14_calls_per_student :
  (forall student env w,
      (calls (snd (processStudent exported_Adapters student env w))
       <= calls w + 14)%nat)
  /\ (forall env w,
        (calls (snd (runScraper exported_Adapters env w))
         <= calls w + match students_mock env with
                      | Ok students => 14 * length students
                      | Throw _ => 0
                      end)%nat)
  /\ calls (snd (processStudent exported_Adapters alice github_third_time start))
     = 14%nat.
Proof.
  split; [|split].
  - intros student env w. apply within_processStudent.
  - intros env w. pose proof (within_runScraper env w) as H.
    destruct (students_mock env); lia.
  - by vm_compute.
Qed.

(** X3 on the sample classroom, from the start of the process. *)
Lemma run_advances_limiters_witness :
  (forall l, lastRequest (limiters start l) <= now start)
  /\ let w' := snd (runScraper exported_Adapters classroom start) in
     now start <= now w'
     /\ (forall l, lastRequest (limiters w' l) <= now w')
     /\ forall l, delay (limiters w' l) = delay (limiters start l)
                  /\ lastRequest (limiters start l) <= lastRequest (limiters w' l).
Proof.
  assert (H : forall l, lastRequest (limiters start l) <= now start)
    by (intros l; destruct l; vm_compute; congruence).
  split; [exact H|].
  apply (run_advances_limiters classroom start H).
Defined.

(* ===================================================================== *)
(** * What a run writes                                                  *)
(* ===================================================================== *)

Lemma processBatch_writes_nothing students batchNumber :
  keeps no_write (processBatch exported_Adapters students batchNumber).
Proof.
  exact (keeps_processBatch no_write no_write_sleep no_write_http no_write_wait
           (no_write_cache_set _) (no_write_cache_set _) (no_write_cache_set _)
           (no_write_cache_set _) students batchNumber).
Qed.

Lemma Forall2_record_of_length students rs :
  Forall2 record_of students rs -> length rs = length students.
Proof. intros H. symmetry. eapply Forall2_length, H. Qed.

(** The snapshot written after batch [k], counted from 1, of a run that is at
    student [i]. *)
Lemma runScraper_loop_snapshots students i allResults env w :
  (forall h, disk env h = Ok tt) ->
  ((i < length students)%nat -> length allResults = i) ->
  exists rs w',
    runScraper_loop exported_Adapters students i allResults env w
    = (Ok (allResults ++ rs)%list, w')
    /\ length rs = (length students - i)%nat
    /\ writes (trace w')
       = (writes (trace w)
          ++ map (fun k => ("results.json",
                            ResultsJson (firstn (i + CONFIG.BATCH_SIZE * k)
                                                (allResults ++ rs))))
                 (seq 1 ((length students - i + 99) / CONFIG.BATCH_SIZE)))%list.
Proof.
  intros Hdisk.
  apply (runScraper_loop_elim exported_Adapters
           (fun students i allResults env' w out =>
              env' = env ->
              ((i < length students)%nat -> length allResults = i) ->
              exists rs w',
                out = (Ok (allResults ++ rs)%list, w')
                /\ length rs = (length students - i)%nat
                /\ writes (trace w')
                   = (writes (trace w)
                      ++ map (fun k => ("results.json",
                                        ResultsJson
                                          (firstn (i + CONFIG.BATCH_SIZE * k)
                                                  (allResults ++ rs))))
                             (seq 1 ((length students - i + 99)
                                     / CONFIG.BATCH_SIZE)))%list));
    clear students i allResults w; [| |reflexivity].
  - intros students i Hi allResults env' w IH _ -> Hacc. cbv zeta.
    specialize (Hacc Hi).
    destruct (processBatch_spec exported_Adapters
                (slice students i (i + CONFIG.BATCH_SIZE))
                (i / CONFIG.BATCH_SIZE + 1) env w) as (brs & w1 & Hbatch & Hrec).
    pose proof (processBatch_writes_nothing
                  (slice students i (i + CONFIG.BATCH_SIZE))
                  (i / CONFIG.BATCH_SIZE + 1) env w) as Hquiet.
    rewrite Hbatch in Hquiet. unfold no_write in Hquiet. cbn [snd] in Hquiet.
    apply Forall2_record_of_length in Hrec. rewrite length_slice in Hrec.
    unfold bind at 1, await. unfold bind at 1. rewrite Hbatch. cbn [ret].
    unfold bind at 1, writeJson. rewrite Hdisk.
    set (w2 := log (EvWrite "results.json" (ResultsJson (allResults ++ brs))) w1).
    set (pause := if (i + CONFIG.BATCH_SIZE <? length students)%nat
                  then sleep 1000 else ret tt).
    assert (Hpause : exists w3, pause env w2 = (Ok tt, w3)
                                /\ writes (trace w3) = writes (trace w2)).
    { unfold pause. destruct (_ <? _)%nat.
      - eexists. split; [reflexivity|]. apply (no_write_sleep 1000 env w2).
      - by eexists. }
    destruct Hpause as (w3 & Hpause & Hw3).
    unfold bind at 1. rewrite Hpause. cbn [ret].
    destruct (IH (Ok (allResults ++ brs)%list) w3 (allResults ++ brs)%list
                eq_refl) as (rs & w' & Hrun & Hlen & Hwrites).
    { intros Hmore. rewrite length_app, Hrec, Hacc.
      unfold CONFIG.BATCH_SIZE in *. lia. }
    exists (brs ++ rs)%list, w'. rewrite Hrun.
    split; [by rewrite app_assoc|].
    split; [rewrite length_app, Hrec, Hlen; unfold CONFIG.BATCH_SIZE; lia|].
    rewrite Hwrites, Hw3. unfold w2, log. cbn [trace].
    rewrite writes_app, Hquiet. cbn [writes flat_map app].
    rewrite <- app_assoc. f_equal. cbn [app].
    assert (Hcount : ((length students - i + 99) / CONFIG.BATCH_SIZE
                      = S ((length students - (i + CONFIG.BATCH_SIZE) + 99)
                           / CONFIG.BATCH_SIZE))%nat).
    { unfold CONFIG.BATCH_SIZE.
      destruct (decide (length students - i < 100)%nat) as [Hlast|Hmore].
      - replace (length students - (i + 100) + 99)%nat with 99%nat by lia.
        change (99 / 100)%nat with 0%nat. symmetry.
        apply (Nat.div_unique _ 100 1 (length students - i + 99 - 100)); lia.
      - replace (length students - i + 99)%nat
          with (length students - (i + 100) + 99 + 1 * 100)%nat by lia.
        rewrite Nat.div_add by lia. lia. }
    rewrite Hcount. cbn [seq map]. f_equal.
    + f_equal. f_equal. rewrite Nat.mul_1_r, app_assoc.
      destruct (decide (length students - i < CONFIG.BATCH_SIZE)%nat) as [Hlast|Hmore].
      * assert (rs = []) as ->.
        { apply length_zero_iff_nil. unfold CONFIG.BATCH_SIZE in *. lia. }
        rewrite app_nil_r. symmetry. apply firstn_all2.
        rewrite length_app, Hrec, Hacc. lia.
      * symmetry. rewrite firstn_app.
        replace (i + CONFIG.BATCH_SIZE - length (allResults ++ brs))%nat
          with 0%nat by (rewrite length_app, Hrec, Hacc; lia).
        cbn [firstn]. rewrite app_nil_r. apply firstn_all2.
        rewrite length_app, Hrec, Hacc. lia.
    + rewrite <- (seq_shift _ 1%nat), map_map. apply map_ext. intros k.
      f_equal. f_equal. rewrite app_assoc. f_equal. lia.
  - intros students i Hi allResults env' w _ -> _.
    exists [], w. rewrite app_nil_r. split; [done|].
    split; [cbn; lia|].
    replace (length students - i)%nat with 0%nat by lia.
    unfold CONFIG.BATCH_SIZE. cbn. by rewrite app_nil_r.
Qed.

(** X5. When the snapshot writes succeed, the batch loop of [runScraper]
    writes results.json once per batch of 100 and nothing else: the [k]-th
    write holds the records of the first [100 * k] students (of all of them,
    for the last batch), so each snapshot extends the one before. *)
Theorem results_json_after_each_batch :
  forall (students : list Student) (env : Env) (w : World),
    (forall h, disk env h = Ok tt) ->
    exists allResults w',
      runScraper_loop exported_Adapters students 0 [] env w = (Ok allResults, w')
      /\ length allResults = length students
      /\ writes (trace w')
         = (writes (trace w)
            ++ map (fun k => ("results.json",
                              ResultsJson (firstn (100 * k) allResults)))
                   (seq 1 ((length students + 99) / 100)))%list.
Proof.
  intros students env w Hdisk.
  destruct (runScraper_loop_snapshots students 0 [] env w Hdisk (fun _ => eq_refl))
    as (rs & w' & Hrun & Hlen & Hwrites).
  exists rs, w'. rewrite Nat.sub_0_r in Hlen, Hwrites.
  split; [exact Hrun|]. split; [exact Hlen|]. exact Hwrites.
Qed.

(** X5 on a cohort of two, with every platform unreachable. *)
Lemma results_json_after_each_batch_witness :
  (forall h, disk offline h = Ok tt)
  /\ exists allResults w',
      runScraper_loop exported_Adapters [alice; bob] 0 [] offline start
      = (Ok allResults, w')
      /\ length allResults = length [alice; bob]
      /\ writes (trace w')
         = (writes (trace start)
            ++ map (fun k => ("results.json",
                              ResultsJson (firstn (100 * k) allResults)))
                   (seq 1 ((length [alice; bob] + 99) / 100)))%list.
Proof.
  split; [reflexivity|].
  apply (results_json_after_each_batch [alice; bob] offline start).
  reflexivity.
Defined.

Lemma generateSummary_returns r rest env w :
  exists s,
    generateSummary (r :: rest) env w = (Ok s, w)
    /\ totalStudents s = length (r :: rest)
    /\ s_timestamp s = now w.
Proof.
  eexists. split; [|split].
  - unfold generateSummary, bind, Date_now, gets, reduce1, ret. reflexivity.
  - reflexivity.
  - reflexivity.
Qed.

(** X6. A run over a non-empty cohort on a writable disk completes: it
    returns one record per student, in order, and a summary counting them,
    and the last three things it does are to write results.json with all the
    records, cache.json with the cache as the run leaves it, and
    summary.json with that summary. *)
Theorem runScraper_completes :
  forall (env : Env) (w : World) (students : list Student),
    students_mock env = Ok students ->
    students <> [] ->
    (forall h, disk env h = Ok tt) ->
    exists allResults summary w',
      runScraper exported_Adapters env w
      = (Ok (Completed allResults summary), w')
      /\ Forall2 record_of students allResults
      /\ totalStudents summary = length students
      /\ s_timestamp summary = now w'
      /\ exists tr,
           trace w' = (tr ++ [EvWrite "results.json" (ResultsJson allResults);
                              EvWrite "cache.json" (CacheJson (cache w'));
                              EvWrite "summary.json" (SummaryJson summary)])%list.
Proof.
  intros env w students Hfile Hsome Hdisk.
  destruct (runScraper_loop_spec exported_Adapters students 0 [] env w Hdisk)
    as (rs & w1 & Hrun & Hrec & Hlast & _).
  rewrite skipn_O in Hrec. cbn [app] in Hrun, Hlast.
  destruct Hlast as [tr Htr]; [destruct students; [done|cbn; lia]|].
  pose proof (Forall2_record_of_length _ _ Hrec) as Hlen.
  destruct rs as [|r rest]; [by destruct students|].
  set (w2 := log (EvWrite "cache.json" (CacheJson (cache w1))) w1).
  assert (Hsave : saveCache env w1 = (Ok tt, w2)).
  { unfold saveCache, try_catch, bind, gets, writeJson. by rewrite Hdisk. }
  destruct (generateSummary_returns r rest env w2)
    as (summary & Hsum & Htotal & Htime).
  assert (Hwrite : writeJson "summary.json" (SummaryJson summary) env w2
                   = (Ok tt, log (EvWrite "summary.json" (SummaryJson summary)) w2)).
  { unfold writeJson. by rewrite Hdisk. }
  exists (r :: rest), summary,
         (log (EvWrite "summary.json" (SummaryJson summary)) w2).
  split.
  { unfold runScraper, try_catch.
    rewrite (bind_Ok _ _ env w students w) by (by rewrite <- Hfile).
    rewrite (bind_Ok _ _ env w (r :: rest) w1 Hrun).
    rewrite (bind_Ok _ _ env w1 tt w2 Hsave).
    rewrite (bind_Ok _ _ env w2 summary w2 Hsum).
    by rewrite (bind_Ok _ _ env w2 tt _ Hwrite). }
  split; [done|]. split; [by rewrite Htotal, <- Hlen|].
  split; [exact Htime|].
  exists tr. unfold w2. cbn [trace log cache]. rewrite Htr, <- !app_assoc.
  reflexivity.
Qed.

(** X6 on the sample classroom. *)
Lemma runScraper_completes_witness :
  students_mock classroom = Ok [alice; bob]
  /\ [alice; bob] <> []
  /\ (forall h, disk classroom h = Ok tt)
  /\ exists allResults summary w',
      runScraper exported_Adapters classroom start
      = (Ok (Completed allResults summary), w')
      /\ Forall2 record_of [alice; bob] allResults
      /\ totalStudents summary = length [alice; bob]
      /\ s_timestamp summary = now w'
      /\ exists tr,
           trace w' = (tr ++ [EvWrite "results.json" (ResultsJson allResults);
                              EvWrite "cache.json" (CacheJson (cache w'));
                              EvWrite "summary.json" (SummaryJson summary)])%list.
Proof.
  split; [reflexivity|]. split; [discriminate|]. split; [reflexivity|].
  apply (runScraper_completes classroom start [alice; bob]);
    [reflexivity | discriminate | reflexivity].
Defined.

(** The first snapshot that cannot be written ends the batch loop, with the
    first batch processed and nothing written. *)
Lemma runScraper_loop_unwritable students env w :
  students <> [] ->
  (forall h, exists e, disk env h = Throw e) ->
  exists e w',
    runScraper_loop exported_Adapters students 0 [] env w = (Throw e, w')
    /\ writes (trace w') = writes (trace w)
    /\ (calls w' <= calls w + 14 * Nat.min CONFIG.BATCH_SIZE (length students))%nat.
Proof.
  intros Hsome Hdisk.
  rewrite runScraper_loop_equation_1.
  destruct (decide (0 < length students)%nat) as [Hlt|Hge];
    [|destruct students; [done|cbn in Hge; lia]].
  cbn [runScraper_loop_unfold_clause_1]. cbv zeta.
  destruct (processBatch_spec exported_Adapters
              (slice students 0 (0 + CONFIG.BATCH_SIZE))
              (0 / CONFIG.BATCH_SIZE + 1) env w) as (brs & w1 & Hbatch & Hrec).
  pose proof (processBatch_writes_nothing
                (slice students 0 (0 + CONFIG.BATCH_SIZE))
                (0 / CONFIG.BATCH_SIZE + 1) env w) as Hquiet.
  pose proof (within_processBatch
                (slice students 0 (0 + CONFIG.BATCH_SIZE))
                (0 / CONFIG.BATCH_SIZE + 1) env w) as Hcalls.
  rewrite Hbatch in Hquiet, Hcalls. unfold no_write in Hquiet.
  cbn [snd] in Hquiet, Hcalls. rewrite length_slice, Nat.sub_0_r in Hcalls.
  destruct (Hdisk (trace w1)) as [e He].
  exists e, w1. split; [|split; [done|unfold CONFIG.BATCH_SIZE in *; lia]].
  unfold bind at 1, await at 1, bind at 1. rewrite Hbatch.
  unfold ret at 1, bind at 1, writeJson. by rewrite He.
Qed.


(** X7. The ways a run ends through [process.exit(1)]. If the students file
    cannot be read, nothing at all is done. If it lists no student, no remote
    call is made and only cache.json is written, with the cache as it was,
    before the summary of an empty list fails. If the disk cannot be written,
    the run stops at the first snapshot: only the first batch was processed,
    and neither results nor cache nor summary are saved. *)
Theorem runScraper_fatal_paths :
  forall (env : Env) (w : World),
    (forall e, students_mock env = Throw e ->
               runScraper exported_Adapters env w = (Ok (Exit 1), w))
    /\ (students_mock env = Ok [] ->
        (forall h, disk env h = Ok tt) ->
        exists w',
          runScraper exported_Adapters env w = (Ok (Exit 1), w')
          /\ trace w' = (trace w ++ [EvWrite "cache.json" (CacheJson (cache w))])%list)
    /\ (forall students,
          students_mock env = Ok students ->
          students <> [] ->
          (forall h, exists e, disk env h = Throw e) ->
          exists w',
            runScraper exported_Adapters env w = (Ok (Exit 1), w')
            /\ writes (trace w') = writes (trace w)
            /\ (calls w' <= calls w + 14 * Nat.min 100 (length students))%nat).
Proof.
  intros env w. split; [|split].
  - intros e Hfile. unfold runScraper, try_catch, bind at 1. by rewrite Hfile.
  - intros Hfile Hdisk.
    assert (Hloop : runScraper_loop exported_Adapters [] 0 [] env w = (Ok [], w))
      by (by rewrite runScraper_loop_equation_1).
    unfold runScraper, try_catch, bind at 1. rewrite Hfile.
    unfold bind at 1. rewrite Hloop.
    unfold saveCache, try_catch, bind, gets, writeJson. rewrite Hdisk.
    cbn. by eexists.
  - intros students Hfile Hsome Hdisk.
    destruct (runScraper_loop_unwritable students env w Hsome Hdisk)
      as (e & w' & Hloop & Hwrites & Hcalls).
    exists w'. split; [|done].
    unfold runScraper, try_catch, bind at 1. rewrite Hfile.
    unfold bind at 1. by rewrite Hloop.
Qed.

(** X7 on a missing students file, an empty one and a read-only disk. *)
Lemma runScraper_fatal_paths_witness :
  runScraper exported_Adapters no_students_file start = (Ok (Exit 1), start)
  /\ (exists w',
        runScraper exported_Adapters offline start = (Ok (Exit 1), w')
        /\ trace w' = (trace start
                       ++ [EvWrite "cache.json" (CacheJson (cache start))])%list)
  /\ exists w',
       runScraper exported_Adapters read_only_disk start = (Ok (Exit 1), w')
       /\ writes (trace w') = writes (trace start)
       /\ (calls w' <= calls start + 14 * Nat.min 100 (length [alice; bob]))%nat.
Proof.
  split; [|split].
  - apply (proj1 (runScraper_fatal_paths no_students_file start)
             (mkError "ENOENT: no such file or directory, open 'students_mock.json'")).
    reflexivity.
  - apply (proj1 (proj2 (runScraper_fatal_paths offline start)));
      [reflexivity|]. intros h. reflexivity.
  - apply (proj2 (proj2 (runScraper_fatal_paths read_only_disk start))
             [alice; bob]); [reflexivity|discriminate|].
    intros h. eexists. reflexivity.
Defined.

(* ===================================================================== *)
(** * The schedule of retries                                            *)
(* ===================================================================== *)

Lemma timeouts_app tr1 tr2 :
  timeouts (tr1 ++ tr2) = (timeouts tr1 ++ timeouts tr2)%list.
Proof. unfold timeouts. apply flat_map_app. Qed.

Lemma retry_loop_backoff {A : Type} (fn : M (Settled A)) env attempts :
  (forall w0, timeouts (trace (snd (await fn env w0))) = timeouts (trace w0)) ->
  forall remaining i w,
    (i + remaining = attempts)%nat ->
    exists k,
      (k <= remaining - 1)%nat
      /\ timeouts (trace (snd (retry_loop fn attempts i remaining env w)))
         = (timeouts (trace w)
            ++ map (fun j => CONFIG.RETRY_DELAY * 2 ^ Z.of_nat j) (seq i k))%list
      /\ match fst (retry_loop fn attempts i remaining env w) with
         | Throw _ => (0 < remaining)%nat /\ k = (remaining - 1)%nat
         | Ok None => remaining = 0%nat
         | Ok (Some _) => (0 < remaining)%nat
         end.
Proof.
  intros Hfn remaining. induction remaining as [|r IH]; intros i w Hi.
  - exists 0%nat. cbn. by rewrite app_nil_r.
  - specialize (Hfn w).
    destruct (await fn env w) as [[a|e] w1] eqn:E; cbn [snd] in Hfn.
    + exists 0%nat. erewrite retry_loop_success by eassumption.
      cbn [fst snd seq map]. rewrite app_nil_r. repeat split; [lia|done|lia].
    + destruct (decide (i = (attempts - 1)%nat)) as [Hlast|Hmore].
      * exists 0%nat. erewrite retry_loop_last_failure by eassumption.
        cbn [fst snd seq map]. rewrite app_nil_r.
        repeat split; [lia|done|lia|lia].
      * erewrite retry_loop_failure by eassumption.
        destruct (IH (S i) (snd (sleep (CONFIG.RETRY_DELAY * 2 ^ Z.of_nat i) env w1)))
          as (k & Hk & Htimers & Hout); [lia|].
        assert (Hr : (0 < r)%nat) by lia.
        exists (S k). split; [lia|]. split.
        -- rewrite Htimers. cbn [sleep modify snd elapse log set_now trace].
           rewrite timeouts_app, Hfn. cbn [timeouts flat_map app seq map].
           by rewrite <- app_assoc.
        -- destruct (fst _) as [[v|]|e']; [lia|lia|].
           destruct Hout as [_ ->]. split; lia.
Qed.

(** X8. [retryRequest(fn, attempts)], for an [fn] that sets no timer of its
    own: the timers it sets are the first [k] delays of the doubling schedule
    2000, 4000, 8000, ... for some [k <= attempts - 1]. When it throws, every
    attempt has failed and [k = attempts - 1]: no timer follows the last
    attempt. It returns [undefined] only when [attempts] is 0, and then
    without calling [fn]. *)
Theorem retryRequest_backoff_schedule :
  forall (A : Type) (fn : M (Settled A)) (attempts : nat) (env : Env) (w : World),
    (forall w0, timeouts (trace (snd (await fn env w0))) = timeouts (trace w0)) ->
    exists k,
      (k <= attempts - 1)%nat
      /\ timeouts (trace (snd (retryRequest fn attempts env w)))
         = (timeouts (trace w) ++ backoff k)%list
      /\ match fst (retryRequest fn attempts env w) with
         | Throw _ => (0 < attempts)%nat /\ k = (attempts - 1)%nat
         | Ok None => attempts = 0%nat /\ snd (retryRequest fn attempts env w) = w
         | Ok (Some _) => (0 < attempts)%nat
         end.
Proof.
  intros A fn attempts env w Hfn.
  destruct (retry_loop_backoff fn env attempts Hfn attempts 0%nat w eq_refl)
    as (k & Hk & Htimers & Hout).
  exists k. split; [done|]. split; [exact Htimers|].
  unfold retryRequest.
  destruct (fst (retry_loop fn attempts 0 attempts env w)) as [[v|]|e]; try done.
  subst attempts. done.
Qed.

(** X8 on five attempts at an unreachable leetcode. *)
Lemma retryRequest_backoff_schedule_witness :
  let fn := async (http (PostLeetcodeGraphql (Bare (JsString "alice")))
                        (fun e h => leetcode_graphql e h (Bare (JsString "alice")))) in
  (forall w0, timeouts (trace (snd (await fn offline w0))) = timeouts (trace w0))
  /\ exists k,
      (k <= 5 - 1)%nat
      /\ timeouts (trace (snd (retryRequest fn 5 offline start)))
         = (timeouts (trace start) ++ backoff k)%list
      /\ match fst (retryRequest fn 5 offline start) with
         | Throw _ => (0 < 5)%nat /\ k = (5 - 1)%nat
         | Ok None => 5%nat = 0%nat /\ snd (retryRequest fn 5 offline start) = start
         | Ok (Some _) => (0 < 5)%nat
         end.
Proof.
  intros fn.
  assert (H : forall w0,
             timeouts (trace (snd (await fn offline w0))) = timeouts (trace w0)).
  { intros w0. cbn. rewrite timeouts_app. cbn. apply app_nil_r. }
  split; [exact H|].
  apply (retryRequest_backoff_schedule _ fn 5 offline start H).
Defined.

(* ===================================================================== *)
(** * What the adapters make of the answers                              *)
(* ===================================================================== *)

(** X9. The github adapter, for a user not in the cache whose lookup answers
    while the search for merged pull requests fails: the search is tried
    once, the failure is swallowed, and the adapter resolves to the user's
    repository count with 0 merged PRs after exactly two remote calls. That
    record is cached: for the next 24 hours the adapter returns it without
    any remote call, whatever the services would answer by then. *)
Theorem github_search_failure_is_cached_as_zero :
  forall (username : Identity) (env : Env) (w : World) (public_repos : option Z),
    truthyId username = true ->
    Cache.get (github_entries (cache w)) (now w)
              ("github_" +:+ toStringId username) = None ->
    (forall h, outcome (github_users env h username) = Ok public_repos) ->
    (forall h, exists e, outcome (github_search env h username) = Throw e) ->
    let v := mkGithub (orZero public_repos) 0 in
    exists w',
      Adapters.github username env w = (Ok (Fulfilled v), w')
      /\ requests (trace w')
         = (requests (trace w)
            ++ [GetGithubUser username; GetGithubMergedPRs username])%list
      /\ forall env' w'',
           cache w'' = cache w' ->
           now w' <= now w'' < now w' + CONFIG.CACHE_DURATION ->
           Adapters.github username env' w'' = (Ok (Fulfilled v), w'').
Proof.
  intros username env w public_repos Hu Hmiss Huser Hsearch v.
  set (key := "github_" +:+ toStringId username) in *.
  set (w1 := waited githubUserLimiter w).
  set (w2 := elapse (Z.of_N (latency (github_users env (trace w1) username)))
                    (log (EvRequest (GetGithubUser username)) w1)).
  set (w3 := waited githubSearchLimiter w2).
  set (w4 := elapse (Z.of_N (latency (github_search env (trace w3) username)))
                    (log (EvRequest (GetGithubMergedPRs username)) w3)).
  set (w5 := set_cache (with_entries github_slot
                          (Cache.set (github_entries (cache w4)) (now w4) key v)
                          (cache w4)) w4).
  assert (Hattempt : await (Adapters.github_fn username key) env w1 = (Ok v, w5)).
  { unfold Adapters.github_fn. rewrite await_async.
    unfold try_catch at 1, bind at 1, http at 1. rewrite Huser.
    fold w2. unfold bind at 1, try_catch, bind at 1. rewrite await_wait.
    fold w3. unfold bind, http. destruct (Hsearch (trace w3)) as [e ->].
    reflexivity. }
  exists w5. split; [|split].
  - unfold Adapters.github. rewrite Hu. cbn [negb]. fold key.
    unfold async, bind at 1, cache_get, gets. cbn [entries github_slot].
    rewrite Hmiss. unfold bind at 1. rewrite await_wait. fold w1.
    unfold defined, bind, retryRequest, CONFIG.RETRY_ATTEMPTS.
    by rewrite (retry_loop_success _ 3 0 2 env w1 v w5 Hattempt).
  - unfold w5, w4, w3, w2, w1. cbn [trace set_cache elapse set_now log].
    rewrite !requests_app.
    assert (Hw : forall l w0, requests (trace (waited l w0)) = requests (trace w0)).
    { intros l w0. unfold waited. destruct (_ <? _); cbn [trace set_limiter];
        [|done]. cbn. rewrite requests_app. cbn. apply app_nil_r. }
    rewrite Hw. cbn [trace set_cache elapse set_now log].
    rewrite requests_app, Hw. cbn. by rewrite <- app_assoc.
  - intros env' w'' Hcache Hnow.
    apply (fetch_hit github_slot key githubUserLimiter zeroGithub
             (Adapters.github_fn username key) username env' w''
             (Cache.mkItem v (now w4)) Hu).
    + rewrite Hcache. unfold w5. cbn. apply lookup_insert_eq.
    + cbn [Cache.timestamp]. change (now w5) with (now w4) in Hnow. lia.
Qed.

(** X9 for alice at the start of the process, with the search out of order. *)
Lemma github_search_failure_is_cached_as_zero_witness :
  let username := Bare (JsString "alice") in
  truthyId username = true
  /\ Cache.get (github_entries (cache start)) (now start)
               ("github_" +:+ toStringId username) = None
  /\ (forall h, outcome (github_users github_search_down h username) = Ok (Some 12))
  /\ (forall h, exists e,
         outcome (github_search github_search_down h username) = Throw e)
  /\ exists w',
      Adapters.github username github_search_down start
      = (Ok (Fulfilled (mkGithub (orZero (Some 12)) 0)), w')
      /\ requests (trace w')
         = (requests (trace start)
            ++ [GetGithubUser username; GetGithubMergedPRs username])%list
      /\ forall env' w'',
           cache w'' = cache w' ->
           now w' <= now w'' < now w' + CONFIG.CACHE_DURATION ->
           Adapters.github username env' w''
           = (Ok (Fulfilled (mkGithub (orZero (Some 12)) 0)), w'').
Proof.
  intros username.
  assert (H1 : truthyId username = true) by reflexivity.
  assert (H2 : Cache.get (github_entries (cache start)) (now start)
                         ("github_" +:+ toStringId username) = None)
    by reflexivity.
  assert (H3 : forall h,
             outcome (github_users github_search_down h username) = Ok (Some 12))
    by reflexivity.
  assert (H4 : forall h, exists e,
             outcome (github_search github_search_down h username) = Throw e)
    by (intros h; eexists; reflexivity).
  split; [exact H1|]. split; [exact H2|]. split; [exact H3|]. split; [exact H4|].
  apply (github_search_failure_is_cached_as_zero username github_search_down
           start (Some 12) H1 H2 H3 H4).
Defined.

(* ===================================================================== *)
(** * What the SkillRack scraper extracts                                *)
(* ===================================================================== *)

Lemma first_plausible_range matches :
  first_plausible matches = 0 \/ plausible (first_plausible matches) = true.
Proof.
  induction matches as [|[num|] rest IH]; cbn [first_plausible]; [by left| |done].
  destruct (_ && _) eqn:H; [by right|done].
Qed.

Lemma In_insert_desc x n l : In x (insert_desc n l) <-> n = x \/ In x l.
Proof.
  induction l as [|m rest IH]; cbn [insert_desc].
  - cbn. tauto.
  - destruct (m <? n); cbn [In]; [tauto|]. rewrite IH. tauto.
Qed.

Lemma In_sort_desc x l : In x (sort_desc l) <-> In x l.
Proof.
  induction l as [|n rest IH]; [done|].
  unfold sort_desc in *. cbn [fold_right In]. by rewrite In_insert_desc, IH.
Qed.

(** The head of a list sorted by [(a, b) => b - a] is its largest element. *)
Lemma sort_desc_head l n rest :
  sort_desc l = n :: rest -> In n l /\ forall m, In m l -> m <= n.
Proof.
  revert n rest. induction l as [|x l' IH]; intros n rest H; [done|].
  unfold sort_desc in H. cbn [fold_right] in H. fold (sort_desc l') in H.
  destruct (sort_desc l') as [|m0 r0] eqn:Hsort.
  - cbn in H. inversion H; subst. split; [by left|].
    intros m [->|Hm]; [lia|].
    apply In_sort_desc in Hm. rewrite Hsort in Hm. destruct Hm.
  - destruct (IH m0 r0 eq_refl) as [Hin Hmax].
    cbn [insert_desc] in H. destruct (Z.ltb_spec m0 x); inversion H; subst.
    + split; [by left|]. intros m [->|Hm]; [lia|]. specialize (Hmax m Hm). lia.
    + split; [by right|]. intros m [->|Hm]; [lia|]. by apply Hmax.
Qed.

(** The scraper resolves to the zero value or to the metrics of the page it
    was served. *)
Lemma scrapeSkillRack_value d l env w :
  exists m w',
    scrapeSkillRack d l env w = (Ok (Fulfilled m), w')
    /\ (m = zeroSkillrack
        \/ exists username html,
             (html_length html <? 1000) || html_marker html = false
             /\ m = page_metrics username html).
Proof.
  unfold scrapeSkillRack.
  destruct (negb (truthyId d)); [by eexists _, _; split; [|left]|].
  destruct (match d with
            | Bare (JsString s) => (JsString s, JsString s, JsNull)
            | _ => (prop_username d, prop_id d, prop_key d)
            end) as [[username id] key].
  destruct (negb (truthy username)); [by eexists _, _; split; [|left]|].
  unfold async at 1, bind at 1. rewrite await_wait.
  generalize (if truthy id && truthy key
              then "https://www.skillrack.com/faces/resume.xhtml?id="
                   +:+ toString id +:+ "&key=" +:+ toString key
              else "https://www.skillrack.com/faces/resume.xhtml?id="
                   +:+ toString username). intros url.
  unfold_monad.
  destruct (outcome (skillrack_resume env (trace (waited l w)) url))
    as [[| |html]|e]; try (by eexists _, _; split; [|left]).
  destruct (_ || _) eqn:Hvalid; [by eexists _, _; split; [|left]|].
  eexists _, _. split; [reflexivity|]. right. by exists username, html.
Qed.

Lemma page_metrics_range username html :
  let m := page_metrics username html in
  0 <= sr_solved m < 3000 /\ sr_solved m <> 2023 /\ sr_solved m <> 2024
  /\ userInfo m <> None.
Proof.
  assert (Hp : forall n, n = 0 \/ plausible n = true ->
                         0 <= n < 3000 /\ n <> 2023 /\ n <> 2024).
  { intros n [->|H]; [lia|]. unfold plausible in H.
    repeat (apply andb_prop in H as [H ?]). lia. }
  assert (Hc : forall n, contextual n = true ->
                         0 <= n < 3000 /\ n <> 2023 /\ n <> 2024).
  { intros n H. unfold contextual in H.
    repeat (apply andb_prop in H as [H ?]). lia. }
  pose proof (first_plausible_range (html_patterns html)) as Hfirst.
  assert (Hs : let s := sr_solved (page_metrics username html) in
               0 <= s < 3000 /\ s <> 2023 /\ s <> 2024).
  { cbn zeta. unfold page_metrics. cbn [sr_solved].
    destruct (match html_heading html with
              | Some heading => _
              | None => None
              end) as [u|]; [|by apply Hp].
    destruct (html_numbers html) as [numbers|]; [|by apply Hp].
    destruct (first_plausible (html_patterns html) =? 0) eqn:Hzero; [|by apply Hp].
    destruct (sort_desc _) as [|n rest] eqn:Hsort; [by apply Hp|].
    apply sort_desc_head in Hsort as [Hin _].
    apply filter_In in Hin as [_ Hin]. by apply Hc. }
  cbn zeta in *. destruct Hs as (H1 & H2 & H3).
  split; [exact H1|]. split; [exact H2|]. split; [exact H3|]. done.
Qed.

(** X10. Whatever the page served, the SkillRack scraper resolves, and the
    solved count it reports is at least 0 and below 3000 and is neither 2023
    nor 2024; it reports a count other than 0 only together with a user
    info. *)
Theorem scrapeSkillRack_count_is_plausible :
  forall (d : Identity) (l : Limiter) (env : Env) (w : World),
    exists m w',
      scrapeSkillRack d l env w = (Ok (Fulfilled m), w')
      /\ 0 <= sr_solved m < 3000
      /\ sr_solved m <> 2023 /\ sr_solved m <> 2024
      /\ (userInfo m = None -> sr_solved m = 0).
Proof.
  intros d l env w.
  destruct (scrapeSkillRack_value d l env w) as (m & w' & Hrun & Hm).
  exists m, w'. split; [exact Hrun|].
  destruct Hm as [->|(username & html & _ & ->)]; [by cbn|].
  destruct (page_metrics_range username html) as (H1 & H2 & H3 & H4).
  repeat split; try done; lia.
Qed.

(** Served a page that passes the basic validation, the scraper resolves to
    the metrics of that page. *)
Lemma scrapeSkillRack_on_page username id key l env w html :
  truthy username = true ->
  outcome (skillrack_resume env (trace (waited l w)) (profileUrl_of username id key))
  = Ok (Text html) ->
  (html_length html <? 1000) || html_marker html = false ->
  exists w',
    scrapeSkillRack (Credential username id key) l env w
    = (Ok (Fulfilled (page_metrics username html)), w').
Proof.
  intros Hu Hpage Hvalid. unfold scrapeSkillRack.
  cbn [truthyId negb prop_username prop_id prop_key]. rewrite Hu. cbn [negb].
  unfold async at 1, bind at 1. rewrite await_wait.
  fold (profileUrl_of username id key).
  unfold_monad. rewrite Hpage, Hvalid. by eexists.
Qed.

(** X11. The fallback of the SkillRack scraper. On a page that passes the
    validation and is headed by a name, when none of the patterns for the
    solved count yields a plausible number, the count reported is the largest
    of the numbers of up to four digits on the page that lie strictly
    between 0 and 2000 and are none of 100, 200, 2023 and 2024, and 0 when
    there is no such number. *)
Theorem skillrack_fallback_takes_largest_number :
  forall (username id key : JsValue) (l : Limiter) (env : Env) (w : World)
         (html : Html) (heading : string) (numbers : list Z),
    truthy username = true ->
    (forall h, outcome (skillrack_resume env h (profileUrl_of username id key))
               = Ok (Text html)) ->
    (html_length html <? 1000) || html_marker html = false ->
    html_heading html = Some heading ->
    includes heading "SkillRack" = false ->
    first_plausible (html_patterns html) = 0 ->
    html_numbers html = Some numbers ->
    exists m w',
      scrapeSkillRack (Credential username id key) l env w = (Ok (Fulfilled m), w')
      /\ userInfo m = Some (mkUserInfo (JsString (trim heading)) true)
      /\ (forall n, In n numbers -> contextual n = true -> n <= sr_solved m)
      /\ ((exists n, In n numbers /\ contextual n = true) ->
          In (sr_solved m) numbers /\ contextual (sr_solved m) = true)
      /\ ((forall n, In n numbers -> contextual n = false) -> sr_solved m = 0).
Proof.
  intros username id key l env w html heading numbers
         Hu Hpage Hvalid Hheading Hname Hnone Hnumbers.
  destruct (scrapeSkillRack_on_page username id key l env w html Hu
              (Hpage _) Hvalid) as [w' Hrun].
  exists (page_metrics username html), w'. split; [exact Hrun|].
  unfold page_metrics. rewrite Hheading, Hname, Hnone, Hnumbers.
  cbn [negb Z.eqb sr_solved userInfo]. split; [done|].
  destruct (sort_desc (List.filter (fun n => contextual n) numbers))
    as [|top rest] eqn:Hsort.
  - assert (Hempty : forall n, In n numbers -> contextual n = false).
    { intros n Hn. destruct (contextual n) eqn:Hc; [|done].
      assert (Hin : In n (sort_desc (List.filter (fun n => contextual n) numbers)))
        by (apply In_sort_desc, filter_In; by split).
      rewrite Hsort in Hin. destruct Hin. }
    split; [|split; [|done]].
    + intros n Hn Hc. rewrite (Hempty n Hn) in Hc. discriminate.
    + intros (n & Hn & Hc). rewrite (Hempty n Hn) in Hc. discriminate.
  - apply sort_desc_head in Hsort as [Hin Hmax].
    apply filter_In in Hin as [Hin Hc].
    split; [|split; [done|]].
    + intros n Hn Hcn. apply Hmax, filter_In. by split.
    + intros Hempty. rewrite (Hempty top Hin) in Hc. discriminate.
Qed.

(** X11 on a page showing 2024, 100, 57, 312, 5000 and 0. *)
Lemma skillrack_fallback_takes_largest_number_witness :
  let username := JsString "alice" in
  let id := JsNumber 4242 in
  let key := JsString "k3y" in
  truthy username = true
  /\ (forall h, outcome (skillrack_resume skillrack_bare h
                           (profileUrl_of username id key))
                = Ok (Text bare_page))
  /\ (html_length bare_page <? 1000) || html_marker bare_page = false
  /\ html_heading bare_page = Some "ALICE"
  /\ includes "ALICE" "SkillRack" = false
  /\ first_plausible (html_patterns bare_page) = 0
  /\ html_numbers bare_page = Some [2024; 100; 57; 312; 5000; 0]
  /\ exists m w',
      scrapeSkillRack (Credential username id key) skillrackLimiter
                      skillrack_bare start = (Ok (Fulfilled m), w')
      /\ userInfo m = Some (mkUserInfo (JsString (trim "ALICE")) true)
      /\ (forall n, In n [2024; 100; 57; 312; 5000; 0] ->
                    contextual n = true -> n <= sr_solved m)
      /\ ((exists n, In n [2024; 100; 57; 312; 5000; 0] /\ contextual n = true) ->
          In (sr_solved m) [2024; 100; 57; 312; 5000; 0]
          /\ contextual (sr_solved m) = true)
      /\ ((forall n, In n [2024; 100; 57; 312; 5000; 0] -> contextual n = false) ->
          sr_solved m = 0).
Proof.
  intros username id key.
  split; [reflexivity|]. split; [reflexivity|]. split; [reflexivity|].
  split; [reflexivity|]. split; [reflexivity|]. split; [reflexivity|].
  split; [reflexivity|].
  apply (skillrack_fallback_takes_largest_number username id key skillrackLimiter
           skillrack_bare start bare_page "ALICE" [2024; 100; 57; 312; 5000; 0]);
    reflexivity.
Defined.

(* ===================================================================== *)
(** * What the rate limiter does guarantee                               *)
(* ===================================================================== *)

(** X12. Two calls of [wait()] on one limiter that do not overlap: if the
    limiter is not touched between the return of the first and the second
    call, the second returns at the later of the instant it was called and
    the return of the first plus the limiter's delay. So the two returns are
    at least [delay] apart, the second call does not sleep when that much
    time has passed already, and [lastRequest] is the instant of its return. *)
Theorem wait_spaces_sequential_callers :
  forall (l : Limiter) (env env' : Env) (w w1 w2 w3 : World),
    RateLimiter_wait l env w = (Ok (Fulfilled tt), w1) ->
    now w1 <= now w2 ->
    limiters w2 l = limiters w1 l ->
    RateLimiter_wait l env' w2 = (Ok (Fulfilled tt), w3) ->
    now w3 = Z.max (now w2) (now w1 + delay (limiters w l))
    /\ lastRequest (limiters w3 l) = now w3
    /\ (now w1 + delay (limiters w l) <= now w2 -> trace w3 = trace w2).
Proof.
  intros l env env' w w1 w2 w3 H1 Hclock Hlim H2.
  rewrite RateLimiter_wait_returns in H1, H2.
  injection H1 as Hw1. injection H2 as Hw3. subst w3.
  assert (Hlast : limiters (waited l w) l
                  = mkRateLimiter (delay (limiters w l)) (now (waited l w))).
  { unfold waited. cbn. by rewrite decide_True. }
  rewrite Hw1 in Hlast. rewrite Hlast in Hlim.
  unfold waited. rewrite Hlim. cbn [delay lastRequest].
  destruct (Z.ltb_spec (now w2 - now w1) (delay (limiters w l))) as [Hclosed|Hopen].
  - cbn. rewrite decide_True by done. cbn. split; [lia|]. split; [done|]. lia.
  - cbn. rewrite decide_True by done. cbn. split; [lia|]. done.
Qed.

(** X12 on the leetcode limiter, called again 100ms after it returned. *)
Lemma wait_spaces_sequential_callers_witness :
  let w1 := waited leetcodeLimiter start in
  let w2 := elapse 100 w1 in
  let w3 := waited leetcodeLimiter w2 in
  RateLimiter_wait leetcodeLimiter offline start = (Ok (Fulfilled tt), w1)
  /\ now w1 <= now w2
  /\ limiters w2 leetcodeLimiter = limiters w1 leetcodeLimiter
  /\ RateLimiter_wait leetcodeLimiter offline w2 = (Ok (Fulfilled tt), w3)
  /\ now w3 = Z.max (now w2) (now w1 + delay (limiters start leetcodeLimiter))
  /\ lastRequest (limiters w3 leetcodeLimiter) = now w3
  /\ (now w1 + delay (limiters start leetcodeLimiter) <= now w2 ->
      trace w3 = trace w2).
Proof.
  intros w1 w2 w3.
  assert (H1 : RateLimiter_wait leetcodeLimiter offline start
               = (Ok (Fulfilled tt), w1)) by apply RateLimiter_wait_returns.
  assert (H2 : now w1 <= now w2) by (vm_compute; congruence).
  assert (H3 : limiters w2 leetcodeLimiter = limiters w1 leetcodeLimiter)
    by reflexivity.
  assert (H4 : RateLimiter_wait leetcodeLimiter offline w2
               = (Ok (Fulfilled tt), w3)) by apply RateLimiter_wait_returns.
  split; [exact H1|]. split; [exact H2|]. split; [exact H3|]. split; [exact H4|].
  apply (wait_spaces_sequential_callers leetcodeLimiter offline offline
           start w1 w2 w3 H1 H2 H3 H4).
Defined.

(** A caller that is asleep until [bound] at least, or has returned at
    [bound] at the earliest, stays so whatever the others do. *)
Lemma Concurrent_step_keeps_bound a s s' c bound :
  Concurrent.step a s = Some s' ->
  (exists t, (Concurrent.callers s !! c = Some (Concurrent.Sleeping t)
              \/ Concurrent.callers s !! c = Some (Concurrent.Returned t))
             /\ bound <= t) ->
  exists t, (Concurrent.callers s' !! c = Some (Concurrent.Sleeping t)
             \/ Concurrent.callers s' !! c = Some (Concurrent.Returned t))
            /\ bound <= t.
Proof.
  intros Hstep (t & Hc & Ht).
  assert (Hkeep : forall c' v,
             c' <> c ->
             exists t0,
               (<[c' := v]> (Concurrent.callers s) !! c
                = Some (Concurrent.Sleeping t0)
                \/ <[c' := v]> (Concurrent.callers s) !! c
                   = Some (Concurrent.Returned t0))
               /\ bound <= t0).
  { intros c' v Hne. exists t. split; [|done].
    rewrite list_lookup_insert_ne by done. exact Hc. }
  destruct a as [c'|c'|ms]; cbn in Hstep.
  - destruct (Concurrent.callers s !! c') as [[| |]|] eqn:Hc'; try discriminate.
    assert (Hne : c' <> c) by (intros ->; destruct Hc; congruence).
    destruct (_ <? _); inversion Hstep; subst; cbn; by apply Hkeep.
  - destruct (Concurrent.callers s !! c') as [[|due|]|] eqn:Hc'; try discriminate.
    destruct (Z.leb_spec due (Concurrent.clock s)); inversion Hstep; subst; cbn.
    destruct (decide (c' = c)) as [->|Hne]; [|by apply Hkeep].
    exists (Concurrent.clock s). split.
    + right. apply list_lookup_insert_eq. by eapply lookup_lt_Some.
    + destruct Hc as [Hc|Hc]; rewrite Hc in Hc'; inversion Hc'; subst. lia.
  - inversion Hstep; subst; cbn. by exists t.
Qed.

Lemma Concurrent_run_keeps_bound schedule s s' c bound :
  Concurrent.run schedule s = Some s' ->
  (exists t, (Concurrent.callers s !! c = Some (Concurrent.Sleeping t)
              \/ Concurrent.callers s !! c = Some (Concurrent.Returned t))
             /\ bound <= t) ->
  exists t, (Concurrent.callers s' !! c = Some (Concurrent.Sleeping t)
             \/ Concurrent.callers s' !! c = Some (Concurrent.Returned t))
            /\ bound <= t.
Proof.
  revert s. induction schedule as [|a rest IH]; intros s Hrun Hc; cbn in Hrun.
  - by inversion Hrun; subst.
  - destruct (Concurrent.step a s) as [s1|] eqn:Hstep; [|discriminate].
    eapply IH; [exact Hrun|]. by eapply Concurrent_step_keeps_bound.
Qed.

(** X13. What [wait()] guarantees under any interleaving of its callers: a
    caller never returns less than [delay] after the [lastRequest] it found
    when it called, that is, after the latest return that preceded its call;
    and [lastRequest] never decreases nor runs ahead of the clock. *)
Theorem wait_returns_after_preceding_completions :
  forall (schedule : list Concurrent.Action) (s s' : Concurrent.State)
         (c : nat) (t : Z),
    lastRequest (Concurrent.limiter s) <= Concurrent.clock s ->
    Concurrent.run (Concurrent.Call c :: schedule) s = Some s' ->
    Concurrent.callers s' !! c = Some (Concurrent.Returned t) ->
    lastRequest (Concurrent.limiter s) + delay (Concurrent.limiter s) <= t
    /\ lastRequest (Concurrent.limiter s) <= lastRequest (Concurrent.limiter s')
    /\ lastRequest (Concurrent.limiter s') <= Concurrent.clock s'.
Proof.
  intros schedule s s' c t Hinv Hrun Hreturned.
  split; [|exact (Concurrent_run_monotone _ s s' Hrun Hinv)].
  cbn [Concurrent.run] in Hrun.
  destruct (Concurrent.step (Concurrent.Call c) s) as [s1|] eqn:Hcall;
    [|discriminate].
  assert (Hbound : exists t0,
             (Concurrent.callers s1 !! c = Some (Concurrent.Sleeping t0)
              \/ Concurrent.callers s1 !! c = Some (Concurrent.Returned t0))
             /\ lastRequest (Concurrent.limiter s)
                + delay (Concurrent.limiter s) <= t0).
  { cbn in Hcall.
    destruct (Concurrent.callers s !! c) as [[| |]|] eqn:Hc; try discriminate.
    apply lookup_lt_Some in Hc.
    destruct (Z.ltb_spec (Concurrent.clock s - lastRequest (Concurrent.limiter s))
                (delay (Concurrent.limiter s)));
      inversion Hcall; subst; cbn; eexists; (split; [|shelve]).
    - left. by apply list_lookup_insert_eq.
    - right. by apply list_lookup_insert_eq.
    Unshelve. all: lia. }
  destruct (Concurrent_run_keeps_bound schedule s1 s' c _ Hrun Hbound)
    as (t0 & [Hc|Hc] & Ht0); rewrite Hc in Hreturned; inversion Hreturned.
  by subst.
Qed.

(** X13 on the second of three callers that call in the same turn. *)
Lemma wait_returns_after_preceding_completions_witness :
  exists s1 s',
    Concurrent.step (Concurrent.Call 0%nat) Concurrent.chunk_of_three = Some s1
    /\ lastRequest (Concurrent.limiter s1) <= Concurrent.clock s1
    /\ Concurrent.run [Concurrent.Call 1%nat; Concurrent.Call 2%nat;
                       Concurrent.Tick 500; Concurrent.Fire 1%nat;
                       Concurrent.Fire 2%nat] s1 = Some s'
    /\ Concurrent.callers s' !! 1%nat = Some (Concurrent.Returned 1700000000500)
    /\ lastRequest (Concurrent.limiter s1) + delay (Concurrent.limiter s1)
       <= 1700000000500
    /\ lastRequest (Concurrent.limiter s1) <= lastRequest (Concurrent.limiter s')
    /\ lastRequest (Concurrent.limiter s') <= Concurrent.clock s'.
Proof.
  eexists _, _.
  split; [reflexivity|].
  assert (H1 : lastRequest (Concurrent.limiter
                              (Concurrent.complete 0 Concurrent.chunk_of_three))
               <= Concurrent.clock
                    (Concurrent.complete 0 Concurrent.chunk_of_three))
    by (vm_compute; congruence).
  split; [exact H1|].
  split; [by vm_compute|].
  split; [by vm_compute|].
  eapply (wait_returns_after_preceding_completions
            [Concurrent.Call 2%nat; Concurrent.Tick 500; Concurrent.Fire 1%nat;
             Concurrent.Fire 2%nat]
            (Concurrent.complete 0 Concurrent.chunk_of_three) _ 1%nat
            1700000000500 H1); by vm_compute.
Defined.

(* ===================================================================== *)
(** * The codeforces count                                               *)
(* ===================================================================== *)

Lemma solved_keys_cons s submissions :
  solved_keys (s :: submissions)
  = if isOK (verdict s)
    then {[ problem_key s ]} ∪ solved_keys submissions
    else solved_keys submissions.
Proof.
  unfold solved_keys. cbn [List.filter]. by destruct (isOK (verdict s)).
Qed.

Lemma elem_of_solved_keys k submissions :
  k ∈ solved_keys submissions
  <-> exists s, In s submissions /\ isOK (verdict s) = true /\ problem_key s = k.
Proof.
  induction submissions as [|s rest IH].
  - unfold solved_keys. cbn. split; [intros H; by apply not_elem_of_empty in H|].
    by intros (s & [] & _).
  - rewrite solved_keys_cons. destruct (isOK (verdict s)) eqn:Hok.
    + rewrite elem_of_union, elem_of_singleton, IH. split.
      * intros [->|(s' & Hin & Hs')]; [exists s; by split; [left|]|].
        exists s'. by split; [right|].
      * intros (s' & [<-|Hin] & Hok' & Hkey); [by left|].
        right. by exists s'.
    + rewrite IH. split.
      * intros (s' & Hin & Hs'). exists s'. by split; [right|].
      * intros (s' & [<-|Hin] & Hok' & Hkey); [congruence|]. by exists s'.
Qed.

(** X14. The codeforces count is the number of distinct problems
    ([contestId]-[index]) with an accepted submission: a submission with a
    verdict other than OK never counts, an accepted one counts unless the
    same problem was counted already, so the count is at most the number of
    accepted submissions; and the order of the submissions does not
    matter. *)
Theorem codeforces_counts_each_problem_once :
  forall (s : Submission) (submissions : list Submission),
    size (solved_keys (s :: submissions))
    = (if isOK (verdict s)
          && negb (bool_decide (problem_key s ∈ solved_keys submissions))
       then S (size (solved_keys submissions))
       else size (solved_keys submissions))
    /\ (size (solved_keys submissions)
        <= length (List.filter (fun s => isOK (verdict s)) submissions))%nat
    /\ (forall submissions',
          Permutation submissions submissions' ->
          solved_keys submissions' = solved_keys submissions).
Proof.
  intros s submissions. split; [|split].
  - rewrite solved_keys_cons. destruct (isOK (verdict s)); [|done].
    cbn [andb]. destruct (bool_decide_reflect
                            (problem_key s ∈ solved_keys submissions)) as [Hin|Hnew].
    + cbn [negb]. f_equal. apply subseteq_union_1_L.
      by apply singleton_subseteq_l.
    + cbn [negb]. rewrite size_union by (by apply disjoint_singleton_l).
      by rewrite size_singleton.
  - induction submissions as [|s' rest IH]; [done|].
    rewrite solved_keys_cons. cbn [List.filter].
    destruct (isOK (verdict s')); [|done]. cbn [length].
    rewrite size_union_alt, size_singleton.
    assert (size (solved_keys rest ∖ {[problem_key s']}) <= size (solved_keys rest))%nat
      by (by apply subseteq_size, subseteq_difference_l).
    lia.
  - intros submissions' Hperm. apply set_eq. intros k.
    rewrite !elem_of_solved_keys. split; intros (s' & Hin & Hs'); exists s';
      (split; [|done]).
    + eapply Permutation_in; [symmetry; exact Hperm|exact Hin].
    + eapply Permutation_in; [exact Hperm|exact Hin].
Qed.

(* ===================================================================== *)
(** * Students that need no remote call                                  *)
(* ===================================================================== *)

Lemma api_adapter_hit {V : Type} (slot : Slot V) prefix limiter zero
    (fn : string -> M (Settled V)) i v env w :
  fresh slot prefix i v w ->
  fetch_through_cache slot (prefix +:+ toStringId i) limiter zero
                      (fn (prefix +:+ toStringId i)) i env w
  = (Ok (Fulfilled v), w).
Proof.
  intros (Hi & it & Hit & Hage & <-). by eapply fetch_hit.
Qed.

(** X15. A student without any handle (no [handles] object, or handles that
    are all missing or empty) gets a record of zeros with no error, at
    once: no remote call, no timer, no limiter or cache entry touched, and a
    processing time of 0. *)
Theorem student_without_handles_costs_nothing :
  forall (student : Student) (env : Env) (w : World),
    truthyId (handle h_leetcode student) = false ->
    truthyId (handle h_github student) = false ->
    truthyId (handle h_codeforces student) = false ->
    truthyId (handle h_atcoder student) = false ->
    truthyId (handle h_skillrack student) = false ->
    processStudent exported_Adapters student env w
    = (Ok (Fulfilled (mkResult (id student) (name student) (handles student)
                               zeroData 0 (now w) None)), w).
Proof.
  intros student env w H1 H2 H3 H4 H5.
  assert (Hjoin : join exported_Adapters student env w
                  = (Ok (mkJoined (Fulfilled zeroLeetcode) (Fulfilled zeroGithub)
                                  (Fulfilled zeroSolved) (Fulfilled zeroSolved)
                                  (Fulfilled zeroSkillrack)), w)).
  { unfold join, exported_Adapters.
    cbn [call_leetcode call_github call_codeforces call_atcoder call_skillrack].
    unfold Adapters.leetcode, Adapters.github, Adapters.codeforces,
           Adapters.atcoder, Adapters.skillrack.
    rewrite H1, H2, H3, H4, H5. reflexivity. }
  rewrite (processStudent_joined _ _ _ _ _ _ Hjoin).
  unfold joined_result. cbn [value_or leetcodeData githubData codeforcesData
                             atcoderData skillrackData].
  by rewrite Z.sub_diag.
Qed.

(** X15 on bob, who has no [handles]. *)
Lemma student_without_handles_costs_nothing_witness :
  truthyId (handle h_leetcode bob) = false
  /\ truthyId (handle h_github bob) = false
  /\ truthyId (handle h_codeforces bob) = false
  /\ truthyId (handle h_atcoder bob) = false
  /\ truthyId (handle h_skillrack bob) = false
  /\ processStudent exported_Adapters bob classroom start
     = (Ok (Fulfilled (mkResult (id bob) (name bob) (handles bob)
                                zeroData 0 (now start) None)), start).
Proof.
  repeat (split; [reflexivity|]).
  apply (student_without_handles_costs_nothing bob classroom start);
    reflexivity.
Defined.

(** X16. A student whose leetcode, github, codeforces and atcoder records
    are all in the cache and younger than 24 hours: the record reports the
    cached values, no API is called, and all that happens is what the
    skillrack adapter does, which is never cached: at most one remote call,
    and the cache stays as it is. *)
Theorem cached_student_calls_no_api :
  forall (student : Student) (env : Env) (w : World)
         (lc : LeetcodeMetrics) (gh : GithubMetrics) (cf ac : SolvedMetrics),
    fresh leetcode_slot "leetcode_" (handle h_leetcode student) lc w ->
    fresh github_slot "github_" (handle h_github student) gh w ->
    fresh codeforces_slot "codeforces_" (handle h_codeforces student) cf w ->
    fresh atcoder_slot "atcoder_" (handle h_atcoder student) ac w ->
    exists r w',
      processStudent exported_Adapters student env w = (Ok (Fulfilled r), w')
      /\ leetcode (data r) = lc /\ github (data r) = gh
      /\ codeforces (data r) = cf /\ atcoder (data r) = ac
      /\ error r = None
      /\ w' = snd (Adapters.skillrack (handle h_skillrack student) env w)
      /\ cache w' = cache w
      /\ (calls w' <= calls w + 1)%nat.
Proof.
  intros student env w lc gh cf ac Hlc Hgh Hcf Hac.
  destruct (skillrack_adapter_resolves (handle h_skillrack student) env w)
    as (m & w' & Hsr & Hcache).
  pose proof (within_skillrack (handle h_skillrack student) env w) as Hcalls.
  rewrite Hsr in Hcalls. cbn [snd] in Hcalls.
  assert (Hjoin : join exported_Adapters student env w
                  = (Ok (mkJoined (Fulfilled lc) (Fulfilled gh) (Fulfilled cf)
                                  (Fulfilled ac) (Fulfilled m)), w')).
  { unfold join, exported_Adapters.
    cbn [call_leetcode call_github call_codeforces call_atcoder call_skillrack].
    rewrite (bind_Ok _ _ env w (Fulfilled lc) w)
      by exact (api_adapter_hit leetcode_slot "leetcode_" leetcodeLimiter
                  zeroLeetcode (Adapters.leetcode_fn _) _ lc env w Hlc).
    rewrite (bind_Ok _ _ env w (Fulfilled gh) w)
      by exact (api_adapter_hit github_slot "github_" githubUserLimiter
                  zeroGithub (Adapters.github_fn _) _ gh env w Hgh).
    rewrite (bind_Ok _ _ env w (Fulfilled cf) w)
      by exact (api_adapter_hit codeforces_slot "codeforces_" codeforcesLimiter
                  zeroSolved (Adapters.codeforces_fn _) _ cf env w Hcf).
    rewrite (bind_Ok _ _ env w (Fulfilled ac) w)
      by exact (api_adapter_hit atcoder_slot "atcoder_" rateLimiter
                  zeroSolved (Adapters.atcoder_fn _) _ ac env w Hac).
    by rewrite (bind_Ok _ _ env w (Fulfilled m) w' Hsr). }
  eexists _, w'. split; [exact (processStudent_joined _ _ _ _ _ _ Hjoin)|].
  rewrite Hsr. by cbn.
Qed.

(** X16 on alice, whose four API records were cached 1000s earlier. *)
Lemma cached_student_calls_no_api_witness :
  fresh leetcode_slot "leetcode_" (handle h_leetcode alice)
        (mkLeetcode 120 80 30 10) warm_all
  /\ fresh github_slot "github_" (handle h_github alice) (mkGithub 12 4) warm_all
  /\ fresh codeforces_slot "codeforces_" (handle h_codeforces alice)
           (mkSolved 1) warm_all
  /\ fresh atcoder_slot "atcoder_" (handle h_atcoder alice) (mkSolved 25) warm_all
  /\ exists r w',
      processStudent exported_Adapters alice offline warm_all
      = (Ok (Fulfilled r), w')
      /\ leetcode (data r) = mkLeetcode 120 80 30 10
      /\ github (data r) = mkGithub 12 4
      /\ codeforces (data r) = mkSolved 1
      /\ atcoder (data r) = mkSolved 25
      /\ error r = None
      /\ w' = snd (Adapters.skillrack (handle h_skillrack alice) offline warm_all)
      /\ cache w' = cache warm_all
      /\ (calls w' <= calls warm_all + 1)%nat.
Proof.
  assert (H1 : fresh leetcode_slot "leetcode_" (handle h_leetcode alice)
                     (mkLeetcode 120 80 30 10) warm_all).
  { split; [reflexivity|].
    exists (Cache.mkItem (mkLeetcode 120 80 30 10) 1699999000000).
    split; [by vm_compute|]. split; [by vm_compute|reflexivity]. }
  assert (H2 : fresh github_slot "github_" (handle h_github alice)
                     (mkGithub 12 4) warm_all).
  { split; [reflexivity|].
    exists (Cache.mkItem (mkGithub 12 4) 1699999000000).
    split; [by vm_compute|]. split; [by vm_compute|reflexivity]. }
  assert (H3 : fresh codeforces_slot "codeforces_" (handle h_codeforces alice)
                     (mkSolved 1) warm_all).
  { split; [reflexivity|].
    exists (Cache.mkItem (mkSolved 1) 1699999000000).
    split; [by vm_compute|]. split; [by vm_compute|reflexivity]. }
  assert (H4 : fresh atcoder_slot "atcoder_" (handle h_atcoder alice)
                     (mkSolved 25) warm_all).
  { split; [reflexivity|].
    exists (Cache.mkItem (mkSolved 25) 1699999000000).
    split; [by vm_compute|]. split; [by vm_compute|reflexivity]. }
  split; [exact H1|]. split; [exact H2|]. split; [exact H3|]. split; [exact H4|].
  apply (cached_student_calls_no_api alice offline warm_all _ _ _ _ H1 H2 H3 H4).
Defined.

(* ===================================================================== *)
(** * The summary and the order of the records                           *)
(* ===================================================================== *)

Lemma sum_of_from g results acc :
  fold_left (fun sum r => sum + g r) results acc = acc + sum_of g results.
Proof.
  unfold sum_of. revert acc.
  induction results as [|r rest IH]; intros acc; cbn [fold_left]; [lia|].
  rewrite (IH (acc + g r)), (IH (0 + g r)). lia.
Qed.

Lemma sum_of_cons g r rest : sum_of g (r :: rest) = g r + sum_of g rest.
Proof. unfold sum_of at 1. cbn [fold_left]. by rewrite sum_of_from. Qed.

Lemma sum_of_Permutation g results results' :
  Permutation results results' -> sum_of g results = sum_of g results'.
Proof.
  induction 1 as [|x l l' _ IH|x y l|l l' l'' _ IH1 _ IH2].
  - done.
  - by rewrite !sum_of_cons, IH.
  - rewrite !sum_of_cons. lia.
  - by rewrite IH1.
Qed.

Lemma errors_Permutation results results' :
  Permutation results results' ->
  length (List.filter (fun r => has_error r) results)
  = length (List.filter (fun r => has_error r) results').
Proof.
  induction 1 as [|x l l' _ IH|x y l|l l' l'' _ IH1 _ IH2].
  - done.
  - cbn [List.filter]. destruct (has_error x); cbn [length]; by rewrite IH.
  - cbn [List.filter]. by destruct (has_error x), (has_error y).
  - by rewrite IH1.
Qed.

(** The total of the top solver is the largest total of the list. *)
Lemma top_total_Permutation r rest r' rest' :
  Permutation (r :: rest) (r' :: rest') ->
  total (leetcode (data (fold_left higher rest r)))
  = total (leetcode (data (fold_left higher rest' r'))).
Proof.
  intros Hperm.
  destruct (fold_higher_spec rest r) as (Hr & Hrest & Hin).
  destruct (fold_higher_spec rest' r') as (Hr' & Hrest' & Hin').
  assert (Hle : total (leetcode (data (fold_left higher rest r)))
                <= total (leetcode (data (fold_left higher rest' r')))).
  { apply (Permutation_in _ Hperm) in Hin.
    destruct Hin as [<-|Hin]; [exact Hr'|by apply Hrest']. }
  assert (Hge : total (leetcode (data (fold_left higher rest' r')))
                <= total (leetcode (data (fold_left higher rest r)))).
  { apply (Permutation_in _ (Permutation_sym Hperm)) in Hin'.
    destruct Hin' as [<-|Hin']; [exact Hr|by apply Hrest]. }
  lia.
Qed.

(** X17. The summary does not depend on the order of the records, except for
    the name of the top LeetCode solver: for two lists holding the same
    records in different orders, the student count, every total and average,
    the error count and the top solver's problem count are the same; and
    both calls throw when the lists are empty. *)
Theorem generateSummary_ignores_order :
  forall (results results' : list AggregateResult) (env : Env) (w : World),
    Permutation results results' ->
    match generateSummary results env w, generateSummary results' env w with
    | (Ok s, _), (Ok s', _) =>
        totalStudents s = totalStudents s'
        /\ performance s = performance s'
        /\ p_github (platforms s) = p_github (platforms s')
        /\ p_codeforces (platforms s) = p_codeforces (platforms s')
        /\ p_atcoder (platforms s) = p_atcoder (platforms s')
        /\ lc_totalProblems (p_leetcode (platforms s))
           = lc_totalProblems (p_leetcode (platforms s'))
        /\ lc_avgProblems (p_leetcode (platforms s))
           = lc_avgProblems (p_leetcode (platforms s'))
        /\ problems (topSolver (p_leetcode (platforms s)))
           = problems (topSolver (p_leetcode (platforms s')))
    | (Throw _, _), (Throw _, _) => results = [] /\ results' = []
    | _, _ => False
    end.
Proof.
  intros results results' env w Hperm.
  pose proof (Permutation_length Hperm) as Hlen.
  destruct results as [|r rest], results' as [|r' rest']; try discriminate.
  - by cbn.
  - unfold generateSummary, bind, Date_now, gets, reduce1, ret.
    cbn [totalStudents performance platforms p_github p_codeforces p_atcoder
         p_leetcode lc_totalProblems lc_avgProblems topSolver problems].
    rewrite Hlen.
    rewrite !(sum_of_Permutation _ _ _ Hperm), (errors_Permutation _ _ Hperm).
    rewrite (top_total_Permutation _ _ _ _ Hperm).
    repeat split.
Qed.

(** X17 on two records in either order. *)
Lemma generateSummary_ignores_order_witness :
  let r1 := joined_result alice
              (mkJoined (Fulfilled (mkLeetcode 120 80 30 10)) (Fulfilled (mkGithub 12 4))
                        (Fulfilled (mkSolved 1)) (Fulfilled (mkSolved 25))
                        (Fulfilled zeroSkillrack)) 0 10 in
  let r2 := silent_failure in
  Permutation [r1; r2] [r2; r1]
  /\ match generateSummary [r1; r2] offline start,
           generateSummary [r2; r1] offline start with
     | (Ok s, _), (Ok s', _) =>
         totalStudents s = totalStudents s'
         /\ performance s = performance s'
         /\ p_github (platforms s) = p_github (platforms s')
         /\ p_codeforces (platforms s) = p_codeforces (platforms s')
         /\ p_atcoder (platforms s) = p_atcoder (platforms s')
         /\ lc_totalProblems (p_leetcode (platforms s))
            = lc_totalProblems (p_leetcode (platforms s'))
         /\ lc_avgProblems (p_leetcode (platforms s))
            = lc_avgProblems (p_leetcode (platforms s'))
         /\ problems (topSolver (p_leetcode (platforms s)))
            = problems (topSolver (p_leetcode (platforms s')))
     | (Throw _, _), (Throw _, _) => [r1; r2] = [] /\ [r2; r1] = []
     | _, _ => False
     end.
Proof.
  intros r1 r2.
  assert (H : Permutation [r1; r2] [r2; r1]) by apply perm_swap.
  split; [exact H|].
  apply (generateSummary_ignores_order [r1; r2] [r2; r1] offline start H).
Defined.

Lemma fold_higher_keeps top rest :
  (forall y, In y rest ->
     total (leetcode (data y)) <= total (leetcode (data top))) ->
  fold_left higher rest top = top.
Proof.
  induction rest as [|y rest IH]; intros Hmax; [done|].
  cbn [fold_left]. unfold higher at 2.
  destruct (Z.ltb_spec (total (leetcode (data top))) (total (leetcode (data y))))
    as [Hlt|_].
  - specialize (Hmax y (or_introl eq_refl)). lia.
  - apply IH. intros z Hz. apply Hmax. by right.
Qed.

(** X18. Ties for the top LeetCode solver go to the earliest record: the
    top solver named in the summary is the first record of the list whose
    leetcode total is the largest. *)
Theorem top_solver_is_first_with_largest_total :
  forall (before after : list AggregateResult) (r : AggregateResult)
         (env : Env) (w : World),
    (forall y, In y before ->
       total (leetcode (data y)) < total (leetcode (data r))) ->
    (forall y, In y after ->
       total (leetcode (data y)) <= total (leetcode (data r))) ->
    exists s,
      generateSummary (before ++ r :: after) env w = (Ok s, w)
      /\ topSolver (p_leetcode (platforms s))
         = mkTopSolver (r_name r) (total (leetcode (data r))).
Proof.
  intros before after r env w Hbefore Hafter.
  assert (Htop : reduce1 higher (before ++ r :: after) env w = (Ok r, w)).
  { destruct before as [|x before']; cbn [app reduce1 ret].
    - by rewrite fold_higher_keeps.
    - rewrite fold_left_app. cbn [fold_left].
      destruct (fold_higher_spec before' x) as (_ & _ & Hin).
      specialize (Hbefore _ Hin). unfold higher at 2.
      destruct (Z.ltb_spec (total (leetcode (data (fold_left higher before' x))))
                  (total (leetcode (data r)))); [|lia].
      by rewrite fold_higher_keeps. }
  unfold generateSummary, bind at 1, Date_now, gets.
  rewrite (bind_Ok _ _ env w r w Htop). eexists. split; reflexivity.
Qed.

(** X18 on two students with equal totals. *)
Lemma top_solver_is_first_with_largest_total_witness :
  let r1 := joined_result alice
              (mkJoined (Fulfilled (mkLeetcode 120 80 30 10)) (Fulfilled zeroGithub)
                        (Fulfilled zeroSolved) (Fulfilled zeroSolved)
                        (Fulfilled zeroSkillrack)) 0 10 in
  let r2 := joined_result bob
              (mkJoined (Fulfilled (mkLeetcode 120 60 40 20)) (Fulfilled zeroGithub)
                        (Fulfilled zeroSolved) (Fulfilled zeroSolved)
                        (Fulfilled zeroSkillrack)) 0 10 in
  (forall y, In y [silent_failure] ->
     total (leetcode (data y)) < total (leetcode (data r1)))
  /\ (forall y, In y [r2] ->
        total (leetcode (data y)) <= total (leetcode (data r1)))
  /\ exists s,
      generateSummary ([silent_failure] ++ r1 :: [r2]) offline start = (Ok s, start)
      /\ topSolver (p_leetcode (platforms s))
         = mkTopSolver (r_name r1) (total (leetcode (data r1))).
Proof.
  intros r1 r2.
  assert (H1 : forall y, In y [silent_failure] ->
                 total (leetcode (data y)) < total (leetcode (data r1)))
    by (intros y [<-|[]]; by vm_compute).
  assert (H2 : forall y, In y [r2] ->
                 total (leetcode (data y)) <= total (leetcode (data r1)))
    by (intros y [<-|[]]; vm_compute; congruence).
  split; [exact H1|]. split; [exact H2|].
  apply (top_solver_is_first_with_largest_total [silent_failure] [r2] r1
           offline start H1 H2).
Defined.

(* ===================================================================== *)
(** * The listings of top performers                                     *)
(* ===================================================================== *)

Section Ranking.

Context {A : Type} (key : A -> Z).

Lemma insert_by_Permutation x l : Permutation (insert_by key x l) (x :: l).
Proof.
  induction l as [|y rest IH]; cbn [insert_by]; [done|].
  destruct (key y <=? key x); [done|].
  rewrite IH. apply perm_swap.
Qed.

Lemma sort_by_Permutation l : Permutation (sort_by key l) l.
Proof.
  induction l as [|x rest IH]; [done|].
  unfold sort_by in *. cbn [fold_right].
  rewrite insert_by_Permutation. by constructor.
Qed.

Lemma insert_by_sorted x l :
  StronglySorted (fun a b => key b <= key a) l ->
  StronglySorted (fun a b => key b <= key a) (insert_by key x l).
Proof.
  induction 1 as [|y rest Hsorted IH Hall]; cbn [insert_by].
  - repeat constructor.
  - destruct (Z.leb_spec (key y) (key x)).
    + constructor; [by constructor|].
      constructor; [done|]. eapply Forall_impl; [exact Hall|].
      cbn. intros; lia.
    + constructor; [done|].
      apply List.Forall_forall. intros z Hz.
      apply (Permutation_in _ (insert_by_Permutation x rest)) in Hz.
      destruct Hz as [<-|Hz]; [lia|].
      rewrite List.Forall_forall in Hall. by apply Hall.
Qed.

Lemma sort_by_sorted l :
  StronglySorted (fun a b => key b <= key a) (sort_by key l).
Proof.
  induction l as [|x rest IH]; [constructor|].
  unfold sort_by in *. cbn [fold_right]. by apply insert_by_sorted.
Qed.

Lemma sorted_app_inv (l1 l2 : list A) :
  StronglySorted (fun a b => key b <= key a) (l1 ++ l2) ->
  StronglySorted (fun a b => key b <= key a) l1
  /\ forall x y, In x l1 -> In y l2 -> key y <= key x.
Proof.
  induction l1 as [|a l1 IH]; cbn [app]; intros H.
  - split; [constructor|]. by intros x y [].
  - inversion H as [|? ? Hsorted Hall]; subst.
    destruct (IH Hsorted) as [Hl1 Hcross].
    rewrite List.Forall_forall in Hall. split.
    + constructor; [done|]. apply List.Forall_forall. intros z Hz.
      apply Hall, in_or_app. by left.
    + intros x y [<-|Hx] Hy; [|by apply Hcross].
      apply Hall, in_or_app. by right.
Qed.

(** The first [n] records of the sorted array are the [n] best. *)
Lemma firstn_sort_by_best n (results array : list A) :
  Permutation results array ->
  best_of key n results (firstn n (sort_by key array)).
Proof.
  intros Hperm.
  pose proof (sort_by_sorted array) as Hsorted.
  rewrite <- (firstn_skipn n (sort_by key array)) in Hsorted.
  apply sorted_app_inv in Hsorted as [Hfirst Hcross].
  split; [|split; [exact Hfirst|]].
  - rewrite length_firstn, (Permutation_length (sort_by_Permutation array)).
    by rewrite (Permutation_length Hperm).
  - exists (skipn n (sort_by key array)). split; [|exact Hcross].
    rewrite firstn_skipn, Hperm. symmetry. apply sort_by_Permutation.
Qed.

(** The sort is stable: records with the same key keep their order. *)
Lemma insert_by_stable c x l :
  List.filter (fun r => key r =? c) (insert_by key x l)
  = List.filter (fun r => key r =? c) (x :: l).
Proof.
  induction l as [|y rest IH]; cbn [insert_by]; [done|].
  destruct (Z.leb_spec (key y) (key x)) as [Hle|Hgt]; [done|].
  cbn [List.filter] in *. rewrite IH.
  destruct (Z.eqb_spec (key x) c), (Z.eqb_spec (key y) c); try done. lia.
Qed.

Lemma sort_by_stable c l :
  List.filter (fun r => key r =? c) (sort_by key l)
  = List.filter (fun r => key r =? c) l.
Proof.
  induction l as [|x rest IH]; [done|].
  unfold sort_by in *. cbn [fold_right]. rewrite insert_by_stable.
  cbn [List.filter]. by rewrite IH.
Qed.

End Ranking.

(** X19. Each of the three listings of [displayTopPerformers] holds the five
    best records by its measure (all records when there are fewer than
    five), best first: by leetcode total, by repositories plus merged PRs,
    by total of competitive problems; no record left out of a listing beats
    a listed one. Records with equal leetcode totals appear in the order of
    the results. The array itself ends up reordered, holding the same
    records. *)
Theorem displayTopPerformers_lists_the_best_five :
  forall (results : list AggregateResult),
    let board := fst (displayTopPerformers results) in
    best_of (fun r => total (leetcode (data r))) 5 results (topLeetCode board)
    /\ best_of (fun r => repos (github (data r)) + mergedPRs (github (data r)))
               5 results (topGitHub board)
    /\ best_of (fun r => totalCP (data r)) 5 results (topCP board)
    /\ (forall c,
          List.filter (fun r => total (leetcode (data r)) =? c) (topLeetCode board)
          `prefix_of` List.filter (fun r => total (leetcode (data r)) =? c) results)
    /\ Permutation results (snd (displayTopPerformers results)).
Proof.
  intros results. cbn zeta. unfold displayTopPerformers.
  cbn [fst snd topLeetCode topGitHub topCP].
  set (byLeetCode := sort_by (fun r => total (leetcode (data r))) results).
  set (byGitHub := sort_by (fun r => repos (github (data r))
                                     + mergedPRs (github (data r))) byLeetCode).
  assert (H1 : Permutation results byLeetCode)
    by (symmetry; apply sort_by_Permutation).
  assert (H2 : Permutation results byGitHub)
    by (rewrite H1; symmetry; apply sort_by_Permutation).
  split; [by apply firstn_sort_by_best|].
  split; [by apply firstn_sort_by_best|].
  split; [by apply firstn_sort_by_best|].
  split.
  - intros c.
    rewrite <- (sort_by_stable (fun r => total (leetcode (data r))) c results).
    fold byLeetCode.
    rewrite <- (firstn_skipn 5 byLeetCode) at 2. rewrite List.filter_app.
    by eexists.
  - rewrite H2. symmetry. apply sort_by_Permutation.
Qed.

(* ===================================================================== *)
(** * What is read from the .env file                                    *)
(* ===================================================================== *)

Lemma split_free c s : free_of c s = true -> split c s = [s].
Proof.
  induction s as [|a s IH]; cbn [free_of split]; [done|].
  intros H. apply andb_prop in H as [Ha Hs].
  apply negb_true_iff in Ha. rewrite Ha, (IH Hs). done.
Qed.

Lemma split_app c s rest :
  free_of c s = true ->
  split c (s +:+ String c rest) = s :: split c rest.
Proof.
  induction s as [|a s IH]; cbn [free_of]; intros H.
  - change ("" +:+ String c rest) with (String c rest).
    cbn [split]. by rewrite Ascii.eqb_refl.
  - apply andb_prop in H as [Ha Hs]. apply negb_true_iff in Ha.
    change (String a s +:+ String c rest) with (String a (s +:+ String c rest)).
    cbn [split]. by rewrite Ha, (IH Hs).
Qed.

(** X20. What a line of the .env file sets. A line [name=value] sets the
    trimmed name to the trimmed value. A value is cut at its first ['=']:
    of [name=value=rest] only [value] is kept. A line without ['='], with
    nothing before it or with nothing after it sets no variable. The lines
    are taken in order, so that a later line for the same name is assigned
    last. *)
Theorem dotenv_value_is_cut_at_equals_sign :
  forall (name value : string),
    free_of "=" name = true ->
    free_of "=" value = true ->
    name <> "" ->
    value <> "" ->
    load_line (name +:+ "=" +:+ value) = [(trim name, trim value)]
    /\ (forall rest,
          load_line (name +:+ "=" +:+ value +:+ "=" +:+ rest)
          = [(trim name, trim value)])
    /\ (forall line, free_of "=" line = true -> load_line line = [])
    /\ (forall rest, load_line ("=" +:+ rest) = [])
    /\ load_line (name +:+ "=") = []
    /\ (forall line more,
          free_of "010" line = true ->
          load_env (line +:+ String "010" more)
          = (load_line line ++ load_env more)%list).
Proof.
  intros name value Hname Hvalue Hn Hv.
  assert (Hn' : String.eqb name "" = false) by by apply String.eqb_neq.
  assert (Hv' : String.eqb value "" = false) by by apply String.eqb_neq.
  split; [|split; [|split; [|split; [|split]]]].
  - unfold load_line.
    change (name +:+ "=" +:+ value) with (name +:+ String "=" value).
    rewrite (split_app _ _ _ Hname), (split_free _ _ Hvalue).
    by rewrite Hn', Hv'.
  - intros rest. unfold load_line.
    change (name +:+ "=" +:+ value +:+ "=" +:+ rest)
      with (name +:+ String "=" (value +:+ String "=" rest)).
    rewrite (split_app _ _ _ Hname), (split_app _ _ _ Hvalue).
    by rewrite Hn', Hv'.
  - intros line Hline. unfold load_line. by rewrite (split_free _ _ Hline).
  - intros rest. unfold load_line.
    change ("=" +:+ rest) with ("" +:+ String "=" rest).
    rewrite (split_app "=" "" rest eq_refl).
    by destruct (split "=" rest).
  - unfold load_line. change (name +:+ "=") with (name +:+ String "=" "").
    rewrite (split_app _ _ _ Hname). cbn [split].
    by rewrite Hn'.
  - intros line more Hline. unfold load_env.
    by rewrite (split_app _ _ _ Hline).
Qed.

(** X20 on a token that ends in ['=']. *)
Lemma dotenv_value_is_cut_at_equals_sign_witness :
  free_of "=" "GITHUB_TOKEN" = true
  /\ free_of "=" " dG9rZW4" = true
  /\ "GITHUB_TOKEN" <> ""
  /\ " dG9rZW4" <> ""
  /\ load_line ("GITHUB_TOKEN" +:+ "=" +:+ " dG9rZW4")
     = [(trim "GITHUB_TOKEN", trim " dG9rZW4")]
  /\ (forall rest,
        load_line ("GITHUB_TOKEN" +:+ "=" +:+ " dG9rZW4" +:+ "=" +:+ rest)
        = [(trim "GITHUB_TOKEN", trim " dG9rZW4")])
  /\ (forall line, free_of "=" line = true -> load_line line = [])
  /\ (forall rest, load_line ("=" +:+ rest) = [])
  /\ load_line ("GITHUB_TOKEN" +:+ "=") = []
  /\ (forall line more,
        free_of "010" line = true ->
        load_env (line +:+ String "010" more)
        = (load_line line ++ load_env more)%list).
Proof.
  split; [reflexivity|]. split; [reflexivity|].
  split; [discriminate|]. split; [discriminate|].
  apply (dotenv_value_is_cut_at_equals_sign "GITHUB_TOKEN" " dG9rZW4");
    [reflexivity | reflexivity | discriminate | discriminate].
Defined.

(* ===================================================================== *)
(** * Retries and the rate limiter                                       *)
(* ===================================================================== *)

#[local] Instance same_limiters_preorder : PreOrder same_limiters.
Proof.
  split; [by intros w|]. intros w1 w2 w3. unfold same_limiters. congruence.
Qed.

Lemma same_limiters_sleep ms : keeps same_limiters (sleep ms).
Proof. by intros env w. Qed.

Lemma same_limiters_http (B : Type) r (service : Env -> list Event -> Reply B) :
  keeps same_limiters (http r service).
Proof. by intros env w. Qed.

Lemma same_limiters_cache_set {V : Type} (slot : Slot V) key d :
  keeps same_limiters (cache_set slot key d).
Proof. by intros env w. Qed.

(** On a miss, an adapter whose attempts leave the limiters alone leaves
    them as its one [wait()] set them. *)
Lemma fetch_limiters {V : Type} (slot : Slot V) key limiter zero
    (fn : M (Settled V)) username env w :
  truthyId username = true ->
  Cache.get (entries slot (cache w)) (now w) key = None ->
  keeps same_limiters fn ->
  limiters (snd (fetch_through_cache slot key limiter zero fn username env w))
  = limiters (waited limiter w).
Proof.
  intros Hu Hmiss Hfn. unfold fetch_through_cache. rewrite Hu. cbn [negb].
  unfold async, bind at 1, cache_get, gets. rewrite Hmiss.
  unfold bind at 1. rewrite await_wait.
  pose proof (keeps_defined same_limiters _
                (keeps_retry_loop same_limiters same_limiters_sleep fn
                   CONFIG.RETRY_ATTEMPTS 0 CONFIG.RETRY_ATTEMPTS Hfn)
                env (waited limiter w)) as H.
  unfold retryRequest.
  by destruct (defined _ env (waited limiter w)) as [[v|e] w'].
Qed.

(** X21. The limiter is consulted once per lookup, not once per request: on
    a cache miss the leetcode, codeforces and atcoder adapters call [wait()]
    before the first attempt only, so whatever the number of attempts, every
    limiter is left as that one [wait()] set it, with [lastRequest] at the
    instant that preceded the first request. *)
Theorem retries_do_not_consult_the_limiter :
  forall (username : Identity) (env : Env) (w : World),
    truthyId username = true ->
    (Cache.get (leetcode_entries (cache w)) (now w)
               ("leetcode_" +:+ toStringId username) = None ->
     limiters (snd (Adapters.leetcode username env w))
     = limiters (waited leetcodeLimiter w))
    /\ (Cache.get (codeforces_entries (cache w)) (now w)
                  ("codeforces_" +:+ toStringId username) = None ->
        limiters (snd (Adapters.codeforces username env w))
        = limiters (waited codeforcesLimiter w))
    /\ (Cache.get (atcoder_entries (cache w)) (now w)
                  ("atcoder_" +:+ toStringId username) = None ->
        limiters (snd (Adapters.atcoder username env w))
        = limiters (waited rateLimiter w)).
Proof.
  intros username env w Hu. split; [|split]; intros Hmiss.
  - apply (fetch_limiters leetcode_slot _ leetcodeLimiter zeroLeetcode
             (Adapters.leetcode_fn username _) username env w Hu Hmiss).
    unfold Adapters.leetcode_fn. apply (keeps_async same_limiters).
    apply (keeps_bind same_limiters); [apply same_limiters_http|]. intros [|items|].
    + apply (keeps_ret same_limiters).
    + apply (keeps_bind same_limiters); [apply same_limiters_cache_set|]. intros _.
      apply (keeps_ret same_limiters).
    + apply (keeps_throw same_limiters).
  - apply (fetch_limiters codeforces_slot _ codeforcesLimiter zeroSolved
             (Adapters.codeforces_fn username _) username env w Hu Hmiss).
    unfold Adapters.codeforces_fn. apply (keeps_async same_limiters).
    apply (keeps_bind same_limiters); [apply same_limiters_http|]. intros response.
    destruct (negb _); [apply (keeps_ret same_limiters)|].
    destruct (result response); [|apply (keeps_throw same_limiters)].
    apply (keeps_bind same_limiters); [apply same_limiters_cache_set|]. intros _.
    apply (keeps_ret same_limiters).
  - apply (fetch_limiters atcoder_slot _ rateLimiter zeroSolved
             (Adapters.atcoder_fn username _) username env w Hu Hmiss).
    unfold Adapters.atcoder_fn. apply (keeps_async same_limiters).
    apply (keeps_bind same_limiters); [apply same_limiters_http|]. intros count.
    apply (keeps_bind same_limiters); [apply same_limiters_cache_set|]. intros _.
    apply (keeps_ret same_limiters).
Qed.

(** X21 for alice at the start of the process, with every service
    unreachable. *)
Lemma retries_do_not_consult_the_limiter_witness :
  let username := Bare (JsString "alice") in
  truthyId username = true
  /\ (Cache.get (leetcode_entries (cache start)) (now start)
                ("leetcode_" +:+ toStringId username) = None ->
      limiters (snd (Adapters.leetcode username offline start))
      = limiters (waited leetcodeLimiter start))
  /\ (Cache.get (codeforces_entries (cache start)) (now start)
                ("codeforces_" +:+ toStringId username) = None ->
      limiters (snd (Adapters.codeforces username offline start))
      = limiters (waited codeforcesLimiter start))
  /\ (Cache.get (atcoder_entries (cache start)) (now start)
                ("atcoder_" +:+ toStringId username) = None ->
      limiters (snd (Adapters.atcoder username offline start))
      = limiters (waited rateLimiter start)).
Proof.
  intros username. split; [reflexivity|].
  apply (retries_do_not_consult_the_limiter username offline start).
  reflexivity.
Defined.
